(** * ChatSavePro capture / session / storage engine: a shallow embedding

    The development follows the JavaScript sources class by class:
    - [JS]                  the few ECMAScript primitives the code relies on
    - [ContentScript]       [ChatSaveContentScript.generateMessageId]
    - [DeepScan]            [DeepScan.performDeepScan] and its helpers
    - [LiveScanManager]     the per-tab live session manager
    - [IndexedDBManager]    the two-tier persistence layer together with
                            its [ChromeStorageFallback]
    - [StorageManager]      the cached key/value store
    - [Database]            the [DBHandler] class of the content script
    - [ScanSystem], [DeepScanCoordinator]   the two merge routines

    Conventions.  A JavaScript string is a [string]: the sequence of its
    code units, for code units below 256.  An absent or empty string
    property is [""] and an absent or zero number property is [0] where
    the code only tests the property for truthiness, so that both
    readings agree; where it computes with the property or compares it
    (the message count of a merged record, the timestamp of a database
    object), an absent property is [None].  [Date.now()] and [Math.random()] are inputs.  An
    asynchronous method is a function from the manager's state to an
    [Outcome] and a new state. *)

From Stdlib Require Import ZArith NArith String Ascii List Lia Bool.
From Stdlib Require Import Floats Uint63 Sorted.
From Stdlib Require Import QArith.QArith_base QArith.Qround.
From stdpp Require Import gmap strings list fin_maps sorting.

Set Warnings "-inexact-float".
Open Scope Z_scope.

(* ================================================================= *)
(** ** ECMAScript primitives *)

Module JS.

(** [ToInt32]: the value modulo 2^32, read as a signed 32-bit integer. *)
Definition toInt32 (z : Z) : Z := (z + 2 ^ 31) mod 2 ^ 32 - 2 ^ 31.

(** [s.charCodeAt(i)] for each [i], in order. *)
Definition charCodes (s : string) : list Z :=
  map (fun c => Z.of_N (N_of_ascii c)) (list_ascii_of_string s).

(** A digit of [Number.prototype.toString(radix)]: [0-9] then [a-z]. *)
Definition digit (d : N) : ascii :=
  if (d <? 10)%N then ascii_of_N (48 + d) else ascii_of_N (87 + d).

Fixpoint digits_from (fuel : nat) (radix n : N) (acc : string) : string :=
  match fuel with
  | O => acc
  | S fuel' =>
      let acc' := String (digit (n mod radix)) acc in
      if (n / radix =? 0)%N then acc' else digits_from fuel' radix (n / radix) acc'
  end.

(** [n.toString(radix)] for an integer [n]; a number has at most as
    many digits as it has bits. *)
Definition toString (radix : N) (z : Z) : string :=
  let n := Z.to_N (Z.abs z) in
  let body := digits_from (S (N.size_nat n)) radix n "" in
  if z <? 0 then "-" +:+ body else body.

(** [Math.round] on a finite number: the nearest integer, halves up. *)
Definition Math_round (x : Q) : Z := Qfloor (Qplus x (Qmake 1 2)).

(** [Math.floor] on a binary64 number. *)
Definition Math_floor (f : float) : Z :=
  match Prim2SF f with
  | S754_finite false m e =>
      if 0 <=? e then Z.shiftl (Zpos m) e else Z.shiftr (Zpos m) (- e)
  | S754_finite true m e =>
      if 0 <=? e then - Z.shiftl (Zpos m) e
      else - Z.shiftr (Zpos m + (2 ^ (- e) - 1)) (- e)
  | _ => 0
  end.

(** An integer below 2^63 as a binary64 number. *)
Definition number (z : Z) : float := PrimFloat.of_uint63 (Uint63.of_Z z).

(** The same for an integer of either sign. *)
Definition signed (z : Z) : float := if z <? 0 then (- number (- z))%float else number z.

(** White space of [\s] and of [trim], among code units below 256. *)
Definition isSpace (c : ascii) : bool :=
  let n := N_of_ascii c in
  ((9 <=? n) && (n <=? 13) || (n =? 32) || (n =? 160))%N.

Fixpoint trimStart (s : string) : string :=
  match s with
  | String c s' => if isSpace c then trimStart s' else s
  | EmptyString => EmptyString
  end.

Fixpoint trimEnd (s : string) : string :=
  match s with
  | String c s' =>
      match trimEnd s' with
      | EmptyString => if isSpace c then EmptyString else String c EmptyString
      | t => String c t
      end
  | EmptyString => EmptyString
  end.

Definition trim (s : string) : string := trimEnd (trimStart s).

Definition lowerChar (c : ascii) : ascii :=
  let n := N_of_ascii c in
  if ((65 <=? n) && (n <=? 90) || (192 <=? n) && (n <=? 222) && negb (n =? 215))%N
  then ascii_of_N (n + 32) else c.

Fixpoint toLowerCase (s : string) : string :=
  match s with
  | String c s' => String (lowerChar c) (toLowerCase s')
  | EmptyString => EmptyString
  end.

(** [s.split(/\s+/)]: the pieces between maximal runs of white space;
    a leading or trailing run leaves an empty piece, as in ECMAScript.
    [cur] is the piece being read, reversed; [inGap] tells that the
    previous code unit was white space. *)
Fixpoint split_go (sep : ascii -> bool) (s : string) (cur : string) (inGap : bool)
    : list string :=
  match s with
  | EmptyString => [String.rev cur]
  | String c s' =>
      if sep c
      then (if inGap then split_go sep s' cur true
            else String.rev cur :: split_go sep s' EmptyString true)
      else split_go sep s' (String c cur) false
  end.

Definition split_ws (s : string) : list string := split_go isSpace s EmptyString false.

Fixpoint startsWith (p s : string) : bool :=
  match p, s with
  | EmptyString, _ => true
  | String a p', String b s' => Ascii.eqb a b && startsWith p' s'
  | String _ _, EmptyString => false
  end.

(** [s.includes(p)]. *)
Fixpoint includes (s p : string) : bool :=
  startsWith p s ||
  match s with
  | String _ s' => includes s' p
  | EmptyString => false
  end.

(** [a.slice(from, to)] on an array, for [0 <= from]. *)
Definition slice {A} (from to : nat) (l : list A) : list A :=
  firstn (to - from) (skipn from l).

(** [a.slice(start)] for an integer [start]: a negative [start] counts
    from the end, and a [start] beyond either end stops there.
    [sliceStart] is the index the slice begins at. *)
Definition sliceStart (start : Z) (len : nat) : nat :=
  if start <? 0 then Z.to_nat (Z.of_nat len + start) else Nat.min (Z.to_nat start) len.

Definition sliceFrom {A} (start : Z) (l : list A) : list A :=
  skipn (sliceStart start (length l)) l.

(** A stable sort, as [Array.prototype.sort] is: [before x y] tells
    that the comparator does not put [y] ahead of [x]. *)
Fixpoint insert_sorted {A} (before : A -> A -> bool) (x : A) (l : list A) : list A :=
  match l with
  | [] => [x]
  | y :: l' => if before x y then x :: l else y :: insert_sorted before x l'
  end.

Definition sort {A} (before : A -> A -> bool) (l : list A) : list A :=
  foldr (insert_sorted before) [] l.

End JS.

(* ================================================================= *)
(** ** contentScript.js: fragment identity *)

Module ContentScript.

(** [element.getBoundingClientRect()]: the two coordinates the code
    reads; [None] when the node has no such method (a text node), which
    makes the call throw. *)
Record Rect := { top : Q; left : Q }.

(** [getElementPosition]: [`${Math.round(rect.top)}_${Math.round(rect.left)}`],
    or ['0_0'] when reading the rectangle throws. *)
Definition getElementPosition (element : option Rect) : string :=
  match element with
  | Some rect =>
      JS.toString 10 (JS.Math_round (top rect)) +:+ "_" +:+
      JS.toString 10 (JS.Math_round (left rect))
  | None => "0_0"
  end.

(** One turn of the loop: [hash = ((hash << 5) - hash) + char; hash = hash & hash]. *)
Definition hashStep (hash char : Z) : Z :=
  JS.toInt32 (JS.toInt32 (Z.shiftl hash 5) - hash + char).

Definition hashString (str : string) : Z :=
  fold_left hashStep (JS.charCodes str) 0.

(** The string the hash runs over. *)
Definition identityKey (position content platform : string) : string :=
  substring 0 50 content +:+ "_" +:+ position +:+ "_" +:+ platform.

(** The part of the identifier that depends on the fragment only. *)
Definition hashPart (position content platform : string) : string :=
  "msg_" +:+ JS.toString 36 (Z.abs (hashString (identityKey position content platform))).

(** [generateMessageId(element, content)].  [platform] is the result of
    [this.detectPlatform()], [None] when that call throws; [now] is
    [Date.now()] and [rand] is [Math.random().toString(36).substr(2, 9)]. *)
Definition generateMessageId (element : option Rect) (content : string)
    (platform : option string) (now : Z) (rand : string) : string :=
  let position := getElementPosition element in
  match platform with
  | Some p => hashPart position content p +:+ "_" +:+ JS.toString 36 now
  | None => "msg_fallback_" +:+ JS.toString 10 now +:+ "_" +:+ rand
  end.

End ContentScript.

(* ================================================================= *)
(** ** JSON.stringify, for the shapes the code serialises *)

Module JSON.

Definition dquote : string := String "034"%char EmptyString.

Definition hexDigit (d : N) : ascii := JS.digit d.

(** One code unit inside a JSON string literal. *)
Definition escapeChar (c : ascii) : string :=
  let n := N_of_ascii c in
  if (n =? 34)%N then "\" +:+ dquote
  else if (n =? 92)%N then "\\"
  else if (n =? 8)%N then "\b"
  else if (n =? 9)%N then "\t"
  else if (n =? 10)%N then "\n"
  else if (n =? 12)%N then "\f"
  else if (n =? 13)%N then "\r"
  else if (n <? 32)%N
       then "\u00" +:+ String (hexDigit (n / 16)) (String (hexDigit (n mod 16)) EmptyString)
  else String c EmptyString.

Fixpoint escape (s : string) : string :=
  match s with
  | String c s' => escapeChar c +:+ escape s'
  | EmptyString => EmptyString
  end.

Definition str (s : string) : string := dquote +:+ escape s +:+ dquote.
Definition num (z : Z) : string := JS.toString 10 z.
Definition boolean (b : bool) : string := if b then "true" else "false".

Fixpoint joinWith (sep : string) (l : list string) : string :=
  match l with
  | [] => EmptyString
  | [x] => x
  | x :: l' => x +:+ sep +:+ joinWith sep l'
  end.

Definition arr (items : list string) : string := "[" +:+ joinWith "," items +:+ "]".

(** An object, its properties in insertion order. *)
Definition obj (props : list (string * string)) : string :=
  "{" +:+ joinWith "," (map (fun kv => str (fst kv) +:+ ":" +:+ snd kv) props) +:+ "}".

End JSON.

(* ================================================================= *)
(** ** contentScript.js, class DeepScan *)

Module DeepScan.

(** *** The page

    The document is the list of its elements in document order, each
    with the properties the scanner reads from it.  Lengths are whole
    CSS pixels. *)
Record Element := {
  tagName : string;
  attributes : list (string * string);   (* in source order; holds [class] and [id] *)
  textContent : string;
  children : Z;                          (* [element.children.length] *)
  firstChildDepth : Z;                   (* length of the first-child chain below it *)
  styleShown : bool;                     (* display, visibility and opacity all let it show *)
  offsetWidth : Z;
  offsetHeight : Z;
  rectTop : Z;
  rectLeft : Z;
  rectWidth : Z;
  rectHeight : Z;
  rectBottom : Z;
  scrollHeight : Z;
  clientHeight : Z;
  scrollWidth : Z;
  clientWidth : Z
}.

Record Page := {
  href : string;                         (* [window.location.href] *)
  docTitle : string;                     (* [document.title] *)
  innerHeight : Z;                       (* [window.innerHeight] *)
  domDepth : Z;                          (* depth of the element tree *)
  elements : list Element
}.

Record Tab := { tabUrl : string; tabTitle : string }.

Definition getAttribute (name : string) (e : Element) : option string :=
  snd <$> List.find (fun kv => String.eqb (fst kv) name) (attributes e).

Definition hasAttribute (name : string) (e : Element) : bool :=
  match getAttribute name e with Some _ => true | None => false end.

Definition attr (name : string) (e : Element) : string :=
  default "" (getAttribute name e).

Definition className (e : Element) : string := attr "class" e.
Definition elementId (e : Element) : string := attr "id" e.

(** *** Selectors, as far as the scanner uses them *)
Inductive Selector :=
  | AttrContains (name value : string)          (* [name*="value"] *)
  | AttrEquals (name value : string)            (* [name="value"]  *)
  | ClassIs (c : string)                        (* .c              *)
  | TagIs (t : string)                          (* t               *)
  | TagAttrEquals (t name value : string)       (* t[name="value"] *)
  | Any.                                        (* *               *)

Definition selectorText (s : Selector) : string :=
  match s with
  | AttrContains n v => "[" +:+ n +:+ "*=" +:+ JSON.dquote +:+ v +:+ JSON.dquote +:+ "]"
  | AttrEquals n v => "[" +:+ n +:+ "=" +:+ JSON.dquote +:+ v +:+ JSON.dquote +:+ "]"
  | ClassIs c => "." +:+ c
  | TagIs t => t
  | TagAttrEquals t n v =>
      t +:+ "[" +:+ n +:+ "=" +:+ JSON.dquote +:+ v +:+ JSON.dquote +:+ "]"
  | Any => "*"
  end.

(** The class attribute as a set of tokens, split on HTML white space. *)
Definition isHtmlSpace (c : ascii) : bool :=
  let n := N_of_ascii c in
  ((n =? 9) || (n =? 10) || (n =? 12) || (n =? 13) || (n =? 32))%N.

Definition classList (e : Element) : list string :=
  List.filter (fun t => negb (String.eqb t ""))
              (JS.split_go isHtmlSpace (className e) EmptyString false).

Definition tagMatches (t : string) (e : Element) : bool :=
  String.eqb (JS.toLowerCase (tagName e)) t.

(** The value of an attribute against the value of [name="value"].  In
    an HTML document the values of some attributes are compared without
    regard to the case of ASCII letters; of the attributes the scanner
    selects on, [type] is one. *)
Definition asciiLower (c : ascii) : ascii :=
  let n := N_of_ascii c in
  if ((65 <=? n) && (n <=? 90))%N then ascii_of_N (n + 32) else c.

Fixpoint asciiLowerCase (s : string) : string :=
  match s with
  | String c s' => String (asciiLower c) (asciiLowerCase s')
  | EmptyString => EmptyString
  end.

Definition valueEquals (name value a : string) : bool :=
  if String.eqb name "type"
  then String.eqb (asciiLowerCase a) (asciiLowerCase value)
  else String.eqb a value.

Definition matches (s : Selector) (e : Element) : bool :=
  match s with
  | AttrContains n v =>
      match getAttribute n e with
      | Some a => negb (String.eqb v "") && JS.includes a v
      | None => false
      end
  | AttrEquals n v =>
      match getAttribute n e with Some a => valueEquals n v a | None => false end
  | ClassIs c =>
      existsb (String.eqb c) (classList e)
  | TagIs t => tagMatches t e
  | TagAttrEquals t n v =>
      tagMatches t e &&
      match getAttribute n e with Some a => valueEquals n v a | None => false end
  | Any => true
  end.

Definition querySelectorAll (p : Page) (s : Selector) : list Element :=
  List.filter (matches s) (elements p).

(** *** Configuration *)
Definition maxElements : nat := 1000.
Definition textLengthLimit : nat := 500.

Definition chatSelectors : list Selector :=
  [ AttrContains "class" "chat"; AttrContains "class" "message"; AttrContains "class" "msg";
    AttrContains "class" "conversation"; AttrContains "class" "discussion";
    ClassIs "message"; ClassIs "chat"; ClassIs "msg"; ClassIs "conversation";
    AttrEquals "role" "log"; AttrEquals "aria-live" "polite";
    AttrContains "data-testid" "message"; AttrContains "aria-label" "message" ].

Definition inputSelectors : list Selector :=
  [ AttrEquals "contenteditable" "true"; AttrEquals "role" "textbox";
    TagIs "textarea"; TagAttrEquals "input" "type" "text" ].

Definition mediaSelectors : list Selector := [ TagIs "img"; TagIs "video"; TagIs "audio" ].

Definition messageSelectors : list Selector :=
  [ AttrContains "class" "message"; AttrContains "class" "msg";
    ClassIs "message"; ClassIs "msg"; AttrEquals "role" "listitem";
    AttrContains "data-testid" "message"; AttrContains "aria-label" "message" ].

Definition containerSelectors : list Selector :=
  [ AttrContains "class" "chat"; AttrContains "class" "message";
    AttrContains "class" "conversation"; AttrEquals "role" "log" ].

Definition significantAttrs : list string :=
  [ "id"; "class"; "data-id"; "data-user"; "data-time"; "role"; "aria-label" ].

(** *** Helper methods *)
Definition isElementVisible (p : Page) (el : Element) : bool :=
  styleShown el && (0 <? offsetWidth el) && (0 <? offsetHeight el) &&
  (rectTop el <? innerHeight p) && (0 <? rectBottom el).

Record Position := {
  posTop : Z; posLeft : Z; posWidth : Z; posHeight : Z; inViewport : bool
}.

Definition getElementPosition (p : Page) (el : Element) : Position :=
  {| posTop := rectTop el; posLeft := rectLeft el;
     posWidth := rectWidth el; posHeight := rectHeight el;
     inViewport := (rectTop el <? innerHeight p) && (0 <? rectBottom el) |}.

Definition getSignificantAttributes (el : Element) : list (string * string) :=
  omap (fun a => (fun v => (a, v)) <$> getAttribute a el) significantAttrs.

Record ElementInfo := {
  infoSelector : string;
  infoTagName : string;
  infoClassName : string;
  infoId : string;
  infoText : string;
  infoChildren : Z;
  infoAttributes : list (string * string);
  infoPosition : Position;
  infoVisible : bool
}.

Definition createElementInfo (p : Page) (el : Element) (s : Selector) : ElementInfo :=
  {| infoSelector := selectorText s;
     infoTagName := tagName el;
     infoClassName := className el;
     infoId := elementId el;
     infoText := substring 0 200 (textContent el);
     infoChildren := children el;
     infoAttributes := getSignificantAttributes el;
     infoPosition := getElementPosition p el;
     infoVisible := isElementVisible p el |}.

(** [selectors.forEach(selector => querySelectorAll(selector).forEach(...))]:
    every visible match of every selector, selector by selector. *)
Definition collectVisible (p : Page) (selectors : list Selector) : list ElementInfo :=
  flat_map (fun s =>
    map (fun el => createElementInfo p el s)
        (List.filter (isElementVisible p) (querySelectorAll p s))) selectors.

Record Container := {
  contSelector : string; childCount : Z; hasScroll : bool; depth : Z
}.

Definition findChatContainers (p : Page) : list Container :=
  flat_map (fun s =>
    map (fun el => {| contSelector := selectorText s; childCount := children el;
                      hasScroll := clientHeight el <? scrollHeight el;
                      depth := firstChildDepth el |})
        (List.filter (fun el => isElementVisible p el && (0 <? children el))
                     (querySelectorAll p s))) containerSelectors.

Definition findScrollableContainers (p : Page) : list Element :=
  JS.slice 0 10
    (List.filter (fun el => (clientHeight el <? scrollHeight el) &&
                            ((clientWidth el <? scrollWidth el) ||
                             (clientHeight el <? scrollHeight el)))
                 (querySelectorAll p Any)).

Record Structure := {
  structDepth : Z; chatContainers : Z; hasMultipleChats : bool;
  scrollableContainers : Z
}.

Definition analyzeDOMStructure (p : Page) : Structure :=
  {| structDepth := domDepth p;
     chatContainers := Z.of_nat (length (findChatContainers p));
     hasMultipleChats := (1 <? Z.of_nat (length (findChatContainers p)));
     scrollableContainers := Z.of_nat (length (findScrollableContainers p)) |}.

(** *** captureDOMSnapshot *)
Record Snapshot := {
  snapTimestamp : Z;
  snapUrl : string;
  snapTitle : string;
  totalElements : Z;
  chatElements : list ElementInfo;
  inputElements : list ElementInfo;
  mediaElements : list ElementInfo;
  structure : Structure
}.

(** [now] is the [Date.now()] read for [snapshot.timestamp]. *)
Definition captureDOMSnapshot (p : Page) (now : Z) : Snapshot :=
  let chat := collectVisible p chatSelectors in
  let input := collectVisible p inputSelectors in
  let media := collectVisible p mediaSelectors in
  {| snapTimestamp := now;
     snapUrl := href p;
     snapTitle := docTitle p;
     totalElements := Z.of_nat (length chat) + Z.of_nat (length input) + Z.of_nat (length media);
     chatElements := chat;
     inputElements := input;
     mediaElements := media;
     structure := analyzeDOMStructure p |}.

(** *** extractMessages

    Of a message only the properties computed from the text are kept
    here; [timestamp], [hasMedia], [user] and [context] are further
    reads of the element and add no message and drop none. *)
Record Message := { msgText : string; originalLength : Z; msgElement : string }.

Definition isMessage (p : Page) (el : Element) : bool :=
  isElementVisible p el &&
  negb (String.eqb (JS.trim (textContent el)) "") &&
  (2 <? Z.of_nat (String.length (JS.trim (textContent el)))).

Definition extractMessages (p : Page) : list Message :=
  JS.slice 0 maxElements
    (flat_map (fun s =>
       map (fun el => let text := JS.trim (textContent el) in
                      {| msgText := substring 0 textLengthLimit text;
                         originalLength := Z.of_nat (String.length text);
                         msgElement := selectorText s |})
           (List.filter (isMessage p) (querySelectorAll p s))) messageSelectors).

(** The elements a reader of the page would count: those that pass
    the tests of [extractMessages] and that some message selector
    matches.  [selectorsMatching] lists the message selectors matching
    an element, and [singleSelector] tells that no counted element is
    matched by two of them. *)
Definition selectorsMatching (el : Element) : list Selector :=
  List.filter (fun s => matches s el) messageSelectors.

Definition extractable (p : Page) : list Element :=
  List.filter (fun el => isMessage p el && existsb (fun s => matches s el) messageSelectors)
              (elements p).

Definition singleSelector (p : Page) : bool :=
  forallb (fun el => negb (isMessage p el) || (length (selectorsMatching el) <=? 1)%nat)
          (elements p).

(** *** generateChecksum *)
Definition stringifyPosition (q : Position) : string :=
  JSON.obj [ ("top", JSON.num (posTop q)); ("left", JSON.num (posLeft q));
             ("width", JSON.num (posWidth q)); ("height", JSON.num (posHeight q));
             ("inViewport", JSON.boolean (inViewport q)) ].

Definition stringifyInfo (i : ElementInfo) : string :=
  JSON.obj [ ("selector", JSON.str (infoSelector i));
             ("tagName", JSON.str (infoTagName i));
             ("className", JSON.str (infoClassName i));
             ("id", JSON.str (infoId i));
             ("text", JSON.str (infoText i));
             ("children", JSON.num (infoChildren i));
             ("attributes",
              JSON.obj (map (fun kv => (fst kv, JSON.str (snd kv))) (infoAttributes i)));
             ("position", stringifyPosition (infoPosition i));
             ("visible", JSON.boolean (infoVisible i)) ].

Definition stringifyStructure (s : Structure) : string :=
  JSON.obj [ ("depth", JSON.num (structDepth s));
             ("chatContainers", JSON.num (chatContainers s));
             ("hasMultipleChats", JSON.boolean (hasMultipleChats s));
             ("scrollableContainers", JSON.num (scrollableContainers s)) ].

(** [JSON.stringify(domSnapshot)]. *)
Definition stringify (s : Snapshot) : string :=
  JSON.obj [ ("timestamp", JSON.num (snapTimestamp s));
             ("url", JSON.str (snapUrl s));
             ("title", JSON.str (snapTitle s));
             ("totalElements", JSON.num (totalElements s));
             ("chatElements", JSON.arr (map stringifyInfo (chatElements s)));
             ("inputElements", JSON.arr (map stringifyInfo (inputElements s)));
             ("mediaElements", JSON.arr (map stringifyInfo (mediaElements s)));
             ("structure", stringifyStructure (structure s)) ].

(** The loop is the one of [generateMessageId]; the text of a snapshot
    is never empty, so the early return of the source is not taken. *)
Definition generateChecksum (data : Snapshot) : string :=
  let str := stringify data in
  if (String.length str =? 0)%nat then JS.toString 36 0
  else JS.toString 36 (Z.abs (ContentScript.hashString str)).

(** *** performDeepScan *)
Record ScanResult := {
  timestamp : Z;
  url : string;
  title : string;
  domSnapshot : Snapshot;
  messages : list Message;
  messageCount : Z;
  checksum : string;
  scanDuration : Z;
  elementsProcessed : Z
}.

Definition orElse (a b : string) : string := if String.eqb a "" then b else a.

(** [scanStartTime], [snapshotTime] and [endTime] are the successive
    readings of [Date.now()]; [tab] may be absent. *)
Definition performDeepScan (p : Page) (tab : option Tab)
    (scanStartTime snapshotTime endTime : Z) : ScanResult :=
  let domSnapshot := captureDOMSnapshot p snapshotTime in
  let content := extractMessages p in
  {| timestamp := scanStartTime;
     url := orElse (from_option tabUrl "" tab) (href p);
     title := orElse (from_option tabTitle "" tab) (docTitle p);
     domSnapshot := domSnapshot;
     messages := content;
     messageCount := Z.of_nat (length content);
     checksum := generateChecksum domSnapshot;
     scanDuration := endTime - scanStartTime;
     elementsProcessed := totalElements domSnapshot |}.

End DeepScan.

(* ================================================================= *)
(** ** Results of calls *)

(** A synchronous call returns or throws. *)
Inductive Result (A : Type) :=
  | Ok (a : A)
  | Throw (message : string).
Arguments Ok {A} a.
Arguments Throw {A} message.

(* ================================================================= *)
(** ** contentScript.js: the live-scan switch of the page *)

Module LiveSwitch.

Record State := { liveScanActive : bool; messageCache : gset string }.

Record Reply := { success : bool; message : string }.

(** [startLiveScan()]; the initial scan it sends to the background
    does not touch the switch. *)
Definition startLiveScan (st : State) : Reply * State :=
  if liveScanActive st
  then ({| success := true; message := "Live scan already active" |}, st)
  else ({| success := true; message := "Live scan started" |},
        {| liveScanActive := true; messageCache := ∅ |}).

(** [stopLiveScan()]. *)
Definition stopLiveScan (st : State) : Reply * State :=
  ({| success := true; message := "Live scan stopped" |},
   {| liveScanActive := false; messageCache := messageCache st |}).

End LiveSwitch.

(* ================================================================= *)
(** ** popup.js, class LiveScanManager *)

Module LiveScanManager.

Inductive Status := active | stopped | expired.

Record Tab := { id : Z; url : string }.

Record Fragment := { fragmentId : string; content : string }.

Record Session := {
  sessionId : string;
  startTime : Z;
  tab : Tab;
  messageCount : Z;
  lastActivity : Z;
  status : Status;
  endTime : option Z
}.

Record Chunk := {
  chunkSession : string;
  chunkTimestamp : Z;
  chunkMessages : list Fragment;
  chunkTabId : Z;
  chunkUrl : string;
  chunkPlatform : string;
  chunkSize : Z
}.

(** The manager.  [chunks] lists the arguments of the calls of
    [storeChunk], oldest first, and [savedSessions] is the value under
    the storage key [liveScanSessions]; [flushCalls] counts the calls
    of [flushBuffer] and is not a field of the source. *)
Record Manager := {
  isInitialized : bool;
  maxBufferSize : Z;
  sessions : gmap Z Session;
  messageBuffer : gmap Z (list Fragment);
  chunks : list Chunk;
  savedSessions : gmap Z Session;
  flushCalls : nat
}.

(** What a call reads from outside the manager: the clock and whether
    the storage behind [this.storage] answers. *)
Record Env := { now : Z; storageOk : bool }.

(** The answer of [chrome.tabs.sendMessage]: a response with its
    [success] property, or [chrome.runtime.lastError]. *)
Inductive TabReply :=
  | Delivered (success : bool)
  | LastError (message : string).

Record StartResult := { startSuccess : bool; startedSession : string }.
Record StopResult := { stopSuccess : bool }.

Definition constructed : Manager :=
  {| isInitialized := false; maxBufferSize := 50; sessions := ∅; messageBuffer := ∅;
     chunks := []; savedSessions := ∅; flushCalls := 0 |}.

Definition detectPlatform (url : string) : string :=
  if String.eqb url "" then "unknown" else
  let u := JS.toLowerCase url in
  if JS.includes u "web.telegram.org" then "Telegram"
  else if JS.includes u "web.whatsapp.com" then "WhatsApp"
  else if JS.includes u "messenger.com" then "Messenger"
  else if JS.includes u "discord.com" then "Discord"
  else if JS.includes u "chat.openai.com" then "ChatGPT"
  else if JS.includes u "chat.deepseek.com" then "DeepSeek"
  else if JS.includes u "slack.com" then "Slack"
  else "Web".

Definition withSessions (f : gmap Z Session -> gmap Z Session) (m : Manager) : Manager :=
  {| isInitialized := isInitialized m; maxBufferSize := maxBufferSize m;
     sessions := f (sessions m); messageBuffer := messageBuffer m;
     chunks := chunks m; savedSessions := savedSessions m; flushCalls := flushCalls m |}.

Definition withBuffer (f : gmap Z (list Fragment) -> gmap Z (list Fragment)) (m : Manager)
    : Manager :=
  {| isInitialized := isInitialized m; maxBufferSize := maxBufferSize m;
     sessions := sessions m; messageBuffer := f (messageBuffer m);
     chunks := chunks m; savedSessions := savedSessions m; flushCalls := flushCalls m |}.

(** [storeChunk(chunk)]. *)
Definition storeChunk (c : Chunk) (m : Manager) : Manager :=
  {| isInitialized := isInitialized m; maxBufferSize := maxBufferSize m;
     sessions := sessions m; messageBuffer := messageBuffer m;
     chunks := chunks m ++ [c]; savedSessions := savedSessions m;
     flushCalls := flushCalls m |}.

Definition countFlush (m : Manager) : Manager :=
  {| isInitialized := isInitialized m; maxBufferSize := maxBufferSize m;
     sessions := sessions m; messageBuffer := messageBuffer m;
     chunks := chunks m; savedSessions := savedSessions m;
     flushCalls := S (flushCalls m) |}.

(** [saveSessionState(session)]: the six properties it copies go under
    the tab's key; a failing storage is caught and logged. *)
Definition saveSessionState (env : Env) (s : Session) (m : Manager) : Manager :=
  if storageOk env
  then {| isInitialized := isInitialized m; maxBufferSize := maxBufferSize m;
          sessions := sessions m; messageBuffer := messageBuffer m;
          chunks := chunks m;
          savedSessions :=
            <[id (tab s) :=
                {| sessionId := sessionId s; startTime := startTime s; tab := tab s;
                   messageCount := messageCount s; lastActivity := lastActivity s;
                   status := status s; endTime := None |}]> (savedSessions m);
          flushCalls := flushCalls m |}
  else m.

(** [flushBuffer(tabId)]. *)
Definition flushBuffer (env : Env) (tabId : Z) (m : Manager) : Manager :=
  let m := countFlush m in
  match messageBuffer m !! tabId with
  | None | Some [] => m
  | Some buffer =>
      match sessions m !! tabId with
      | None => m
      | Some session =>
          let chunk :=
            {| chunkSession := sessionId session;
               chunkTimestamp := now env;
               chunkMessages := buffer;
               chunkTabId := tabId;
               chunkUrl := url (tab session);
               chunkPlatform := detectPlatform (url (tab session));
               chunkSize := Z.of_nat (length buffer) |} in
          withBuffer (insert tabId []) (storeChunk chunk m)
      end
  end.

(** [bufferMessages(tabId, data)], [messages] being [data.messages || []]. *)
Definition bufferMessages (env : Env) (tabId : Z) (messages : list Fragment) (m : Manager)
    : Manager :=
  let buffer := default [] (messageBuffer m !! tabId) ++ messages in
  let m := withBuffer (insert tabId buffer) m in
  if maxBufferSize m <=? Z.of_nat (length buffer) then flushBuffer env tabId m else m.

(** [cleanupSession(tabId)]. *)
Definition cleanupSession (env : Env) (tabId : Z) (m : Manager) : Manager :=
  match sessions m !! tabId with
  | Some session =>
      let m := flushBuffer env tabId m in
      let session' :=
        {| sessionId := sessionId session; startTime := startTime session;
           tab := tab session; messageCount := messageCount session;
           lastActivity := lastActivity session; status := stopped;
           endTime := Some (now env) |} in
      let m := saveSessionState env session' m in
      withBuffer (delete tabId) (withSessions (delete tabId) m)
  | None => m
  end.

(** [startMonitoring(tab)]; [sid] is the identifier [createSession]
    draws and [reply] the answer to the [START_LIVE_SCAN] message. *)
Definition startMonitoring (env : Env) (t : Tab) (sid : string) (reply : TabReply)
    (m : Manager) : Result StartResult * Manager :=
  if negb (isInitialized m) then (Throw "LiveScanManager not initialized", m)
  else
    match reply with
    | Delivered true =>
        let session :=
          {| sessionId := sid; startTime := now env; tab := t; messageCount := 0;
             lastActivity := now env; status := active; endTime := None |} in
        (Ok {| startSuccess := true; startedSession := sid |},
         withBuffer (insert (id t) []) (withSessions (insert (id t) session) m))
    | Delivered false => (Throw "Failed to start monitoring", cleanupSession env (id t) m)
    | LastError e => (Throw e, cleanupSession env (id t) m)
    end.

(** [stopMonitoring(tab)]; [reply] answers the [STOP_LIVE_SCAN] message. *)
Definition stopMonitoring (env : Env) (t : Tab) (reply : TabReply) (m : Manager)
    : Result StopResult * Manager :=
  if negb (isInitialized m) then (Throw "LiveScanManager not initialized", m)
  else
    match reply with
    | Delivered _ => (Ok {| stopSuccess := true |}, cleanupSession env (id t) m)
    | LastError e => (Throw e, m)
    end.

(** [handleLiveScanData(data, tabId)].  [processLiveData] writes the
    batch under another storage key and is left out. *)
Definition handleLiveScanData (env : Env) (messages : list Fragment) (tabId : Z)
    (m : Manager) : Manager :=
  if negb (isInitialized m) then m
  else
    match sessions m !! tabId with
    | Some session =>
        match status session with
        | active =>
            let session' :=
              {| sessionId := sessionId session; startTime := startTime session;
                 tab := tab session;
                 messageCount := messageCount session + Z.of_nat (length messages);
                 lastActivity := now env; status := status session;
                 endTime := endTime session |} in
            let m := withSessions (insert tabId session') m in
            let m := bufferMessages env tabId messages m in
            if messageCount session' mod 10 =? 0 then saveSessionState env session' m else m
        | _ => m
        end
    | None => m
    end.

(** [cleanupInactiveSessions(maxInactiveTime)]: the tabs it cleans up
    and the manager afterwards.  The source visits the sessions in
    insertion order; the order here is the one of [map_to_list]. *)
Definition inactiveTabs (env : Env) (maxInactiveTime : Z) (m : Manager) : list Z :=
  fst <$> List.filter (fun ts =>
            match status (snd ts) with
            | active => maxInactiveTime <? now env - lastActivity (snd ts)
            | _ => false
            end) (map_to_list (sessions m)).

Definition cleanupInactiveSessions (env : Env) (maxInactiveTime : Z) (m : Manager)
    : Z * Manager :=
  let tabs := inactiveTabs env maxInactiveTime m in
  (Z.of_nat (length tabs), foldr (cleanupSession env) m tabs).

(** [restoreSessions()]: one stored session.  A session stored as
    active is taken back when its last activity is less than an hour
    old and is otherwise marked expired in the stored table. *)
Definition restoreOne (env : Env) (tabId : Z) (s : Session) (m : Manager) : Manager :=
  match status s with
  | active =>
      if now env - lastActivity s <? 60 * 60 * 1000
      then withBuffer (insert tabId []) (withSessions (insert tabId s) m)
      else
        {| isInitialized := isInitialized m; maxBufferSize := maxBufferSize m;
           sessions := sessions m; messageBuffer := messageBuffer m; chunks := chunks m;
           savedSessions :=
             <[tabId := {| sessionId := sessionId s; startTime := startTime s;
                           tab := tab s; messageCount := messageCount s;
                           lastActivity := lastActivity s; status := expired;
                           endTime := endTime s |}]> (savedSessions m);
           flushCalls := flushCalls m |}
  | _ => m
  end.

Definition restoreSessions (env : Env) (m : Manager) : Manager :=
  if storageOk env
  then map_fold (restoreOne env) m (savedSessions m)
  else m.

(** [updateConfig(newConfig)], for the one setting modelled. *)
Definition updateConfig (newMax : option Z) (m : Manager) : Manager :=
  {| isInitialized := isInitialized m;
     maxBufferSize := default (maxBufferSize m) newMax;
     sessions := sessions m; messageBuffer := messageBuffer m; chunks := chunks m;
     savedSessions := savedSessions m; flushCalls := flushCalls m |}.

(** [init()]; [savedMax] is [maxBufferSize] of the stored
    configuration, when there is one. *)
Definition init (env : Env) (savedMax : option Z) (m : Manager) : Manager :=
  if isInitialized m then m
  else
    let m := restoreSessions env (updateConfig savedMax m) in
    {| isInitialized := true; maxBufferSize := maxBufferSize m;
       sessions := sessions m; messageBuffer := messageBuffer m; chunks := chunks m;
       savedSessions := savedSessions m; flushCalls := flushCalls m |}.

(** [handleLiveScanMessage(message, tabId)]: the message goes to
    another storage key; the session counts it. *)
Definition handleLiveScanMessage (env : Env) (tabId : Z) (m : Manager) : Manager :=
  if negb (isInitialized m) then m
  else
    match sessions m !! tabId with
    | Some session =>
        withSessions (insert tabId
          {| sessionId := sessionId session; startTime := startTime session;
             tab := tab session; messageCount := messageCount session + 1;
             lastActivity := now env; status := status session;
             endTime := endTime session |}) m
    | None => m
    end.

(** Fragments arriving one at a time: each pair is a clock reading and
    the single fragment of the batch. *)
Definition feed (tabId : Z) (batches : list (Env * Fragment)) (m : Manager) : Manager :=
  fold_left (fun m b => handleLiveScanData (fst b) [snd b] tabId m) batches m.

(** The manager is initialised with the default buffer limit and holds
    for tab [t] an active session [sid] whose buffer is [buf]. *)
Definition tracking (m : Manager) (t : Z) (sid : string) (buf : list Fragment) : Prop :=
  isInitialized m = true /\ maxBufferSize m = 50 /\
  (exists s, sessions m !! t = Some s /\ status s = active /\ sessionId s = sid) /\
  messageBuffer m !! t = Some buf.

(** Every session the manager holds is active and is held under the
    identifier of its own tab, and so is every stored session. *)
Definition consistent (m : Manager) : Prop :=
  (forall t s, sessions m !! t = Some s -> status s = active /\ id (tab s) = t) /\
  (forall t s, savedSessions m !! t = Some s -> id (tab s) = t).

(** From [m] to [m'] a stored session is marked stopped only for a tab
    whose session [m] holds, and marked expired only where the stored
    session was active. *)
Definition fromActive (m m' : Manager) : Prop :=
  forall t s', savedSessions m' !! t = Some s' -> status s' <> active ->
    savedSessions m !! t = Some s' \/
    (status s' = stopped /\ exists s, sessions m !! t = Some s /\ status s = active) \/
    (status s' = expired /\ exists s, savedSessions m !! t = Some s /\ status s = active).

(** Marked stopped only where a session was held. *)
Definition stoppedFromHeld (m m' : Manager) : Prop :=
  forall k s', savedSessions m' !! k = Some s' ->
    savedSessions m !! k = Some s' \/
    (status s' = stopped /\ exists s, sessions m !! k = Some s /\ status s = active).

(** What [restoreSessions] leaves after the stored sessions in [seen]. *)
Definition restored (m0 : Manager) (r : Manager) (seen : gmap Z Session) : Prop :=
  (forall t s, sessions r !! t = Some s ->
     sessions m0 !! t = Some s \/ (seen !! t = Some s /\ status s = active)) /\
  (forall t s', savedSessions r !! t = Some s' ->
     savedSessions m0 !! t = Some s' \/
     (status s' = expired /\ exists s, seen !! t = Some s /\ status s = active /\ tab s' = tab s)).

(** A restart of the extension's worker: a new manager over the same
    storage. *)
Definition restart (m : Manager) : Manager :=
  {| isInitialized := false; maxBufferSize := 50; sessions := ∅; messageBuffer := ∅;
     chunks := chunks m; savedSessions := savedSessions m; flushCalls := flushCalls m |}.

(** The calls a manager receives. *)
Inductive Call :=
  | CallInit (savedMax : option Z)
  | CallUpdateConfig (newMax : option Z)
  | CallStart (t : Tab) (sid : string) (reply : TabReply)
  | CallStop (t : Tab) (reply : TabReply)
  | CallData (messages : list Fragment) (tabId : Z)
  | CallMessage (tabId : Z)
  | CallSweep (maxInactiveTime : Z)
  | CallRestart.

Definition perform (env : Env) (c : Call) (m : Manager) : Manager :=
  match c with
  | CallInit savedMax => init env savedMax m
  | CallUpdateConfig newMax => updateConfig newMax m
  | CallStart t sid reply => snd (startMonitoring env t sid reply m)
  | CallStop t reply => snd (stopMonitoring env t reply m)
  | CallData messages tabId => handleLiveScanData env messages tabId m
  | CallMessage tabId => handleLiveScanMessage env tabId m
  | CallSweep maxInactiveTime => snd (cleanupInactiveSessions env maxInactiveTime m)
  | CallRestart => restart m
  end.

(** The managers a run reaches from a first installation. *)
Inductive reachable : Manager -> Prop :=
  | reach_new : reachable constructed
  | reach_call env c m : reachable m -> reachable (perform env c m).

(** [isMonitoring(tabId)] and [getMessageCount(tabId)]. *)
Definition isMonitoring (tabId : Z) (m : Manager) : bool :=
  match sessions m !! tabId with
  | Some session => match status session with active => true | _ => false end
  | None => false
  end.

Definition getMessageCount (tabId : Z) (m : Manager) : Z :=
  from_option messageCount 0 (sessions m !! tabId).

(** [getActiveSessionCount()]. *)
Definition getActiveSessionCount (m : Manager) : nat :=
  length (List.filter (fun ts => match status (snd ts) with active => true | _ => false end)
                      (map_to_list (sessions m))).

(** The fragments of a tab that went out in chunks, oldest first, and
    the fragments still in its buffer. *)
Definition flushed (tabId : Z) (m : Manager) : list Fragment :=
  flat_map chunkMessages (List.filter (fun c => chunkTabId c =? tabId) (chunks m)).

Definition buffered (tabId : Z) (m : Manager) : list Fragment :=
  default [] (messageBuffer m !! tabId).

(** A chunk as [flushBuffer] builds it. *)
Definition wellFormed (c : Chunk) : Prop :=
  chunkMessages c <> [] /\ chunkSize c = Z.of_nat (length (chunkMessages c)) /\
  chunkPlatform c = detectPlatform (chunkUrl c).

(** A session the inactivity sweep removes. *)
Definition stale (env : Env) (maxInactiveTime : Z) (s : Session) : bool :=
  match status s with
  | active => maxInactiveTime <? now env - lastActivity s
  | _ => false
  end.

(** A stored session [restoreSessions] takes back. *)
Definition restorable (env : Env) (s : Session) : bool :=
  match status s with
  | active => now env - lastActivity s <? 60 * 60 * 1000
  | _ => false
  end.

End LiveScanManager.

(* ================================================================= *)
(** ** Promises *)

(** An asynchronous call resolves, rejects, or never settles. *)
Inductive Error :=
  | PlainError (message : string)
  | DBError (message operation : string).

Inductive Outcome (A : Type) :=
  | Resolved (a : A)
  | Rejected (e : Error)
  | Pending.
Arguments Resolved {A} a.
Arguments Rejected {A} e.
Arguments Pending {A}.

(** Asynchronous code over a state [S]: [await] is [bind]; a rejection
    skips to the enclosing [catch]; awaiting a promise that never
    settles never continues. *)
Definition Async (S A : Type) : Type := S -> Outcome A * S.

Definition ret {S A} (a : A) : Async S A := fun s => (Resolved a, s).
Definition throw {S A} (e : Error) : Async S A := fun s => (Rejected e, s).
Definition never {S A} : Async S A := fun s => (Pending, s).

Definition bind {S A B} (c : Async S A) (k : A -> Async S B) : Async S B :=
  fun s =>
    match c s with
    | (Resolved a, s') => k a s'
    | (Rejected e, s') => (Rejected e, s')
    | (Pending, s') => (Pending, s')
    end.

Definition tryCatch {S A} (c : Async S A) (handler : Error -> Async S A) : Async S A :=
  fun s =>
    match c s with
    | (Rejected e, s') => handler e s'
    | r => r
    end.

Definition read {S A} (f : S -> A) : Async S A := fun s => (Resolved (f s), s).
Definition update {S} (f : S -> S) : Async S unit := fun s => (Resolved tt, f s).

Notation "x <- c1 ;; c2" := (bind c1 (fun x => c2))
  (at level 100, c1 at next level, right associativity).
Notation "c1 ;;; c2" := (bind c1 (fun _ => c2))
  (at level 100, right associativity).

(* ================================================================= *)
(** ** ExportScopeManager.js: IndexedDBManager and ChromeStorageFallback *)

Module IndexedDBManager.

Definition DUPLICATE_TTL_MS : Z := 30 * 60 * 1000.
Definition MAX_DB_SIZE : Z := 50 * 1024 * 1024.
Definition CLEANUP_THRESHOLD : Z := 1000.

(** A scan object, with the properties the manager reads or writes.
    [createdAt] is the instant whose ISO text the source stores. *)
Record Scan := {
  id : string;
  url : string;
  title : string;
  timestamp : Z;
  snippet : string;
  platform : string;
  password : string;
  token : string;
  apiKey : string;
  cookie : string;
  createdAt : Z;
  version : string
}.

Definition withId (k : string) (r : Scan) : Scan :=
  {| id := k; url := url r; title := title r; timestamp := timestamp r;
     snippet := snippet r; platform := platform r; password := password r;
     token := token r; apiKey := apiKey r; cookie := cookie r;
     createdAt := createdAt r; version := version r |}.

(** What [indexedDB.open] does within ten seconds: it succeeds, it
    reports an error, or it is still pending. *)
Inductive OpenEvent := OpenSuccess | OpenError | OpenTimeout.

(** The manager together with the two stores behind it: [store] is the
    object store [scans] of the database, keyed by [id], and
    [chromeScans] the array under the fallback's storage key.  [db]
    tells whether [this.db] holds an open database.
    [initializationPromise] is unset, or holds the promise with its
    fate; while [_initialize] runs that fate is [Pending]. *)
Record Manager := {
  db : bool;
  store : gmap string Scan;
  initialized : bool;
  initializationPromise : option (Outcome unit);
  useFallback : bool;
  fallbackInitialized : bool;
  chromeScans : list Scan
}.

(** What a call meets outside the manager: the clock, the identifier
    [generateScanId] draws, the fate of [indexedDB.open], and which
    requests fail ([request.onerror], [tx.onerror],
    [chrome.runtime.lastError]). *)
Record Env := {
  now : Z;
  newId : string;
  openEvent : OpenEvent;
  countFails : bool;
  getAllFails : bool;
  urlQueryFails : bool;
  addFails : bool;
  cleanupFails : bool;
  clearFails : bool;
  chromeGetFails : bool;
  chromeSetFails : bool;
  chromeRemoveFails : bool
}.

Definition constructed (existing : gmap string Scan) (fallback : list Scan) : Manager :=
  {| db := false; store := existing; initialized := false; initializationPromise := None;
     useFallback := false; fallbackInitialized := false; chromeScans := fallback |}.

Definition setDb (b : bool) (m : Manager) : Manager :=
  {| db := b; store := store m; initialized := initialized m;
     initializationPromise := initializationPromise m; useFallback := useFallback m;
     fallbackInitialized := fallbackInitialized m; chromeScans := chromeScans m |}.

Definition setStore (s : gmap string Scan) (m : Manager) : Manager :=
  {| db := db m; store := s; initialized := initialized m;
     initializationPromise := initializationPromise m; useFallback := useFallback m;
     fallbackInitialized := fallbackInitialized m; chromeScans := chromeScans m |}.

Definition setInitialized (i f : bool) (m : Manager) : Manager :=
  {| db := db m; store := store m; initialized := i;
     initializationPromise := initializationPromise m; useFallback := f;
     fallbackInitialized := fallbackInitialized m; chromeScans := chromeScans m |}.

Definition setUseFallback (f : bool) (m : Manager) : Manager :=
  {| db := db m; store := store m; initialized := initialized m;
     initializationPromise := initializationPromise m; useFallback := f;
     fallbackInitialized := fallbackInitialized m; chromeScans := chromeScans m |}.

Definition setPromise (p : option (Outcome unit)) (m : Manager) : Manager :=
  {| db := db m; store := store m; initialized := initialized m;
     initializationPromise := p; useFallback := useFallback m;
     fallbackInitialized := fallbackInitialized m; chromeScans := chromeScans m |}.

Definition setFallbackInitialized (m : Manager) : Manager :=
  {| db := db m; store := store m; initialized := initialized m;
     initializationPromise := initializationPromise m; useFallback := useFallback m;
     fallbackInitialized := true; chromeScans := chromeScans m |}.

Definition setChromeScans (l : list Scan) (m : Manager) : Manager :=
  {| db := db m; store := store m; initialized := initialized m;
     initializationPromise := initializationPromise m; useFallback := useFallback m;
     fallbackInitialized := fallbackInitialized m; chromeScans := l |}.

(** *** The object store and its indexes *)

(** The stored objects; the key path is [id], so an object's [id] is
    its key. *)
Definition records (s : gmap string Scan) : list Scan :=
  map (fun kv => withId (fst kv) (snd kv)) (map_to_list s).

(** An index lists its entries by index key, then by primary key. *)
Definition timestampOrder (a b : Scan) : bool :=
  (timestamp a <? timestamp b) ||
  ((timestamp a =? timestamp b) && String.leb (id a) (id b)).

Definition byTimestamp (s : gmap string Scan) : list Scan :=
  JS.sort timestampOrder (records s).

Definition byUrl (s : gmap string Scan) (u : string) : list Scan :=
  JS.sort (fun a b => String.leb (id a) (id b))
          (List.filter (fun r => String.eqb (url r) u) (records s)).

(** [scans.sort((a, b) => b.timestamp - a.timestamp)]. *)
Definition newestFirst (l : list Scan) : list Scan :=
  JS.sort (fun a b => timestamp b <=? timestamp a) l.

Section WithSerialisation.

(** [JSON.stringify(scan).length]; a scan has properties beyond the
    ones of [Scan], so its length is not a function of the record's
    fields alone. *)
Variable JSON_length : Scan -> Z.

(** [JSON.stringify(scans).length] for an array: the brackets, the
    elements and the commas between them. *)
Definition JSON_array_length (l : list Scan) : Z :=
  2 + fold_right (fun r acc => JSON_length r + acc) 0 l + Z.max 0 (Z.of_nat (length l) - 1).

(** *** ScanValidator *)
Definition validateScanData (scanData : Scan) : Result unit :=
  if String.eqb (url scanData) "" && String.eqb (title scanData) ""
  then Throw "Scan data must contain url or title"
  else if 5 * 1024 * 1024 <? JSON_length scanData
  then Throw ("Scan data too large: " +:+ JS.toString 10 (JSON_length scanData) +:+ " bytes")
  else Ok tt.

Definition sanitizeScanData (env : Env) (scanData : Scan) : Scan :=
  {| id := if String.eqb (id scanData) "" then newId env else id scanData;
     url := url scanData;
     title := title scanData;
     timestamp := if timestamp scanData =? 0 then now env else timestamp scanData;
     snippet := snippet scanData;
     platform := platform scanData;
     password := ""; token := ""; apiKey := ""; cookie := "";
     createdAt := now env;
     version := "1.0" |}.

(** *** ChromeStorageFallback *)
Definition fallbackInit : Async Manager unit := update setFallbackInitialized.

Definition fallbackStoreScan (env : Env) (scanData : Scan) : Async Manager string :=
  if chromeGetFails env then throw (DBError "Chrome storage read failed" "storeScan")
  else
    scans <- read chromeScans ;;
    let sanitizedData := sanitizeScanData env scanData in
    let recentScans := JS.slice 0 500 (newestFirst (scans ++ [sanitizedData])) in
    if chromeSetFails env then throw (DBError "Chrome storage write failed" "storeScan")
    else update (setChromeScans recentScans) ;;; ret (id sanitizedData).

(** [field && field.toLowerCase().includes(q)]. *)
Definition fieldIncludes (field q : string) : bool :=
  negb (String.eqb field "") && JS.includes (JS.toLowerCase field) q.

(** The filter of [getScans]; only the primary store also looks at
    [platform]. *)
Definition matchesQuery (primary : bool) (q : string) (scan : Scan) : bool :=
  fieldIncludes (title scan) q || fieldIncludes (url scan) q ||
  fieldIncludes (snippet scan) q || primary && fieldIncludes (platform scan) q.

Definition applyQuery (primary : bool) (query : string) (scans : list Scan) : list Scan :=
  if String.eqb query "" then scans
  else List.filter (matchesQuery primary (JS.toLowerCase query)) scans.

Definition fallbackGetScans (env : Env) (query : string) : Async Manager (list Scan) :=
  if chromeGetFails env then throw (DBError "Chrome storage read failed" "getScans")
  else
    scans <- read chromeScans ;;
    ret (newestFirst (applyQuery false query scans)).

Definition fallbackClearScans (env : Env) : Async Manager bool :=
  if chromeRemoveFails env then throw (DBError "Chrome storage clear failed" "clearScans")
  else update (setChromeScans []) ;;; ret true.

(** *** Requests against the database

    [this.db.transaction(...)] throws when [this.db] is null; each
    method turns that into a rejection. *)
Definition withDb {A} (message operation : string) (c : Async Manager A)
    : Async Manager A :=
  fun m => if db m then c m else throw (DBError message operation) m.

(** [openDatabase()].  When the request is still pending after ten
    seconds the timer calls [request.onerror], which reads
    [request.error] to build its message; on a pending request that
    read throws ([InvalidStateError]), so the handler throws before it
    rejects, the timer's own [reject] is not reached either, and the
    promise stays pending. *)
Definition openDatabase (env : Env) : Async Manager unit :=
  match openEvent env with
  | OpenSuccess => update (setDb true)
  | OpenError => throw (DBError "Database open failed" "openDatabase")
  | OpenTimeout => never
  end.

(** [getScanCount()] rejects with the error it caught, or with
    [request.error], not with a [DBError]. *)
Definition getScanCount (env : Env) : Async Manager Z :=
  fun m =>
    if db m then
      (if countFails env then throw (PlainError "count failed")
       else read (fun m => Z.of_nat (size (store m)))) m
    else throw (PlainError "Cannot read properties of null") m.

Definition insertScan (env : Env) (scanData : Scan) : Async Manager string :=
  withDb "Transaction setup failed" "insertScan"
    (s <- read store ;;
     match s !! id scanData with
     | Some _ => throw (DBError "Insert failed" "insertScan")
     | None =>
         if addFails env then throw (DBError "Insert failed" "insertScan")
         else update (setStore (<[id scanData := scanData]> s)) ;;; ret (id scanData)
     end).

(** [Math.floor(scans.length * (1 - ratio))], in binary64 as the
    source computes it, as the index [slice] makes of it: [NaN] is
    read as 0, and an infinite value like any index beyond that end. *)
Definition keepCount (n : nat) (ratio : float) : Z :=
  let product := (JS.number (Z.of_nat n) * (1 - ratio))%float in
  if PrimFloat.eqb product infinity then Z.of_nat n
  else if PrimFloat.eqb product neg_infinity then - Z.of_nat n
  else JS.Math_floor product.

(** The scans [cleanupOldRecords] deletes: [scans.slice(keepCount)] of
    the timestamp index read in its own order. *)
Definition scansToDelete (s : gmap string Scan) (ratio : float) : list Scan :=
  let scans := byTimestamp s in
  JS.sliceFrom (keepCount (length scans) ratio) scans.

Definition deleteAll (l : list Scan) (s : gmap string Scan) : gmap string Scan :=
  fold_left (fun acc scan => delete (id scan) acc) l s.

(** [cleanupOldRecords(ratio)]; [CLEANUP_THRESHOLD * 0.5] is 500. *)
Definition cleanupOldRecords (env : Env) (ratio : float) : Async Manager Z :=
  withDb "Cleanup setup failed" "cleanupOldRecords"
    (if getAllFails env then throw (DBError "Cleanup query failed" "cleanupOldRecords")
     else
       s <- read store ;;
       if Z.of_nat (length (byTimestamp s)) <=? 500 then ret 0
       else
         let doomed := scansToDelete s ratio in
         if cleanupFails env
         then throw (DBError "Cleanup transaction failed" "cleanupOldRecords")
         else update (setStore (deleteAll doomed s)) ;;; ret (Z.of_nat (length doomed))).

(** *** Methods that first await [this.init()]

    They take the call of [this.init()] as [init]: the methods call
    one another in a cycle ([init] runs [performMaintenance], which
    runs [getScans], which awaits [init]). *)
Section WithInit.

Variable init : Env -> Async Manager unit.

Definition ensureInitialized (env : Env) : Async Manager unit :=
  i <- read initialized ;;
  if i then ret tt else init env.

Definition getScans (env : Env) (query : string) (limit offset : nat)
    : Async Manager (list Scan) :=
  ensureInitialized env ;;;
  f <- read useFallback ;;
  if f then
    scans <- fallbackGetScans env query ;;
    ret (JS.slice offset (offset + limit) scans)
  else
    withDb "Query setup failed" "getScans"
      (if getAllFails env then throw (DBError "Query failed" "getScans")
       else
         s <- read store ;;
         ret (JS.slice offset (offset + limit)
                (newestFirst (applyQuery true query (byTimestamp s))))).

Definition getScansByUrl (env : Env) (u : string) (limit : nat)
    : Async Manager (list Scan) :=
  ensureInitialized env ;;;
  withDb "URL query setup failed" "getScansByUrl"
    (if urlQueryFails env then throw (DBError "URL query failed" "getScansByUrl")
     else
       s <- read store ;;
       ret (JS.slice 0 limit (newestFirst (byUrl s u)))).

Definition estimateDBSize (env : Env) : Async Manager Z :=
  scans <- getScans env "" 1000 0 ;;
  ret (JSON_array_length scans).

(** [MAX_DB_SIZE * 0.8] is the integer 41943040 in binary64. *)
Definition sizeLimit : Z := JS.Math_floor (JS.number MAX_DB_SIZE * 0.8)%float.

Definition performMaintenance (env : Env) : Async Manager unit :=
  f <- read useFallback ;;
  if f then ret tt
  else
    tryCatch
      (scanCount <- getScanCount env ;;
       (if CLEANUP_THRESHOLD <? scanCount
        then cleanupOldRecords env 0.3%float ;;; ret tt else ret tt) ;;;
       approxSize <- estimateDBSize env ;;
       if sizeLimit <? approxSize
       then cleanupOldRecords env 0.5%float ;;; ret tt else ret tt)
      (fun _ => ret tt).

End WithInit.

(** Inside [_initialize] the field [initializationPromise] is set, and
    [this.init()] returns it. *)
Definition initAgain (env : Env) : Async Manager unit :=
  fun m => (default Pending (initializationPromise m), m).

Definition _initialize (env : Env) : Async Manager unit :=
  i <- read initialized ;;
  if i then ret tt
  else
    tryCatch
      (openDatabase env ;;;
       performMaintenance initAgain env ;;;
       update (setInitialized true false))
      (fun error =>
         tryCatch
           (fallbackInit ;;; update (setInitialized true true))
           (fun fallbackError => throw (DBError "All storage options failed" "init"))).

Definition init (env : Env) : Async Manager unit :=
  fun m =>
    match initializationPromise m with
    | Some fate => (fate, m)
    | None =>
        let '(fate, m') := _initialize env (setPromise (Some Pending) m) in
        (fate, setPromise (Some fate) m')
    end.

(** *** Duplicate detection *)
Definition calculateSimilarity (str1 str2 : string) : float :=
  let set1 : gset string := list_to_set (JS.split_ws (JS.toLowerCase str1)) in
  let set2 : gset string := list_to_set (JS.split_ws (JS.toLowerCase str2)) in
  (JS.number (Z.of_nat (size (set1 ∩ set2))) / JS.number (Z.of_nat (size (set1 ∪ set2))))%float.

Definition isSubstantialDuplicate (existingScan newScan : Scan) : bool :=
  if negb (String.eqb (url existingScan) (url newScan)) then false
  else if negb (String.eqb (title existingScan) "") && negb (String.eqb (title newScan) "")
  then PrimFloat.ltb 0.8 (calculateSimilarity (title existingScan) (title newScan))
  else true.

Definition isRecentDuplicate (env : Env) (scanData scan : Scan) : bool :=
  (now env - timestamp scan <? DUPLICATE_TTL_MS) && isSubstantialDuplicate scan scanData.

Definition checkForDuplicate (env : Env) (scanData : Scan) : Async Manager (option string) :=
  if String.eqb (url scanData) "" then ret None
  else
    tryCatch
      (recentScans <- getScansByUrl init env (url scanData) 5 ;;
       ret (id <$> List.find (isRecentDuplicate env scanData) recentScans))
      (fun _ => ret None).

(** [if (duplicateId)]: [null] and the empty string are falsy. *)
Definition truthy (duplicateId : option string) : option string :=
  match duplicateId with
  | Some d => if String.eqb d "" then None else Some d
  | None => None
  end.

(** *** storeScan *)
Definition storeScan (env : Env) (scanData : Scan) : Async Manager string :=
  ensureInitialized init env ;;;
  match validateScanData scanData with
  | Throw message => throw (PlainError message)
  | Ok _ =>
      f <- read useFallback ;;
      if f then fallbackStoreScan env scanData
      else
        tryCatch
          (duplicateId <- checkForDuplicate env scanData ;;
           match truthy duplicateId with
           | Some d => ret d
           | None =>
               let sanitizedData := sanitizeScanData env scanData in
               scanId <- insertScan env sanitizedData ;;
               performMaintenance init env ;;;
               ret scanId
           end)
          (fun error =>
             f' <- read useFallback ;;
             if negb f' then
               tryCatch
                 (fallbackInit ;;;
                  update (setUseFallback true) ;;;
                  fallbackStoreScan env scanData)
                 (fun fallbackError => throw (DBError "All storage methods failed" "storeScan"))
             else throw error)
  end.

Definition clearAllScans (env : Env) : Async Manager bool :=
  ensureInitialized init env ;;;
  f <- read useFallback ;;
  if f then fallbackClearScans env
  else
    withDb "Clear setup failed" "clearAllScans"
      (if clearFails env then throw (DBError "Clear failed" "clearAllScans")
       else update (setStore ∅) ;;; ret true).

Definition exportScans (env : Env) : Async Manager (list Scan) := getScans init env "" 5000 0.

Definition isUsingFallback (m : Manager) : bool := useFallback m.
Definition isInitialized (m : Manager) : bool := initialized m.

(** The calls of the public interface, and the manager after one. *)
Inductive Call :=
  | CallInit
  | CallStoreScan (scanData : Scan)
  | CallGetScans (query : string) (limit offset : nat)
  | CallGetScansByUrl (u : string) (limit : nat)
  | CallPerformMaintenance
  | CallCleanupOldRecords (ratio : float)
  | CallClearAllScans
  | CallExportScans.

Definition perform (env : Env) (c : Call) (m : Manager) : Manager :=
  match c with
  | CallInit => snd (init env m)
  | CallStoreScan scanData => snd (storeScan env scanData m)
  | CallGetScans query limit offset => snd (getScans init env query limit offset m)
  | CallGetScansByUrl u limit => snd (getScansByUrl init env u limit m)
  | CallPerformMaintenance => snd (performMaintenance init env m)
  | CallCleanupOldRecords ratio => snd (cleanupOldRecords env ratio m)
  | CallClearAllScans => snd (clearAllScans env m)
  | CallExportScans => snd (exportScans env m)
  end.

Definition runCalls (calls : list (Env * Call)) (m : Manager) : Manager :=
  fold_left (fun m c => perform (fst c) (snd c) m) calls m.

End WithSerialisation.

(** The manager after a failed opening: initialised on the fallback,
    no database, the initialisation promise resolved. *)
Definition fallbackEngaged (m : Manager) : Prop :=
  initialized m = true /\ useFallback m = true /\ db m = false /\
  initializationPromise m = Some (Resolved tt).

(** [getStorageInfo()]: the store in use and whether the manager is
    initialised. *)
Definition getStorageInfo (m : Manager) : string * bool :=
  (if useFallback m then "chrome_storage" else "indexeddb", initialized m).

(** *** What a call may do to the two stores

    A record is [sanitised] when it has the shape [sanitizeScanData]
    leaves.  [change] lists the ways a method alters the object store
    or the fallback list: it adds a sanitised record under an unused
    key, it removes records, it writes the fallback list as
    [ChromeStorageFallback.storeScan] does, or it empties that list;
    anything else it changes is a field of the manager itself. *)
Definition sanitised (r : Scan) : Prop :=
  password r = "" /\ token r = "" /\ apiKey r = "" /\ cookie r = "" /\ version r = "1.0".

Inductive change (m m' : Manager) : Prop :=
  | change_fields :
      store m' = store m -> chromeScans m' = chromeScans m -> change m m'
  | change_add (r : Scan) :
      store m !! id r = None -> sanitised r ->
      store m' = <[id r := r]> (store m) -> chromeScans m' = chromeScans m -> change m m'
  | change_remove :
      store m' ⊆ store m -> chromeScans m' = chromeScans m -> change m m'
  | change_fallback_add (r : Scan) :
      sanitised r -> store m' = store m ->
      chromeScans m' = JS.slice 0 500 (newestFirst (chromeScans m ++ [r])) -> change m m'
  | change_fallback_clear :
      store m' = store m -> chromeScans m' = [] -> change m m'.

(** A computation is [steady] when the manager it leaves is reached
    from the one it met by a sequence of such changes. *)
Definition steady {A} (c : Async Manager A) : Prop :=
  forall m, rtc change m (snd (c m)).

(** The manager's own fields agree, the stores apart. *)
Definition sameFields (m m' : Manager) : Prop :=
  db m' = db m /\ initialized m' = initialized m /\
  initializationPromise m' = initializationPromise m /\
  useFallback m' = useFallback m /\ fallbackInitialized m' = fallbackInitialized m.

(** From [m] to [m'] records were removed and nothing else changed. *)
Definition within (m m' : Manager) : Prop :=
  sameFields m m' /\ chromeScans m' = chromeScans m /\ store m' ⊆ store m.

(** Newest first. *)
Definition descending (l : list Scan) : Prop :=
  StronglySorted (fun a b => timestamp b <= timestamp a) l.

(** [0 <= Math.floor(n * (1 - 0.3)) < n], the product being finite,
    checked for [count] successive values of [n]. *)
Fixpoint floorsBelow (count : nat) (n : Z) : bool :=
  match count with
  | O => true
  | S count' =>
      let product := (JS.number n * (1 - 0.3))%float in
      negb (PrimFloat.eqb product infinity) && negb (PrimFloat.eqb product neg_infinity)
      && (0 <=? JS.Math_floor product) && (JS.Math_floor product <? n)
      && floorsBelow count' (n + 1)
  end.

(** The answer of [checkForDuplicate] on an initialised manager. *)
Definition duplicateOf (env : Env) (scanData : Scan) (m : Manager) : option string :=
  if String.eqb (url scanData) "" then None
  else if db m && negb (urlQueryFails env)
  then id <$> List.find (isRecentDuplicate env scanData)
                (JS.slice 0 5 (newestFirst (byUrl (store m) (url scanData))))
  else None.

End IndexedDBManager.

(* ================================================================= *)
(** ** StorageManager.js *)

Module StorageManager.

Record CacheEntry := { value : string; cachedAt : Z; version : Z; ttl : option Z }.

(** The module's variables and the extension storage behind them; a
    stored value is its JSON text. *)
Record State := {
  cache : gmap string CacheEntry;
  local : gmap string string           (* [chrome.storage.local] *)
}.

(** [failing] tells that [chrome.runtime.lastError] is set. *)
Record Env := { now : Z; failing : bool }.

(** [chrome.storage.local.get(null, ...)] wrapped in a promise. *)
Definition readAll (env : Env) : Async State (gmap string string) :=
  if failing env then throw (PlainError "lastError") else read local.

Definition readKey (env : Env) (key : string) : Async State (option string) :=
  if failing env then throw (PlainError "lastError") else read (fun st => local st !! key).

Definition fresh (env : Env) (v : string) : CacheEntry :=
  {| value := v; cachedAt := now env; version := 1; ttl := None |}.

Definition setCache (c : gmap string CacheEntry) (st : State) : State :=
  {| cache := c; local := local st |}.

(** [getAll()]. *)
Definition getAll (env : Env) : Async State (gmap string string) :=
  tryCatch
    (items <- readAll env ;;
     update (fun st => setCache (union (fresh env <$> items) (cache st)) st) ;;;
     ret items)
    (fun error => read (fun st => value <$> cache st)).

(** [getItem(key, defaultValue)] for a string [key]. *)
Definition getItem (env : Env) (key : string) (defaultValue : option string)
    : Async State (option string) :=
  c <- read (fun st => cache st !! key) ;;
  let live :=
    match c with
    | Some cached =>
        match ttl cached with
        | None => true
        | Some t => (t =? 0) || (now env - cachedAt cached <? t)
        end
    | None => false
    end in
  if live then ret (value <$> c)
  else
    update (fun st => setCache (delete key (cache st)) st) ;;;
    tryCatch
      (v <- readKey env key ;;
       match v with
       | Some x =>
           update (fun st => setCache (<[key := fresh env x]> (cache st)) st) ;;;
           ret (Some x)
       | None => ret defaultValue
       end)
      (fun err => ret defaultValue).

(** *** Writes

    [chrome.storage.local.set], [remove] and [clear] wrapped in a
    promise; a call that reports [chrome.runtime.lastError] has left
    the storage as it was. *)
Definition setLocal (l : gmap string string) (st : State) : State :=
  {| cache := cache st; local := l |}.

Definition writeKey (env : Env) (key v : string) : Async State unit :=
  if failing env then throw (PlainError "lastError")
  else update (fun st => setLocal (<[key := v]> (local st)) st).

Definition removeKey (env : Env) (key : string) : Async State unit :=
  if failing env then throw (PlainError "lastError")
  else update (fun st => setLocal (delete key (local st)) st).

Definition clearLocal (env : Env) : Async State unit :=
  if failing env then throw (PlainError "lastError") else update (setLocal ∅).

(** [setItem(key, value, options)] for a string [key]; [optVersion]
    and [optTtl] are [options.version] and [options.ttl]. *)
Definition setItem (env : Env) (key v : string) (optVersion optTtl : option Z)
    : Async State bool :=
  let item :=
    {| value := v; cachedAt := now env;
       version := match optVersion with
                  | Some n => if n =? 0 then 1 else n
                  | None => 1
                  end;
       ttl := optTtl |} in
  update (fun st => setCache (<[key := item]> (cache st)) st) ;;;
  tryCatch
    (writeKey env key v ;;; ret true)
    (fun error =>
       update (fun st => setCache (delete key (cache st)) st) ;;; throw error).

(** [removeItem(key)] for a string [key]. *)
Definition removeItem (env : Env) (key : string) : Async State bool :=
  update (fun st => setCache (delete key (cache st)) st) ;;;
  removeKey env key ;;;
  ret true.

(** [clear()]. *)
Definition clear (env : Env) : Async State bool :=
  update (setCache ∅) ;;; clearLocal env ;;; ret true.

(** [loadCacheFromStorage()]: always resolves. *)
Definition loadCacheFromStorage (env : Env) : Async State unit :=
  if failing env then ret tt
  else update (fun st => setCache (union (fresh env <$> local st) (cache st)) st).

(** [getCacheStats().size] and [clearCache()], which answers the number
    of entries it dropped. *)
Definition cacheSize (st : State) : nat := size (cache st).

Definition clearCache (st : State) : nat * State := (size (cache st), setCache ∅ st).

(** The calls the module receives. *)
Inductive Call :=
  | CallSetItem (key v : string) (optVersion optTtl : option Z)
  | CallGetItem (key : string) (defaultValue : option string)
  | CallRemoveItem (key : string)
  | CallClear
  | CallGetAll
  | CallLoadCache
  | CallClearCache.

Definition perform (env : Env) (c : Call) (st : State) : State :=
  match c with
  | CallSetItem key v optVersion optTtl => snd (setItem env key v optVersion optTtl st)
  | CallGetItem key defaultValue => snd (getItem env key defaultValue st)
  | CallRemoveItem key => snd (removeItem env key st)
  | CallClear => snd (clear env st)
  | CallGetAll => snd (getAll env st)
  | CallLoadCache => snd (loadCacheFromStorage env st)
  | CallClearCache => snd (clearCache st)
  end.

Definition runCalls (calls : list (Env * Call)) (st : State) : State :=
  fold_left (fun st c => perform (fst c) (snd c) st) calls st.


End StorageManager.

(* ================================================================= *)
(** ** The database handler the merge routines call

    [getDeepScan], [getLiveSession], [getLiveSessionMessages] and
    [saveMergedScan] are called on [this.dbHandler] by both merge
    routines; the handler is taken as given, each method with the fate
    of its promise.  A record answers what was stored: its
    [messageCount] is [None] when the stored object has no such
    property. *)

Module Handler.

Record DeepScanRecord := {
  deepId : string;
  deepTimestamp : Z;
  deepPlatform : string;
  deepUrl : string;
  deepMessageCount : option Z
}.

Record LiveSession := {
  liveSessionId : string;
  liveMessageCount : option Z;
  liveEndTime : option Z
}.

Record DBHandler := {
  getDeepScan : string -> Outcome (option DeepScanRecord);
  getLiveSession : string -> Outcome (option LiveSession);
  getLiveSessionMessages : string -> Outcome (list string);
  saveMergedScan : Outcome unit
}.

(** Awaiting a promise whose fate is known. *)
Definition await {S A} (o : Outcome A) : Async S A := fun s => (o, s).

End Handler.

(* ================================================================= *)
(** ** ScanSystem.js: mergeScanData *)

Module ScanSystem.
Import Handler.

Record Statistics := {
  totalMessages : Z;
  deepMessages : Z;
  liveMessages : Z;
  rangeStart : Z;
  rangeEnd : Z
}.

Record MergedData := {
  mergedAt : Z;
  deepScan : DeepScanRecord;
  liveSession : LiveSession;
  statistics : Statistics
}.

(** [count || 0]: 0 for [undefined] and for 0. *)
Definition orZero (count : option Z) : Z :=
  match count with
  | Some c => if c =? 0 then 0 else c
  | None => 0
  end.

(** [mergeScanData(deepScanId, liveSessionId)]; an absent handler makes
    the first call throw. *)
Definition mergeScanData (dbHandler : option DBHandler) (now : Z)
    (deepScanId liveSessionId : string) : Async unit MergedData :=
  match dbHandler with
  | None => throw (PlainError "Cannot read properties of null")
  | Some h =>
      deepData <- await (getDeepScan h deepScanId) ;;
      liveData <- await (getLiveSession h liveSessionId) ;;
      match deepData, liveData with
      | Some d, Some l =>
          let mergedData :=
            {| mergedAt := now; deepScan := d; liveSession := l;
               statistics :=
                 {| totalMessages := orZero (deepMessageCount d) + orZero (liveMessageCount l);
                    deepMessages := orZero (deepMessageCount d);
                    liveMessages := orZero (liveMessageCount l);
                    rangeStart := deepTimestamp d;
                    rangeEnd := default now (liveEndTime l) |} |} in
          await (saveMergedScan h) ;;;
          ret mergedData
      | _, _ => throw (PlainError "Scan data not found for merging")
      end
  end.

End ScanSystem.

(* ================================================================= *)
(** ** DeepScanCoordinator.js *)

Module DeepScanCoordinator.
Import Handler.

Record HybridSession := {
  sessionId : string;
  tabId : Z;
  startTime : Z;
  deepScanId : string;
  initialMessageCount : Z
}.

Record LiveData := {
  liveDataSession : string;
  messageCount : Z;
  messages : list string;
  sessionInfo : option LiveSession;
  collectionTime : Z
}.

(** What [deepScan.messageCount + liveData.messageCount] gives: a
    number, or [NaN] when the deep scan record has no [messageCount]. *)
Inductive Sum := Finite (z : Z) | NaN.

Definition plus (a : option Z) (b : Z) : Sum :=
  match a with
  | Some x => Finite (x + b)
  | None => NaN
  end.


(** [deepMessages] is [None] for [undefined]. *)
Record Statistics := {
  totalMessages : Sum;
  deepMessages : option Z;
  liveMessages : Z;
  rangeStart : Z;
  rangeEnd : Z;
  duration : Z;
  efficiency : float
}.

Record MergedResult := {
  mergeId : string;
  mergedSession : string;
  mergedAt : Z;
  deepScan : DeepScanRecord;
  liveData : LiveData;
  statistics : Statistics;
  metaTabId : Z;
  metaPlatform : string;
  metaUrl : string
}.

(** [calculateEfficiency(deepMessages, liveMessages)]; with
    [deepMessages] undefined the total is [NaN], and so is the result. *)
Definition calculateEfficiency (deep : option Z) (live : Z) : float :=
  match deep with
  | None => nan
  | Some d =>
      let total := d + live in
      if total =? 0 then 0%float
      else
        let e := (JS.signed live / JS.signed total * 100)%float in
        if PrimFloat.ltb 100 e then 100%float else e
  end.


(** [mergeScanData(session, liveData)]; [newMergeId] is the identifier
    drawn for the result. *)
Definition mergeScanData (dbHandler : option DBHandler) (now : Z) (newMergeId : string)
    (session : HybridSession) (liveData : LiveData) : Async unit MergedResult :=
  match dbHandler with
  | None => throw (PlainError "DBHandler not available for data merging")
  | Some h =>
      deepScan <- await (getDeepScan h (deepScanId session)) ;;
      match deepScan with
      | None => throw (PlainError "Deep Scan data not found")
      | Some d =>
          let mergedResult :=
            {| mergeId := newMergeId;
               mergedSession := sessionId session;
               mergedAt := now;
               deepScan := d;
               liveData := liveData;
               statistics :=
                 {| totalMessages := plus (deepMessageCount d) (messageCount liveData);
                    deepMessages := deepMessageCount d;
                    liveMessages := messageCount liveData;
                    rangeStart := deepTimestamp d;
                    rangeEnd := now;
                    duration := now - deepTimestamp d;
                    efficiency :=
                      calculateEfficiency (deepMessageCount d) (messageCount liveData) |};
               metaTabId := tabId session;
               metaPlatform := deepPlatform d;
               metaUrl := deepUrl d |} in
          await (saveMergedScan h) ;;;
          ret mergedResult
      end
  end.


End DeepScanCoordinator.

(* ================================================================= *)
(** ** contentScript.js, class DBHandler

    The handler keeps objects in five object stores of one database,
    each keyed by the object's [id].  An object is modelled with the
    properties the class itself reads; [timestamp] is [None] when the
    property is absent. *)

Module Database.

Record Item := {
  id : string;
  timestamp : option Z;
  platform : string;
  scanType : string;
  messageCount : Z;
  scanDuration : Z;                      (* [data.performance.scanDuration] *)
  createdAt : Z;
  updatedAt : Z;
  itemType : string                      (* [type] *)
}.

Inductive StoreName := SCANS | LIVE_DATA | EXPORT_HISTORY | SETTINGS | ANALYTICS.

Record State := {
  isInitialized : bool;
  scans : gmap string Item;
  live_data : gmap string Item;
  export_history : gmap string Item;
  settings : gmap string Item;
  analytics : gmap string Item
}.

(** The clock, the identifier [generateId] draws, and whether opening
    the database or a request on it fails. *)
Record Env := { now : Z; newId : string; openFails : bool; requestFails : bool }.

Definition objectStore (name : StoreName) (st : State) : gmap string Item :=
  match name with
  | SCANS => scans st
  | LIVE_DATA => live_data st
  | EXPORT_HISTORY => export_history st
  | SETTINGS => settings st
  | ANALYTICS => analytics st
  end.

Definition setObjectStore (name : StoreName) (s : gmap string Item) (st : State) : State :=
  match name with
  | SCANS =>
      {| isInitialized := isInitialized st; scans := s; live_data := live_data st;
         export_history := export_history st; settings := settings st;
         analytics := analytics st |}
  | LIVE_DATA =>
      {| isInitialized := isInitialized st; scans := scans st; live_data := s;
         export_history := export_history st; settings := settings st;
         analytics := analytics st |}
  | EXPORT_HISTORY =>
      {| isInitialized := isInitialized st; scans := scans st; live_data := live_data st;
         export_history := s; settings := settings st; analytics := analytics st |}
  | SETTINGS =>
      {| isInitialized := isInitialized st; scans := scans st; live_data := live_data st;
         export_history := export_history st; settings := s; analytics := analytics st |}
  | ANALYTICS =>
      {| isInitialized := isInitialized st; scans := scans st; live_data := live_data st;
         export_history := export_history st; settings := settings st; analytics := s |}
  end.

Definition setInitialized (st : State) : State :=
  {| isInitialized := true; scans := scans st; live_data := live_data st;
     export_history := export_history st; settings := settings st;
     analytics := analytics st |}.

Definition withId (k : string) (item : Item) : Item :=
  {| id := k; timestamp := timestamp item; platform := platform item;
     scanType := scanType item; messageCount := messageCount item;
     scanDuration := scanDuration item; createdAt := createdAt item;
     updatedAt := updatedAt item; itemType := itemType item |}.

(** The objects of a store in the order a cursor visits them: by key. *)
Definition rows (s : gmap string Item) : list Item :=
  JS.sort (fun a b => String.leb (id a) (id b))
          (map (fun kv => withId (fst kv) (snd kv)) (map_to_list s)).

(** [init()] and [ensureInitialized()]. *)
Definition init (env : Env) : Async State bool :=
  i <- read isInitialized ;;
  if i then ret true
  else if openFails env then throw (PlainError "open failed")
  else update setInitialized ;;; ret true.

Definition ensureInitialized (env : Env) : Async State unit :=
  i <- read isInitialized ;;
  if i then ret tt else init env ;;; ret tt.

(** *** CRUD *)

(** The object [create] and [bulkCreate] add for [data]. *)
Definition stamped (env : Env) (key : string) (data : Item) : Item :=
  {| id := key; timestamp := timestamp data; platform := platform data;
     scanType := scanType data; messageCount := messageCount data;
     scanDuration := scanDuration data; createdAt := now env; updatedAt := now env;
     itemType := itemType data |}.

(** [create(storeName, data)]; [store.add] fails when the key is
    taken. *)
Definition create (env : Env) (name : StoreName) (data : Item) : Async State string :=
  ensureInitialized env ;;;
  s <- read (objectStore name) ;;
  match s !! newId env with
  | Some _ => throw (PlainError "ConstraintError")
  | None =>
      if requestFails env then throw (PlainError "request failed")
      else update (setObjectStore name (<[newId env := stamped env (newId env) data]> s)) ;;;
           ret (newId env)
  end.

(** The adds of [bulkCreate], one after the other in one transaction;
    [None] when one of them fails, which aborts the transaction. *)
Fixpoint addAll (env : Env) (items : list (string * Item)) (s : gmap string Item)
    : option (gmap string Item) :=
  match items with
  | [] => Some s
  | (key, data) :: rest =>
      match s !! key with
      | Some _ => None
      | None => addAll env rest (<[key := stamped env key data]> s)
      end
  end.

(** [bulkCreate(storeName, items)]; each item comes with the
    identifier [generateId] draws for it.  The promise is resolved by
    the success handler of the last add, so without items it is
    neither resolved nor rejected. *)
Definition bulkCreate (env : Env) (name : StoreName) (items : list (string * Item))
    : Async State (list string) :=
  ensureInitialized env ;;;
  match items with
  | [] => never
  | _ =>
      s <- read (objectStore name) ;;
      if requestFails env then throw (PlainError "request failed")
      else
        match addAll env items s with
        | Some s' => update (setObjectStore name s') ;;; ret (map fst items)
        | None => throw (PlainError "ConstraintError")
        end
  end.

(** [read(storeName, id)]: the object under the key, [None] for
    [undefined].  The key path of every store is [id], so the object
    under a key has that key as its [id]. *)
Definition read_ (env : Env) (name : StoreName) (key : string)
    : Async State (option Item) :=
  ensureInitialized env ;;;
  if requestFails env then throw (PlainError "request failed")
  else
    s <- read (objectStore name) ;;
    ret (withId key <$> s !! key).

(** The properties [update] may overwrite; [updates] carries no [id]. *)
Record Updates := {
  newTimestamp : option Z;
  newPlatform : option string;
  newScanType : option string;
  newMessageCount : option Z
}.

(** [{...existing, ...updates, updatedAt: Date.now()}]. *)
Definition merged (env : Env) (existing : Item) (updates : Updates) : Item :=
  {| id := id existing;
     timestamp := match newTimestamp updates with
                  | Some t => Some t
                  | None => timestamp existing
                  end;
     platform := default (platform existing) (newPlatform updates);
     scanType := default (scanType existing) (newScanType updates);
     messageCount := default (messageCount existing) (newMessageCount updates);
     scanDuration := scanDuration existing;
     createdAt := createdAt existing;
     updatedAt := now env;
     itemType := itemType existing |}.

(** [update(storeName, id, updates)].  The promise is built around an
    [async] executor: when the read inside it rejects, nothing rejects
    or resolves the promise [update] returns. *)
Definition update_ (env : Env) (name : StoreName) (key : string) (updates : Updates)
    : Async State string :=
  ensureInitialized env ;;;
  existing <- tryCatch (read_ env name key) (fun _ => never) ;;
  match existing with
  | None => throw (PlainError "Item not found")
  | Some item =>
      if requestFails env then throw (PlainError "request failed")
      else
        let item' := merged env item updates in
        s <- read (objectStore name) ;;
        update (setObjectStore name (<[id item' := item']> s)) ;;;
        ret (id item')
  end.

(** [delete(storeName, id)]: resolves with [true] whether or not the
    key was there. *)
Definition delete_ (env : Env) (name : StoreName) (key : string) : Async State bool :=
  ensureInitialized env ;;;
  if requestFails env then throw (PlainError "request failed")
  else
    s <- read (objectStore name) ;;
    update (setObjectStore name (delete key s)) ;;;
    ret true.

(** [storeScan(scanData)]: [{...scanData, type: 'scan'}]. *)
Definition asScan (data : Item) : Item :=
  {| id := id data; timestamp := timestamp data; platform := platform data;
     scanType := scanType data; messageCount := messageCount data;
     scanDuration := scanDuration data; createdAt := createdAt data;
     updatedAt := updatedAt data; itemType := "scan" |}.

Definition storeScan (env : Env) (scanData : Item) : Async State string :=
  create env SCANS (asScan scanData).

(** *** Queries *)

(** The operators of a filter on a number. *)
Inductive Operator :=
  | OpGt (v : Z) | OpGte (v : Z) | OpLt (v : Z) | OpLte (v : Z)
  | OpIn (vs : list Z) | OpNin (vs : list Z)
  | OpOther (v : Z).                     (* any other key: strict equality *)

(** The filters the class itself writes: [{platform}], for the name
    of a platform, and [{timestamp: {...}}]. *)
Inductive Filter :=
  | PlatformIs (p : string)
  | TimestampWhere (operators : list Operator).

(** [applyOperators(itemValue, operators)]; a comparison with
    [undefined] is false. *)
Definition applyOperators (itemValue : option Z) (operators : list Operator) : bool :=
  forallb (fun operator =>
    match itemValue, operator with
    | Some x, OpGt v => v <? x
    | Some x, OpGte v => v <=? x
    | Some x, OpLt v => x <? v
    | Some x, OpLte v => x <=? v
    | Some x, OpIn vs => existsb (Z.eqb x) vs
    | Some x, OpNin vs => negb (existsb (Z.eqb x) vs)
    | Some x, OpOther v => x =? v
    | None, OpNin _ => true
    | None, _ => false
    end) operators.

Definition matchesFilters (item : Item) (filters : list Filter) : bool :=
  forallb (fun f =>
    match f with
    | PlatformIs p => String.eqb (platform item) p
    | TimestampWhere operators => applyOperators (timestamp item) operators
    end) filters.

(** [limit && processed >= limit]: no limit when [limit] is [null] or 0. *)
Definition limitReached (limit : option nat) (processed : nat) : bool :=
  match limit with
  | Some (S n) => (S n <=? processed)%nat
  | _ => false
  end.

(** The cursor loop of [query]: [skipped] and [processed] are its
    counters and [results] what it has collected. *)
Fixpoint cursor (filters : list Filter) (limit : option nat) (offset : nat)
    (remaining : list Item) (skipped processed : nat) (results : list Item) : list Item :=
  match remaining with
  | [] => results
  | item :: rest =>
      if (skipped <? offset)%nat
      then cursor filters limit offset rest (S skipped) processed results
      else
        let hit := matchesFilters item filters in
        let results' := if hit then results ++ [item] else results in
        let processed' := if hit then S processed else processed in
        if limitReached limit processed' then results'
        else cursor filters limit offset rest skipped processed' results'
  end.

(** What a limit keeps of a list: its first [limit] elements, and the
    whole list when the limit is [null] or 0. *)
Definition window {A} (limit : option nat) (l : list A) : list A :=
  match limit with
  | Some (S n) => firstn (S n) l
  | _ => l
  end.

(** The options of [query]; [orderBy] is read and never used, and no
    method of the class names an index. *)
Record Options := {
  table : StoreName;
  where_ : list Filter;
  limit : option nat;
  offset : nat
}.

Definition query (env : Env) (options : Options) : Async State (list Item) :=
  ensureInitialized env ;;;
  if requestFails env then throw (PlainError "request failed")
  else
    s <- read (objectStore (table options)) ;;
    ret (cursor (where_ options) (limit options) (offset options) (rows s) 0 0 []).

(** The scan queries, called without [options].  Their [orderBy] has
    no effect on [query]. *)
Definition getAllScans (env : Env) : Async State (list Item) :=
  query env {| table := SCANS; where_ := []; limit := None; offset := 0 |}.

Definition getRecentScans (env : Env) (limit : nat) : Async State (list Item) :=
  query env {| table := SCANS; where_ := []; limit := Some limit; offset := 0 |}.

Definition getScansByPlatform (env : Env) (p : string) : Async State (list Item) :=
  query env {| table := SCANS; where_ := [PlatformIs p]; limit := None; offset := 0 |}.

Definition getScansByDateRange (env : Env) (startDate endDate : Z)
    : Async State (list Item) :=
  query env {| table := SCANS;
               where_ := [TimestampWhere [OpGte startDate; OpLte endDate]];
               limit := None; offset := 0 |}.

Definition getScanCount (env : Env) : Async State nat :=
  ensureInitialized env ;;;
  if requestFails env then throw (PlainError "request failed")
  else read (fun st => size (scans st)).

(** *** Maintenance *)

(** [for (const x of old) await this.delete(store, x.id)]. *)
Fixpoint deleteEach (env : Env) (name : StoreName) (old : list Item) : Async State unit :=
  match old with
  | [] => ret tt
  | x :: rest => delete_ env name (id x) ;;; deleteEach env name rest
  end.

Definition cutoffDate (env : Env) (retentionDays : Z) : Z :=
  now env - retentionDays * 24 * 60 * 60 * 1000.

(** [cleanupOldData(retentionDays)]. *)
Definition cleanupOldData (env : Env) (retentionDays : Z) : Async State unit :=
  let old name :=
    query env {| table := name;
                 where_ := [TimestampWhere [OpLt (cutoffDate env retentionDays)]];
                 limit := None; offset := 0 |} in
  oldScans <- old SCANS ;;
  deleteEach env SCANS oldScans ;;;
  oldLiveData <- old LIVE_DATA ;;
  deleteEach env LIVE_DATA oldLiveData.

(** [clearAll()]: the five stores, one after the other. *)
Definition clearStore (env : Env) (name : StoreName) : Async State unit :=
  if requestFails env then throw (PlainError "request failed")
  else update (setObjectStore name ∅).

Definition clearAll (env : Env) : Async State unit :=
  ensureInitialized env ;;;
  clearStore env SCANS ;;; clearStore env LIVE_DATA ;;; clearStore env EXPORT_HISTORY ;;;
  clearStore env SETTINGS ;;; clearStore env ANALYTICS.

(** *** Statistics *)

(** The histograms are plain objects.  Under a property name of
    [Object.prototype] such an object answers an inherited value, a
    function or, under [__proto__], the prototype itself. *)
Definition inheritedNames : list string :=
  ["constructor"; "hasOwnProperty"; "isPrototypeOf"; "propertyIsEnumerable";
   "toLocaleString"; "toString"; "valueOf"; "__proto__";
   "__defineGetter__"; "__defineSetter__"; "__lookupGetter__"; "__lookupSetter__"].

Definition inherited (key : string) : bool := existsb (String.eqb key) inheritedNames.

(** An entry of a histogram: a count, or the text that [+ 1] makes of a
    value that is not a number (the text itself depends on the engine). *)
Inductive Entry := Count (n : nat) | Text.

(** [h[key] = (h[key] || 0) + 1].  A count grows by one and a text
    stays a text.  Without an entry the read answers the inherited
    value under an inherited name, and [+ 1] makes a text of it; the
    assignment creates the entry, except under [__proto__], whose
    setter ignores a text. *)
Definition bump (key : string) (h : gmap string Entry) : gmap string Entry :=
  match h !! key with
  | Some (Count n) => <[key := Count (S n)]> h
  | Some Text => <[key := Text]> h
  | None =>
      if String.eqb key "__proto__" then h
      else if inherited key then <[key := Text]> h
      else <[key := Count 1]> h
  end.

(** The entry that counting [n] scans leaves: none for no scan. *)
Definition entryOf (n : nat) : option Entry :=
  match n with
  | O => None
  | S _ => Some (Count n)
  end.

Definition orUnknown (s : string) : string := if String.eqb s "" then "Unknown" else s.

Definition orLowerUnknown (s : string) : string := if String.eqb s "" then "unknown" else s.

(** [getDateRange(scans)]: nothing for no scans; otherwise the least
    and the greatest of the timestamps that are truthy, and
    [Math.ceil] of the days between them.  Without any truthy
    timestamp the source computes with [Infinity]. *)
Inductive DateRange :=
  | NoScans
  | NoTimestamps
  | Range (start finish : Z) (days : Z).

(** [Math.ceil] on a binary64 number. *)
Definition Math_ceil (f : float) : Z := - JS.Math_floor (- f)%float.

Definition truthyTimestamps (l : list Item) : list Z :=
  omap (fun s => match timestamp s with
                 | Some t => if t =? 0 then None else Some t
                 | None => None
                 end) l.

Definition getDateRange (l : list Item) : DateRange :=
  match l with
  | [] => NoScans
  | _ =>
      match truthyTimestamps l with
      | [] => NoTimestamps
      | t :: ts =>
          let minTime := fold_left Z.min ts t in
          let maxTime := fold_left Z.max ts t in
          Range minTime maxTime
            (Math_ceil (JS.number (maxTime - minTime) / JS.number (1000 * 60 * 60 * 24))%float)
      end
  end.

(** The counts of [getScanStatistics]; its two averages are quotients
    of these. *)
Record Statistics := {
  totalScans : nat;
  platforms : gmap string Entry;
  scanTypes : gmap string Entry;
  totalMessages : Z;
  totalDuration : Z;
  dateRange : DateRange
}.

Definition statisticsOf (l : list Item) : Statistics :=
  {| totalScans := length l;
     platforms := fold_left (fun h s => bump (orUnknown (platform s)) h) l ∅;
     scanTypes := fold_left (fun h s => bump (orLowerUnknown (scanType s)) h) l ∅;
     totalMessages := fold_left (fun n s => n + messageCount s) l 0;
     totalDuration := fold_left (fun n s => n + scanDuration s) l 0;
     dateRange := getDateRange l |}.

Definition getScanStatistics (env : Env) : Async State Statistics :=
  l <- getAllScans env ;;
  ret (statisticsOf l).

End Database.

(* ================================================================= *)
(** ** Concrete inputs used below *)

Module Examples.

(** An element that shows, sits at [(8, top)] and is 600 by 20. *)
Definition block (tag : string) (attrs : list (string * string)) (text : string)
    (kids top : Z) : DeepScan.Element :=
  {| DeepScan.tagName := tag; DeepScan.attributes := attrs; DeepScan.textContent := text;
     DeepScan.children := kids; DeepScan.firstChildDepth := 0;
     DeepScan.styleShown := true;
     DeepScan.offsetWidth := 600; DeepScan.offsetHeight := 20;
     DeepScan.rectTop := top; DeepScan.rectLeft := 8;
     DeepScan.rectWidth := 600; DeepScan.rectHeight := 20; DeepScan.rectBottom := top + 20;
     DeepScan.scrollHeight := 20; DeepScan.clientHeight := 20;
     DeepScan.scrollWidth := 600; DeepScan.clientWidth := 600 |}.

Definition numbered (attrs : list (string * string)) (tag : string) (k : nat)
    : DeepScan.Element :=
  block tag attrs ("Message number " +:+ JS.toString 10 (Z.of_nat k)) 0 (Z.of_nat k * 20).

(** [<html><head></head><body>] followed by twelve children of the
    body with the attributes [attrs]. *)
Definition pageOfTwelve (tag : string) (attrs : list (string * string)) : DeepScan.Page :=
  {| DeepScan.href := "https://chat.example.org/room";
     DeepScan.docTitle := "Room";
     DeepScan.innerHeight := 800;
     DeepScan.domDepth := 2;
     DeepScan.elements :=
       block "HTML" [] "" 2 0 :: block "HEAD" [] "" 0 0 :: block "BODY" [] "" 12 0 ::
       map (numbered attrs tag) (seq 1 12) |}.

(** Twelve [<div class="message">]. *)
Definition twelveDivs : DeepScan.Page := pageOfTwelve "DIV" [("class", "message")].

(** Twelve [<li role="listitem">]. *)
Definition twelveItems : DeepScan.Page := pageOfTwelve "LI" [("role", "listitem")].

(** A manager after [init()] on a first installation, tab 7, and 51
    batches of one fragment each, a second apart. *)
Definition quiet (t : Z) : LiveScanManager.Env :=
  {| LiveScanManager.now := t; LiveScanManager.storageOk := true |}.

Definition ready : LiveScanManager.Manager :=
  LiveScanManager.init (quiet 1000) None LiveScanManager.constructed.

Definition tabSeven : LiveScanManager.Tab :=
  {| LiveScanManager.id := 7; LiveScanManager.url := "https://web.telegram.org/k/" |}.

(** The manager while it monitors [tabSeven]. *)
Definition monitoring : LiveScanManager.Manager :=
  LiveScanManager.perform (quiet 1500)
    (LiveScanManager.CallStart tabSeven "session_1" (LiveScanManager.Delivered true)) ready.

Definition fragmentNo (k : nat) : LiveScanManager.Fragment :=
  {| LiveScanManager.fragmentId := "msg_" +:+ JS.toString 36 (Z.of_nat k);
     LiveScanManager.content := "Message number " +:+ JS.toString 10 (Z.of_nat k) |}.

Definition fiftyOne : list (LiveScanManager.Env * LiveScanManager.Fragment) :=
  map (fun k => (quiet (2000 + 1000 * Z.of_nat k), fragmentNo k)) (seq 1 51).

(** An environment in which every request succeeds. *)
Definition calm (t : Z) (fresh : string) : IndexedDBManager.Env :=
  {| IndexedDBManager.now := t; IndexedDBManager.newId := fresh;
     IndexedDBManager.openEvent := IndexedDBManager.OpenSuccess;
     IndexedDBManager.countFails := false; IndexedDBManager.getAllFails := false;
     IndexedDBManager.urlQueryFails := false; IndexedDBManager.addFails := false;
     IndexedDBManager.cleanupFails := false; IndexedDBManager.clearFails := false;
     IndexedDBManager.chromeGetFails := false; IndexedDBManager.chromeSetFails := false;
     IndexedDBManager.chromeRemoveFails := false |}.

(** The same, except that [indexedDB.open] does what [event] says. *)
Definition opening (event : IndexedDBManager.OpenEvent) (t : Z) : IndexedDBManager.Env :=
  {| IndexedDBManager.now := t; IndexedDBManager.newId := "scan_new";
     IndexedDBManager.openEvent := event;
     IndexedDBManager.countFails := false; IndexedDBManager.getAllFails := false;
     IndexedDBManager.urlQueryFails := false; IndexedDBManager.addFails := false;
     IndexedDBManager.cleanupFails := false; IndexedDBManager.clearFails := false;
     IndexedDBManager.chromeGetFails := false; IndexedDBManager.chromeSetFails := false;
     IndexedDBManager.chromeRemoveFails := false |}.


Definition writeFailing (t : Z) : IndexedDBManager.Env :=
  {| IndexedDBManager.now := t; IndexedDBManager.newId := "scan_new";
     IndexedDBManager.openEvent := IndexedDBManager.OpenSuccess;
     IndexedDBManager.countFails := false; IndexedDBManager.getAllFails := false;
     IndexedDBManager.urlQueryFails := false; IndexedDBManager.addFails := false;
     IndexedDBManager.cleanupFails := false; IndexedDBManager.clearFails := false;
     IndexedDBManager.chromeGetFails := false; IndexedDBManager.chromeSetFails := true;
     IndexedDBManager.chromeRemoveFails := false |}.

Definition scanOf (k u t : string) (ts : Z) : IndexedDBManager.Scan :=
  {| IndexedDBManager.id := k; IndexedDBManager.url := u; IndexedDBManager.title := t;
     IndexedDBManager.timestamp := ts; IndexedDBManager.snippet := "";
     IndexedDBManager.platform := "Web";
     IndexedDBManager.password := ""; IndexedDBManager.token := "";
     IndexedDBManager.apiKey := ""; IndexedDBManager.cookie := "";
     IndexedDBManager.createdAt := ts; IndexedDBManager.version := "1.0" |}.

(** Scan number [k], taken [k] minutes after a fixed instant. *)
Definition scanNo (k : nat) : IndexedDBManager.Scan :=
  scanOf ("scan_" +:+ JS.toString 10 (Z.of_nat k))
         ("https://example.org/page/" +:+ JS.toString 10 (Z.of_nat k))
         "Page" (1700000000000 + 60000 * Z.of_nat k).

(** A store of 1200 scans. *)
Definition bigStore : gmap string IndexedDBManager.Scan :=
  list_to_map (map (fun k => (IndexedDBManager.id (scanNo k), scanNo k)) (seq 1 1200)).

(** Every scan serialises to 200 characters. *)
Definition shortScans : IndexedDBManager.Scan -> Z := fun _ => 200.

(** An initialised manager on the primary store [s]. *)
Definition primary (s : gmap string IndexedDBManager.Scan) : IndexedDBManager.Manager :=
  {| IndexedDBManager.db := true; IndexedDBManager.store := s;
     IndexedDBManager.initialized := true;
     IndexedDBManager.initializationPromise := Some (Resolved tt);
     IndexedDBManager.useFallback := false;
     IndexedDBManager.fallbackInitialized := false;
     IndexedDBManager.chromeScans := [] |}.

(** A manager whose database did not open. *)
Definition openFailed : IndexedDBManager.Manager :=
  snd (IndexedDBManager.init shortScans (opening IndexedDBManager.OpenError 1000)
         (IndexedDBManager.constructed ∅ [])).

(** A stored scan and a later scan of the same page whose title shares
    four of five words with it. *)
Definition firstScan : IndexedDBManager.Scan :=
  scanOf "scan_1" "https://example.org/chat" "alpha beta gamma delta" 1700000000000.

Definition secondScan : IndexedDBManager.Scan :=
  scanOf "" "https://example.org/chat" "alpha beta gamma delta epsilon" 0.

(** A later scan whose title differs from the stored one in case only. *)
Definition sameScan : IndexedDBManager.Scan :=
  scanOf "" "https://example.org/chat" "Alpha Beta Gamma Delta" 0.

(** A scan with neither [url] nor [title]. *)
Definition emptyScan : IndexedDBManager.Scan := scanOf "" "" "" 0.

(** A manager on the fallback whose list is full: scans 500 down to 1,
    newest first. *)
Definition fullFallback : IndexedDBManager.Manager :=
  IndexedDBManager.setChromeScans (map scanNo (rev (seq 1 500))) openFailed.

(** A scan that carries a timestamp older than all of them. *)
Definition oldScan : IndexedDBManager.Scan :=
  scanOf "scan_old" "https://example.org/old" "Old page" 1600000000000.




(** The database handler: a clock and an identifier, the database
    opening and answering. *)
Definition dbEnv : Database.Env :=
  {| Database.now := 1700000000000; Database.newId := "db_1700000000000_k3j9x2m1q";
     Database.openFails := false; Database.requestFails := false |}.

(** The same when the requests on the database fail. *)
Definition dbFailing : Database.Env :=
  {| Database.now := 1700000000000; Database.newId := "db_1700000000000_k3j9x2m1q";
     Database.openFails := false; Database.requestFails := true |}.

Definition dbItem (platform scanType : string) (timestamp : option Z) (messageCount : Z)
    : Database.Item :=
  {| Database.id := ""; Database.timestamp := timestamp; Database.platform := platform;
     Database.scanType := scanType; Database.messageCount := messageCount;
     Database.scanDuration := 40; Database.createdAt := 0; Database.updatedAt := 0;
     Database.itemType := "scan" |}.

(** A database of three scans: an old one, one without platform and
    timestamp, and a recent one. *)
Definition threeScans : Database.State :=
  {| Database.isInitialized := false;
     Database.scans :=
       {[ "db_1" := dbItem "chatgpt" "deep" (Some 1000) 12;
          "db_2" := dbItem "" "live" None 3;
          "db_3" := dbItem "chatgpt" "deep" (Some 1699999999000) 7 ]};
     Database.live_data := ∅; Database.export_history := ∅;
     Database.settings := ∅; Database.analytics := ∅ |}.

(** An update of the platform alone. *)
Definition rename : Database.Updates :=
  {| Database.newTimestamp := None; Database.newPlatform := Some "gemini";
     Database.newScanType := None; Database.newMessageCount := None |}.

End Examples.

(* ################################################################# *)
(** * Properties *)

(* ================================================================= *)
(** ** Fragment identity *)

Section Identity.
Import ContentScript.

Lemma getElementPosition_rounded (rect1 rect2 : Rect) :
  JS.Math_round (top rect1) = JS.Math_round (top rect2) ->
  JS.Math_round (left rect1) = JS.Math_round (left rect2) ->
  getElementPosition (Some rect1) = getElementPosition (Some rect2).
Proof. intros Ht Hl. unfold getElementPosition. now rewrite Ht, Hl. Qed.

Lemma hashPart_prefix (position content1 content2 platform : string) :
  substring 0 50 content1 = substring 0 50 content2 ->
  hashPart position content1 platform = hashPart position content2 platform.
Proof. intros H. unfold hashPart, identityKey. now rewrite H. Qed.

(** C3 fails on the code: the identifier ends in the clock reading, so
    one and the same fragment identified a millisecond later gets
    another identifier, an element and a text node alike.  The sets in
    which the scanner looks an identifier up ([messageCache],
    [seenMessages]) hold whole identifiers, so the second one is not
    found there. *)
Lemma generateMessageId_changes_with_clock :
  generateMessageId (Some {| top := 21 # 2; left := 3 # 1 |}) "Hello there"
                    (Some "ChatGPT") 1700000000000 "" = "msg_71vbv5_loyw3v28" /\
  generateMessageId (Some {| top := 21 # 2; left := 3 # 1 |}) "Hello there"
                    (Some "ChatGPT") 1700000000001 "" = "msg_71vbv5_loyw3v29" /\
  generateMessageId None "Hello there" (Some "ChatGPT") 1700000000000 ""
    = "msg_qsyo30_loyw3v28" /\
  generateMessageId None "Hello there" (Some "ChatGPT") 1700000000001 ""
    = "msg_qsyo30_loyw3v29" /\
  "msg_71vbv5_loyw3v29" ∉ ({[ "msg_71vbv5_loyw3v28" ]} : gset string).
Proof. repeat split; try (vm_compute; reflexivity). set_solver. Qed.

(** What the identifiers of two such fragments do share: with the same
    first 50 characters of content, the same rounded position and the
    same platform tag they have the same hash part, ["msg_" + hash],
    each followed by the clock reading in base 36; they are equal when
    both are computed at the same clock reading. *)
Lemma generateMessageId_same_fragment
    (rect1 rect2 : Rect) (content1 content2 platform : string)
    (now1 now2 : Z) (rand1 rand2 : string) :
  substring 0 50 content1 = substring 0 50 content2 ->
  JS.Math_round (top rect1) = JS.Math_round (top rect2) ->
  JS.Math_round (left rect1) = JS.Math_round (left rect2) ->
  exists h,
    h = hashPart (getElementPosition (Some rect1)) content1 platform /\
    generateMessageId (Some rect1) content1 (Some platform) now1 rand1
      = h +:+ "_" +:+ JS.toString 36 now1 /\
    generateMessageId (Some rect2) content2 (Some platform) now2 rand2
      = h +:+ "_" +:+ JS.toString 36 now2 /\
    (now1 = now2 ->
     generateMessageId (Some rect1) content1 (Some platform) now1 rand1
       = generateMessageId (Some rect2) content2 (Some platform) now2 rand2).
Proof.
  intros Hc Ht Hl.
  pose proof (getElementPosition_rounded rect1 rect2 Ht Hl) as Hp.
  exists (hashPart (getElementPosition (Some rect1)) content1 platform).
  unfold generateMessageId. rewrite <- Hp.
  rewrite <- (hashPart_prefix _ content1 content2 platform Hc).
  repeat split; auto. intros ->. reflexivity.
Qed.

Lemma generateMessageId_same_fragment_witness :
  substring 0 50 "The quick brown fox jumps over the lazy dog, and then it rests."
    = substring 0 50 "The quick brown fox jumps over the lazy dog, and then it leaves." /\
  JS.Math_round (21 # 2) = JS.Math_round (43 # 4) /\
  JS.Math_round (3 # 1) = JS.Math_round (16 # 5) /\
  generateMessageId (Some {| top := 21 # 2; left := 3 # 1 |})
      "The quick brown fox jumps over the lazy dog, and then it rests."
      (Some "ChatGPT") 1700000000000 "k3x9"
  = generateMessageId (Some {| top := 43 # 4; left := 16 # 5 |})
      "The quick brown fox jumps over the lazy dog, and then it leaves."
      (Some "ChatGPT") 1700000000000 "p0q1".
Proof.
  split; [reflexivity | split; [reflexivity | split; [reflexivity | ]]].
  destruct (generateMessageId_same_fragment
              {| top := 21 # 2; left := 3 # 1 |} {| top := 43 # 4; left := 16 # 5 |}
              "The quick brown fox jumps over the lazy dog, and then it rests."
              "The quick brown fox jumps over the lazy dog, and then it leaves."
              "ChatGPT" 1700000000000 1700000000000 "k3x9" "p0q1"
              eq_refl eq_refl eq_refl) as (h & _ & _ & _ & Heq).
  exact (Heq eq_refl).
Defined.

End Identity.

(* ================================================================= *)
(** ** Deep scan: message count and checksum *)

Section DeepScanFacts.
Import DeepScan.

Lemma slice_from_start {A} (n : nat) (l : list A) : JS.slice 0 n l = firstn n l.
Proof. unfold JS.slice. now rewrite Nat.sub_0_r. Qed.

(** Matches counted selector by selector are matches counted element
    by element. *)
Lemma matches_by_element {B} (keep : Element -> bool) (mk : Selector -> Element -> B)
    (sels : list Selector) (el : Element) (els : list Element) :
  length (flat_map (fun s => map (mk s) (List.filter keep (List.filter (matches s) (el :: els)))) sels)
  = ((if keep el then length (List.filter (fun s => matches s el) sels) else 0)
     + length (flat_map (fun s => map (mk s) (List.filter keep (List.filter (matches s) els))) sels))%nat.
Proof.
  induction sels as [|s sels IH].
  - simpl. now destruct (keep el).
  - cbn [flat_map]. rewrite !length_app, IH, !length_map. clear IH.
    cbn [List.filter]. destruct (matches s el) eqn:Hm; cbn [List.filter];
      destruct (keep el); cbn [length]; lia.
Qed.

Lemma matches_none {B} (keep : Element -> bool) (mk : Selector -> Element -> B)
    (sels : list Selector) :
  length (flat_map (fun s => map (mk s) (List.filter keep (List.filter (matches s) []))) sels) = 0%nat.
Proof. induction sels; simpl; auto. Qed.

Lemma filter_length_existsb {A} (f : A -> bool) (l : list A) :
  (length (List.filter f l) <= 1)%nat ->
  length (List.filter f l) = if existsb f l then 1%nat else 0%nat.
Proof.
  induction l as [|a l IH]; simpl; auto.
  destruct (f a); simpl; intros H.
  - lia.
  - auto.
Qed.

Lemma count_single_selector {B} (keep : Element -> bool) (mk : Selector -> Element -> B)
    (sels : list Selector) (els : list Element) :
  forallb (fun el => negb (keep el) ||
                     (length (List.filter (fun s => matches s el) sels) <=? 1)%nat) els = true ->
  length (flat_map (fun s => map (mk s) (List.filter keep (List.filter (matches s) els))) sels)
  = length (List.filter (fun el => keep el && existsb (fun s => matches s el) sels) els).
Proof.
  induction els as [|el els IH]; intros Hall.
  - apply matches_none.
  - cbn [forallb] in Hall. apply andb_prop in Hall as [Hel Hall].
    rewrite matches_by_element, (IH Hall). cbn [List.filter].
    destruct (keep el); cbn [negb orb andb] in *; auto.
    apply Nat.leb_le in Hel.
    rewrite (filter_length_existsb _ _ Hel).
    destruct (existsb _ sels); cbn [length]; lia.
Qed.

(** The count in general: every match of every message selector,
    cut at [maxElements]. *)
Lemma messageCount_counts_matches (p : Page) (tab : option Tab) (t0 t1 t2 : Z) :
  messageCount (performDeepScan p tab t0 t1 t2)
  = Z.of_nat (Nat.min maxElements
      (length (flat_map (fun s => List.filter (isMessage p) (querySelectorAll p s))
                        messageSelectors))).
Proof.
  unfold performDeepScan, extractMessages, querySelectorAll. cbn [messageCount].
  rewrite slice_from_start, length_firstn. f_equal. f_equal.
  induction messageSelectors as [|s l IH]; simpl; auto.
  now rewrite !length_app, length_map, IH.
Qed.

(** C9, as stated, fails on a page of twelve [<div class="message">]:
    the class selector and the attribute selector both match each of
    them, so the scan counts 24 messages for 12 extractable elements;
    and a second scan one second later has another checksum, because
    the snapshot that is hashed holds its own capture time. *)
Lemma performDeepScan_twelve_divs :
  length (extractable Examples.twelveDivs) = 12%nat /\
  messageCount (performDeepScan Examples.twelveDivs None 1000 1001 1002) = 24 /\
  checksum (performDeepScan Examples.twelveDivs None 1000 1001 1002) = "s9reuo" /\
  checksum (performDeepScan Examples.twelveDivs None 2000 2001 2002) = "j87wvl".
Proof.
  split; [ | split; [ | split]]; vm_compute; reflexivity.
Qed.

(** C9, amended: two deep scans of an unmodified page whose snapshots
    carry the same clock reading have the same checksum; and when no
    extractable element is matched by more than one message selector
    and there are at most 1000 of them, each scan's messageCount is the
    number of extractable elements. *)
Theorem performDeepScan_repeatable (p : Page) (tab1 tab2 : option Tab)
    (start1 snap1 end1 start2 snap2 end2 : Z) :
  snap1 = snap2 ->
  singleSelector p = true ->
  (length (extractable p) <= maxElements)%nat ->
  checksum (performDeepScan p tab1 start1 snap1 end1)
    = checksum (performDeepScan p tab2 start2 snap2 end2) /\
  messageCount (performDeepScan p tab1 start1 snap1 end1) = Z.of_nat (length (extractable p)) /\
  messageCount (performDeepScan p tab2 start2 snap2 end2) = Z.of_nat (length (extractable p)).
Proof.
  intros -> Hsingle Hmax.
  assert (Hcount : forall tab t0 t1 t2,
             messageCount (performDeepScan p tab t0 t1 t2) = Z.of_nat (length (extractable p))).
  { intros. unfold performDeepScan, extractMessages, querySelectorAll. cbn [messageCount].
    rewrite slice_from_start, length_firstn.
    rewrite (count_single_selector (isMessage p) _ messageSelectors (elements p) Hsingle).
    f_equal. apply Nat.min_r. exact Hmax. }
  split; [reflexivity | split; apply Hcount].
Qed.

Lemma performDeepScan_repeatable_witness :
  singleSelector Examples.twelveItems = true /\
  (length (extractable Examples.twelveItems) <= maxElements)%nat /\
  checksum (performDeepScan Examples.twelveItems None 1000 1001 1002)
    = checksum (performDeepScan Examples.twelveItems None 2000 1001 2002) /\
  messageCount (performDeepScan Examples.twelveItems None 1000 1001 1002) = 12.
Proof.
  assert (Hs : singleSelector Examples.twelveItems = true) by (vm_compute; reflexivity).
  assert (Hm : (length (extractable Examples.twelveItems) <= maxElements)%nat)
    by (vm_compute; lia).
  destruct (performDeepScan_repeatable Examples.twelveItems None None
              1000 1001 1002 2000 1001 2002 eq_refl Hs Hm) as (Hc & Hn & _).
  split; [exact Hs | split; [exact Hm | split; [exact Hc | ]]].
  rewrite Hn. vm_compute. reflexivity.
Defined.

End DeepScanFacts.

(* ================================================================= *)
(** ** Live sessions: buffering and flushing *)

Section LiveFacts.
Import LiveScanManager.

(** Reduce the manager's fields and leave the maps alone. *)
Ltac fields :=
  cbn [isInitialized maxBufferSize sessions messageBuffer chunks savedSessions flushCalls
       withSessions withBuffer storeChunk countFlush fst snd from_option Datatypes.id negb
       tab id url sessionId status messageCount lastActivity startTime endTime
       chunkMessages chunkSession chunkTabId length app] in *.

Ltac tracked :=
  unfold tracking; fields;
  split; [auto | split; [auto | split;
    [eexists; rewrite ?lookup_insert_eq; repeat split; eauto
    | rewrite ?lookup_insert_eq; auto]]].

Lemma start_tracks (env : Env) (t : Tab) (sid : string) (m : Manager) :
  isInitialized m = true -> maxBufferSize m = 50 ->
  let m' := snd (startMonitoring env t sid (Delivered true) m) in
  fst (startMonitoring env t sid (Delivered true) m)
    = Ok {| startSuccess := true; startedSession := sid |} /\
  tracking m' (id t) sid [] /\ chunks m' = chunks m /\ flushCalls m' = flushCalls m.
Proof.
  intros Hi Hmax. unfold startMonitoring. rewrite Hi. fields.
  split; [reflexivity | split; [ | split; reflexivity]].
  tracked.
Qed.

(** One fragment that leaves the buffer below the limit is kept. *)
Lemma handle_below (env : Env) (f : Fragment) (t : Z) (sid : string)
    (buf : list Fragment) (m : Manager) :
  tracking m t sid buf -> (length buf + 1 < 50)%nat ->
  let m' := handleLiveScanData env [f] t m in
  tracking m' t sid (buf ++ [f]) /\ chunks m' = chunks m /\ flushCalls m' = flushCalls m.
Proof.
  intros (Hi & Hmax & (s & Hs & Hact & Hsid) & Hbuf) Hlen.
  unfold handleLiveScanData. rewrite Hi, Hs, Hact. fields.
  unfold bufferMessages. fields. rewrite Hbuf, Hmax. fields.
  destruct (Z.leb_spec 50 (Z.of_nat (length (buf ++ [f])))) as [Hge|Hlt].
  { rewrite length_app in Hge. cbn in Hge. lia. }
  destruct (_ =? 0); unfold saveSessionState; try destruct (storageOk env); fields;
    (split; [tracked | split; reflexivity]).
Qed.

(** The fragment that fills the buffer is flushed with it. *)
Lemma handle_full (env : Env) (f : Fragment) (t : Z) (sid : string)
    (buf : list Fragment) (m : Manager) :
  tracking m t sid buf -> length buf = 49%nat ->
  let m' := handleLiveScanData env [f] t m in
  tracking m' t sid [] /\ flushCalls m' = S (flushCalls m) /\
  exists c, chunks m' = chunks m ++ [c] /\ chunkMessages c = buf ++ [f] /\
            chunkSession c = sid /\ chunkTabId c = t.
Proof.
  intros (Hi & Hmax & (s & Hs & Hact & Hsid) & Hbuf) Hlen.
  unfold handleLiveScanData. rewrite Hi, Hs, Hact. fields.
  unfold bufferMessages. fields. rewrite Hbuf, Hmax. fields.
  destruct (Z.leb_spec 50 (Z.of_nat (length (buf ++ [f])))) as [Hge|Hlt].
  2:{ rewrite length_app in Hlt. cbn in Hlt. lia. }
  unfold flushBuffer. fields. rewrite !lookup_insert_eq.
  destruct (buf ++ [f]) as [|x rest] eqn:Hnil.
  { destruct buf; discriminate. }
  destruct (_ =? 0); unfold saveSessionState; try destruct (storageOk env); fields;
    (split; [tracked | split; [reflexivity | eexists; repeat split; eauto]]).
Qed.

Lemma feed_below (t : Z) (sid : string) (batches : list (Env * Fragment)) :
  forall (buf : list Fragment) (m : Manager),
  tracking m t sid buf -> (length buf + length batches < 50)%nat ->
  tracking (feed t batches m) t sid (buf ++ map snd batches) /\
  chunks (feed t batches m) = chunks m /\ flushCalls (feed t batches m) = flushCalls m.
Proof.
  induction batches as [|b batches IH]; intros buf m Htr Hlen.
  - cbn. now rewrite app_nil_r.
  - cbn in Hlen. cbn [feed fold_left].
    destruct (handle_below (fst b) (snd b) t sid buf m Htr ltac:(lia)) as (Htr' & Hc & Hf).
    destruct (IH (buf ++ [snd b]) _ Htr') as (Htr'' & Hc' & Hf').
    { rewrite length_app. cbn. lia. }
    unfold feed in *. rewrite Hc', Hf', Hc, Hf.
    rewrite <- app_assoc in Htr''. auto.
Qed.

Lemma feed_app (t : Z) (l1 l2 : list (Env * Fragment)) (m : Manager) :
  feed t (l1 ++ l2) m = feed t l2 (feed t l1 m).
Proof. unfold feed. apply fold_left_app. Qed.

(** Stopping a tracked tab flushes what the buffer holds. *)
Lemma stop_flushes (env : Env) (t : Tab) (ack : bool) (sid : string)
    (buf : list Fragment) (m : Manager) :
  tracking m (id t) sid buf -> buf <> [] ->
  let m' := snd (stopMonitoring env t (Delivered ack) m) in
  fst (stopMonitoring env t (Delivered ack) m) = Ok {| stopSuccess := true |} /\
  flushCalls m' = S (flushCalls m) /\ sessions m' !! id t = None /\
  exists c, chunks m' = chunks m ++ [c] /\ chunkMessages c = buf /\ chunkSession c = sid.
Proof.
  intros (Hi & Hmax & (s & Hs & Hact & Hsid) & Hbuf) Hne.
  unfold stopMonitoring. rewrite Hi. fields.
  split; [reflexivity | ].
  unfold cleanupSession. rewrite Hs. unfold flushBuffer. fields. rewrite Hbuf, Hs.
  destruct buf as [|x rest]; [contradiction | ].
  unfold saveSessionState. destruct (storageOk env); fields; rewrite lookup_delete_eq;
    (split; [reflexivity | split; [reflexivity | ]]); eexists; repeat split; eauto.
Qed.


(** C6: after a live session starts on a tab, 51 fragments buffered one
    at a time and then a stop make exactly two flushes.  The first 49
    fragments cause none; the 50th brings the buffer to the configured
    maximum of 50 and is flushed with it; the stop flushes the one
    fragment that remains. *)
Theorem fifty_one_fragments_two_flushes (m : Manager) (t : Tab) (sid : string)
    (env0 env1 : Env) (batches : list (Env * Fragment)) (ack : bool) :
  isInitialized m = true -> maxBufferSize m = 50 -> length batches = 51%nat ->
  let started := snd (startMonitoring env0 t sid (Delivered true) m) in
  let fed49 := feed (id t) (firstn 49 batches) started in
  let fed := feed (id t) batches started in
  let stopped := snd (stopMonitoring env1 t (Delivered ack) fed) in
  flushCalls fed49 = flushCalls m /\ chunks fed49 = chunks m /\
  flushCalls fed = S (flushCalls m) /\
  flushCalls stopped = S (S (flushCalls m)) /\
  exists c1 c2,
    chunks fed = chunks m ++ [c1] /\
    chunks stopped = chunks m ++ [c1; c2] /\
    chunkMessages c1 = map snd (firstn 50 batches) /\
    chunkMessages c2 = map snd (skipn 50 batches) /\
    length (chunkMessages c1) = 50%nat /\ length (chunkMessages c2) = 1%nat.
Proof.
  intros Hi Hmax Hlen started fed49 fed stopped.
  destruct (start_tracks env0 t sid m Hi Hmax) as (_ & Htr0 & Hc0 & Hf0).
  fold started in Htr0, Hc0, Hf0.
  assert (Hsplit : exists b49 x50 x51,
             batches = b49 ++ [x50; x51] /\ length b49 = 49%nat).
  { exists (firstn 49 batches).
    pose proof (firstn_skipn 49 batches) as Hfs.
    assert (Hl : length (skipn 49 batches) = 2%nat) by (rewrite length_skipn; lia).
    destruct (skipn 49 batches) as [|x50 [|x51 [|? ?]]]; try discriminate.
    exists x50, x51. split; [now symmetry | rewrite length_firstn; lia]. }
  destruct Hsplit as (b49 & x50 & x51 & -> & H49).
  assert (Hfirst : firstn 49 (b49 ++ [x50; x51]) = b49).
  { rewrite firstn_app, H49, Nat.sub_diag. cbn [firstn].
    rewrite app_nil_r. rewrite <- H49. apply firstn_all. }
  assert (Hfifty : firstn 50 (b49 ++ [x50; x51]) = b49 ++ [x50]).
  { rewrite firstn_app, H49. replace (50 - 49)%nat with 1%nat by lia. cbn [firstn].
    f_equal. rewrite <- H49. apply firstn_all2. lia. }
  assert (Hrest : skipn 50 (b49 ++ [x50; x51]) = [x51]).
  { rewrite skipn_app, H49. replace (50 - 49)%nat with 1%nat by lia. cbn [skipn].
    rewrite skipn_all2 by lia. reflexivity. }
  subst fed49. rewrite Hfirst.
  destruct (feed_below (id t) sid b49 [] started Htr0 ltac:(cbn; lia)) as (Htr1 & Hc1 & Hf1).
  cbn [app] in Htr1.
  destruct (handle_full (fst x50) (snd x50) (id t) sid (map snd b49) _ Htr1
              ltac:(now rewrite length_map)) as (Htr2 & Hf2 & c1 & Hc2 & Hm1 & _).
  destruct (handle_below (fst x51) (snd x51) (id t) sid [] _ Htr2 ltac:(cbn; lia))
    as (Htr3 & Hc3 & Hf3).
  assert (Hfed : fed = handleLiveScanData (fst x51) [snd x51] (id t)
                         (handleLiveScanData (fst x50) [snd x50] (id t)
                            (feed (id t) b49 started))).
  { subst fed. rewrite feed_app. reflexivity. }
  cbn [app] in Htr3.
  rewrite <- Hfed in Htr3, Hc3, Hf3.
  destruct (stop_flushes env1 t ack sid [snd x51] fed Htr3 ltac:(discriminate))
    as (_ & Hf4 & _ & c2 & Hc4 & Hm2 & _).
  fold stopped in Hf4, Hc4.
  split; [congruence | split; [congruence | split; [congruence | split; [congruence | ]]]].
  exists c1, c2. rewrite Hfifty, Hrest.
  split; [congruence | ].
  split. { rewrite Hc4, Hc3, Hc2, Hc1, Hc0, <- app_assoc. reflexivity. }
  split. { rewrite Hm1, map_app. reflexivity. }
  split. { rewrite Hm2. reflexivity. }
  split. { rewrite Hm1, length_app, length_map, H49. reflexivity. }
  rewrite Hm2. reflexivity.
Qed.


Lemma fifty_one_fragments_two_flushes_witness :
  isInitialized Examples.ready = true /\ maxBufferSize Examples.ready = 50 /\
  length Examples.fiftyOne = 51%nat /\
  flushCalls
    (snd (stopMonitoring (Examples.quiet 99000) Examples.tabSeven (Delivered true)
       (feed 7 Examples.fiftyOne
          (snd (startMonitoring (Examples.quiet 1500) Examples.tabSeven "session_1"
                  (Delivered true) Examples.ready))))) = 2%nat.
Proof.
  assert (Hi : isInitialized Examples.ready = true) by reflexivity.
  assert (Hm : maxBufferSize Examples.ready = 50) by reflexivity.
  assert (Hl : length Examples.fiftyOne = 51%nat) by reflexivity.
  split; [exact Hi | split; [exact Hm | split; [exact Hl | ]]].
  destruct (fifty_one_fragments_two_flushes Examples.ready Examples.tabSeven "session_1"
              (Examples.quiet 1500) (Examples.quiet 99000) Examples.fiftyOne true Hi Hm Hl)
    as (_ & _ & _ & Hstop & _).
  exact Hstop.
Defined.

(* ================================================================= *)
(** ** Live sessions: the life of a session *)

Lemma cleanupSession_absent (env : Env) (t : Z) (m : Manager) :
  sessions m !! t = None -> cleanupSession env t m = m.
Proof. intros H. unfold cleanupSession. now rewrite H. Qed.

Lemma flushBuffer_sessions (env : Env) (t : Z) (m : Manager) :
  sessions (flushBuffer env t m) = sessions m /\
  savedSessions (flushBuffer env t m) = savedSessions m /\
  isInitialized (flushBuffer env t m) = isInitialized m.
Proof.
  unfold flushBuffer. fields.
  destruct (messageBuffer m !! t) as [[|x l]|]; fields; auto.
  destruct (sessions m !! t); fields; auto.
Qed.

Lemma cleanupSession_sessions (env : Env) (t : Z) (m : Manager) :
  sessions (cleanupSession env t m) = delete t (sessions m) /\
  isInitialized (cleanupSession env t m) = isInitialized m.
Proof.
  unfold cleanupSession. destruct (sessions m !! t) as [s|] eqn:Hs.
  - destruct (flushBuffer_sessions env t m) as (Hfs & _ & Hfi).
    unfold saveSessionState. destruct (storageOk env); fields; now rewrite Hfs, Hfi.
  - split; [ | reflexivity]. symmetry. now apply delete_id.
Qed.

(** What [cleanupSession] stores: the stopped copy of a session the
    manager holds, under that session's tab. *)
Lemma cleanupSession_saved (env : Env) (t : Z) (m : Manager) (k : Z) (s' : Session) :
  savedSessions (cleanupSession env t m) !! k = Some s' ->
  savedSessions m !! k = Some s' \/
  (status s' = stopped /\
   exists s, sessions m !! t = Some s /\ k = id (tab s) /\ tab s' = tab s).
Proof.
  unfold cleanupSession. destruct (sessions m !! t) as [s|] eqn:Hs; [ | auto].
  destruct (flushBuffer_sessions env t m) as (_ & Hfv & _).
  unfold saveSessionState. destruct (storageOk env); fields; rewrite Hfv; [ | auto].
  intros [[<- <-]|[_ H]]%lookup_insert_Some; [right | now left].
  fields. split; [reflexivity | ]. eexists. repeat split.
Qed.

Lemma cleanupSession_consistent (env : Env) (t : Z) (m : Manager) :
  consistent m -> consistent (cleanupSession env t m).
Proof.
  intros [Hs Hv]. split.
  - intros k s. destruct (cleanupSession_sessions env t m) as [-> _].
    intros [_ H]%lookup_delete_Some. now apply Hs.
  - intros k s' [H|(_ & s & Hk & -> & ->)]%cleanupSession_saved.
    + now apply Hv.
    + reflexivity.
Qed.

Lemma cleanupSession_stoppedFromHeld (env : Env) (t : Z) (m : Manager) :
  consistent m -> stoppedFromHeld m (cleanupSession env t m).
Proof.
  intros [Hs Hv] k s' [H|(Hst & s & Hk & -> & _)]%cleanupSession_saved; [now left | right].
  split; [exact Hst | ]. destruct (Hs _ _ Hk) as [Ha Hid].
  exists s. rewrite Hid. auto.
Qed.

Lemma sweep_spec (env : Env) (tabs : list Z) (m : Manager) :
  consistent m ->
  consistent (foldr (cleanupSession env) m tabs) /\
  (forall k s, sessions (foldr (cleanupSession env) m tabs) !! k = Some s ->
               sessions m !! k = Some s) /\
  stoppedFromHeld m (foldr (cleanupSession env) m tabs).
Proof.
  intros Hc. induction tabs as [|t tabs (IHc & IHs & IHv)]; cbn [foldr].
  - split; [exact Hc | split; [auto | ]]. intros k s' H. now left.
  - split; [now apply cleanupSession_consistent | split].
    + intros k s. destruct (cleanupSession_sessions env t (foldr (cleanupSession env) m tabs))
        as [-> _].
      intros [_ H]%lookup_delete_Some. now apply IHs.
    + intros k s' [H|(Hst & s & Hk & Ha)]%(cleanupSession_stoppedFromHeld env t _ IHc).
      * now apply IHv.
      * right. split; [exact Hst | ]. exists s. split; [now apply IHs | exact Ha].
Qed.

Lemma stoppedFromHeld_fromActive (m m' : Manager) :
  stoppedFromHeld m m' -> fromActive m m'.
Proof.
  intros H t s' Hl _. destruct (H t s' Hl) as [?|?]; [now left | right; now left].
Qed.

Lemma fromActive_same (m m' : Manager) :
  savedSessions m' = savedSessions m -> fromActive m m'.
Proof. intros H t s' Hl _. left. now rewrite <- H. Qed.


Lemma bufferMessages_frame (env : Env) (t : Z) (messages : list Fragment) (m : Manager) :
  sessions (bufferMessages env t messages m) = sessions m /\
  savedSessions (bufferMessages env t messages m) = savedSessions m.
Proof.
  unfold bufferMessages. fields. destruct (_ <=? _); fields; auto.
  match goal with |- context [flushBuffer env t ?x] =>
    destruct (flushBuffer_sessions env t x) as (-> & -> & _) end.
  fields. auto.
Qed.

Lemma handleLiveScanData_spec (env : Env) (messages : list Fragment) (t : Z) (m : Manager) :
  consistent m ->
  consistent (handleLiveScanData env messages t m) /\
  fromActive m (handleLiveScanData env messages t m).
Proof.
  intros [Hs Hv]. unfold handleLiveScanData.
  destruct (isInitialized m); fields; [ | split; [now split | now apply fromActive_same]].
  destruct (sessions m !! t) as [s|] eqn:Hl; [ | split; [now split | now apply fromActive_same]].
  destruct (status s) eqn:Hst; try (split; [now split | now apply fromActive_same]).
  destruct (Hs _ _ Hl) as [_ Hid].
  match goal with |- context [bufferMessages env t messages ?x] =>
    destruct (bufferMessages_frame env t messages x) as (Hbs & Hbv);
    set (mb := bufferMessages env t messages x) in * end.
  fields.
  assert (Hsess : forall k s0, sessions mb !! k = Some s0 -> status s0 = active /\ id (tab s0) = k).
  { intros k s0. rewrite Hbs. intros [[<- <-]|[_ H]]%lookup_insert_Some; [ | now apply Hs].
    fields. auto. }
  destruct (_ =? 0); [ | split; [split; [exact Hsess | now rewrite Hbv]
                               | apply fromActive_same; now rewrite Hbv]].
  unfold saveSessionState. destruct (storageOk env);
    [ | split; [split; [exact Hsess | now rewrite Hbv]
              | apply fromActive_same; now rewrite Hbv]].
  fields. split; [split; [exact Hsess | ] | ].
  - intros k s0. fields. rewrite ?Hbv.
    intros [[<- <-]|[_ H]]%lookup_insert_Some; [reflexivity | now apply Hv].
  - intros k s0. fields. rewrite ?Hbv.
    intros [[<- <-]|[_ H]]%lookup_insert_Some Hna; [ | now left].
    fields. contradiction.
Qed.

Lemma handleLiveScanMessage_spec (env : Env) (t : Z) (m : Manager) :
  consistent m ->
  consistent (handleLiveScanMessage env t m) /\
  fromActive m (handleLiveScanMessage env t m).
Proof.
  intros [Hs Hv]. unfold handleLiveScanMessage.
  destruct (isInitialized m); fields; [ | split; [now split | now apply fromActive_same]].
  destruct (sessions m !! t) as [s|] eqn:Hl; [ | split; [now split | now apply fromActive_same]].
  split; [ | now apply fromActive_same].
  split; fields; [ | exact Hv].
  intros k s0 [[<- <-]|[_ H]]%lookup_insert_Some; [ | now apply Hs].
  fields. now apply Hs.
Qed.

Lemma startMonitoring_spec (env : Env) (t : Tab) (sid : string) (reply : TabReply)
    (m : Manager) :
  consistent m ->
  consistent (snd (startMonitoring env t sid reply m)) /\
  fromActive m (snd (startMonitoring env t sid reply m)).
Proof.
  intros Hc. unfold startMonitoring.
  destruct (isInitialized m); fields; [ | split; [exact Hc | now apply fromActive_same]].
  destruct reply as [[|]|e]; fields;
    try (split; [now apply cleanupSession_consistent
                | now apply stoppedFromHeld_fromActive, cleanupSession_stoppedFromHeld]).
  destruct Hc as [Hs Hv]. split; [ | now apply fromActive_same].
  split; fields; [ | exact Hv].
  intros k s0 [[<- <-]|[_ H]]%lookup_insert_Some; [ | now apply Hs].
  fields. auto.
Qed.

Lemma stopMonitoring_spec (env : Env) (t : Tab) (reply : TabReply) (m : Manager) :
  consistent m ->
  consistent (snd (stopMonitoring env t reply m)) /\
  fromActive m (snd (stopMonitoring env t reply m)).
Proof.
  intros Hc. unfold stopMonitoring.
  destruct (isInitialized m); fields; [ | split; [exact Hc | now apply fromActive_same]].
  destruct reply as [b|e]; fields; [ | split; [exact Hc | now apply fromActive_same]].
  split; [now apply cleanupSession_consistent
         | now apply stoppedFromHeld_fromActive, cleanupSession_stoppedFromHeld].
Qed.

Lemma sweep_fromActive (env : Env) (maxInactiveTime : Z) (m : Manager) :
  consistent m ->
  consistent (snd (cleanupInactiveSessions env maxInactiveTime m)) /\
  fromActive m (snd (cleanupInactiveSessions env maxInactiveTime m)).
Proof.
  intros Hc. unfold cleanupInactiveSessions. fields.
  destruct (sweep_spec env (inactiveTabs env maxInactiveTime m) m Hc) as (H1 & _ & H3).
  split; [exact H1 | now apply stoppedFromHeld_fromActive].
Qed.

Lemma restoreSessions_restored (env : Env) (m : Manager) :
  storageOk env = true ->
  restored m (restoreSessions env m) (savedSessions m).
Proof.
  intros Hok. unfold restoreSessions. rewrite Hok.
  apply (map_fold_weak_ind (restored m)).
  - split; intros; now left.
  - intros i x seen r Hnone [Hs Hv]. unfold restoreOne.
    assert (Hmono : forall t s, seen !! t = Some s -> <[i:=x]> seen !! t = Some s).
    { intros t s H. rewrite lookup_insert_ne; [exact H | ]. intros ->. congruence. }
    destruct (status x) eqn:Hst.
    + destruct (_ <? _); split; fields.
      * intros t s [[<- <-]|[_ H]]%lookup_insert_Some.
        -- right. now rewrite lookup_insert_eq.
        -- destruct (Hs _ _ H) as [?|[? ?]]; [now left | right; auto].
      * intros t s' H. destruct (Hv _ _ H) as [?|(? & s & ? & ? & ?)]; [now left | right].
        split; [assumption | ]. exists s. auto.
      * intros t s H. destruct (Hs _ _ H) as [?|[? ?]]; [now left | right; auto].
      * intros t s' [[<- <-]|[_ H]]%lookup_insert_Some.
        -- right. fields. split; [reflexivity | ]. exists x. now rewrite lookup_insert_eq.
        -- destruct (Hv _ _ H) as [?|(? & s & ? & ? & ?)]; [now left | right].
           split; [assumption | ]. exists s. auto.
    + split.
      * intros t s H. destruct (Hs _ _ H) as [?|[? ?]]; [now left | right; auto].
      * intros t s' H. destruct (Hv _ _ H) as [?|(? & s & ? & ? & ?)]; [now left | right].
        split; [assumption | ]. exists s. auto.
    + split.
      * intros t s H. destruct (Hs _ _ H) as [?|[? ?]]; [now left | right; auto].
      * intros t s' H. destruct (Hv _ _ H) as [?|(? & s & ? & ? & ?)]; [now left | right].
        split; [assumption | ]. exists s. auto.
Qed.

Lemma restoreSessions_spec (env : Env) (m : Manager) :
  consistent m ->
  consistent (restoreSessions env m) /\ fromActive m (restoreSessions env m).
Proof.
  intros [Hs Hv]. destruct (storageOk env) eqn:Hok.
  2:{ unfold restoreSessions. rewrite Hok. split; [now split | now apply fromActive_same]. }
  destruct (restoreSessions_restored env m Hok) as [Rs Rv]. split; [split | ].
  - intros t s H. destruct (Rs _ _ H) as [?|[? ?]]; [now apply Hs | ].
    split; [assumption | now apply Hv].
  - intros t s' H. destruct (Rv _ _ H) as [?|(_ & s & ? & _ & ->)]; now apply Hv.
  - intros t s' H _. destruct (Rv _ _ H) as [?|(? & s & ? & ? & _)]; [now left | ].
    right; right. split; [assumption | ]. exists s. auto.
Qed.

Lemma init_spec (env : Env) (savedMax : option Z) (m : Manager) :
  consistent m ->
  consistent (init env savedMax m) /\ fromActive m (init env savedMax m).
Proof.
  intros Hc. unfold init.
  destruct (isInitialized m); [split; [exact Hc | now apply fromActive_same] | ].
  destruct (restoreSessions_spec env (updateConfig savedMax m) Hc) as [[H1 H2] H3].
  split; [split; fields; assumption | ].
  intros t s' H Hna. fields. exact (H3 t s' H Hna).
Qed.

Lemma perform_spec (env : Env) (c : Call) (m : Manager) :
  consistent m -> consistent (perform env c m) /\ fromActive m (perform env c m).
Proof.
  intros Hc. destruct c; cbn [perform].
  - now apply init_spec.
  - split; [exact Hc | now apply fromActive_same].
  - now apply startMonitoring_spec.
  - now apply stopMonitoring_spec.
  - now apply handleLiveScanData_spec.
  - now apply handleLiveScanMessage_spec.
  - now apply sweep_fromActive.
  - split; [ | now apply fromActive_same].
    destruct Hc as [_ Hv]. split; [ | exact Hv].
    intros t s. cbn [restart sessions]. now rewrite lookup_empty.
Qed.

Lemma reachable_consistent (m : Manager) : reachable m -> consistent m.
Proof.
  induction 1 as [|env c m _ IH].
  - split; intros t s; cbn [constructed sessions savedSessions]; now rewrite lookup_empty.
  - now apply perform_spec.
Qed.

Lemma stop_again (env1 env2 : Env) (t : Tab) (ack1 ack2 : bool) (m : Manager) :
  isInitialized m = true ->
  stopMonitoring env2 t (Delivered ack2) (snd (stopMonitoring env1 t (Delivered ack1) m))
  = (Ok {| stopSuccess := true |}, snd (stopMonitoring env1 t (Delivered ack1) m)).
Proof.
  intros Hi. unfold stopMonitoring at 2 3. rewrite Hi. fields.
  destruct (cleanupSession_sessions env1 (id t) m) as [Hs Hi'].
  unfold stopMonitoring. rewrite Hi', Hi. fields.
  rewrite cleanupSession_absent; [reflexivity | ].
  rewrite Hs. apply lookup_delete_eq.
Qed.


(** C7, as stated, fails: a second stop of the same tab answers
    [{success: true}], in the manager and in the page alike. *)
Lemma stop_after_stop_reports_success :
  fst (stopMonitoring (Examples.quiet 99500) Examples.tabSeven (Delivered true)
         (snd (stopMonitoring (Examples.quiet 99000) Examples.tabSeven (Delivered true)
            (snd (startMonitoring (Examples.quiet 1500) Examples.tabSeven "session_1"
                    (Delivered true) Examples.ready)))))
    = Ok {| stopSuccess := true |} /\
  LiveSwitch.success
    (fst (LiveSwitch.stopLiveScan
       (snd (LiveSwitch.stopLiveScan
          {| LiveSwitch.liveScanActive := true; LiveSwitch.messageCache := ∅ |})))) = true.
Proof. split; reflexivity. Qed.

(** C7, amended: a stop after a stop changes nothing and answers
    [{success: true}]; every session a manager holds is ACTIVE, a
    stored session is marked stopped only for a tab whose ACTIVE
    session the manager held, and marked expired only where the stored
    session was ACTIVE. *)
Theorem stop_again_and_lifecycle (m : Manager) :
  reachable m ->
  (forall env1 env2 t ack1 ack2,
     isInitialized m = true ->
     stopMonitoring env2 t (Delivered ack2) (snd (stopMonitoring env1 t (Delivered ack1) m))
     = (Ok {| stopSuccess := true |}, snd (stopMonitoring env1 t (Delivered ack1) m))) /\
  (forall st,
     LiveSwitch.stopLiveScan (snd (LiveSwitch.stopLiveScan st))
     = ({| LiveSwitch.success := true; LiveSwitch.message := "Live scan stopped" |},
        snd (LiveSwitch.stopLiveScan st))) /\
  (forall t s, sessions m !! t = Some s -> status s = active) /\
  (forall env c, fromActive m (perform env c m)).
Proof.
  intros Hr. pose proof (reachable_consistent m Hr) as Hc.
  split; [intros; now apply stop_again | split; [reflexivity | split]].
  - intros t s H. now apply (proj1 Hc t s).
  - intros env c. now apply perform_spec.
Qed.

Lemma stop_again_and_lifecycle_witness :
  reachable Examples.monitoring /\
  stopMonitoring (Examples.quiet 99500) Examples.tabSeven (Delivered true)
    (snd (stopMonitoring (Examples.quiet 99000) Examples.tabSeven (Delivered true)
            Examples.monitoring))
  = (Ok {| stopSuccess := true |},
     snd (stopMonitoring (Examples.quiet 99000) Examples.tabSeven (Delivered true)
            Examples.monitoring)).
Proof.
  assert (Hr : reachable Examples.monitoring).
  { apply reach_call.
    exact (reach_call (Examples.quiet 1000) (CallInit None) constructed reach_new). }
  split; [exact Hr | ].
  exact (proj1 (stop_again_and_lifecycle Examples.monitoring Hr)
           (Examples.quiet 99000) (Examples.quiet 99500) Examples.tabSeven true true eq_refl).
Defined.

End LiveFacts.

(* ================================================================= *)
(** ** Merging a deep scan with live data *)

Section MergeFacts.
Import Handler.

Lemma coordinator_merge_resolved (dbHandler : option DBHandler) (now : Z)
    (newMergeId : string) (session : DeepScanCoordinator.HybridSession)
    (liveData : DeepScanCoordinator.LiveData) (r : DeepScanCoordinator.MergedResult) :
  fst (DeepScanCoordinator.mergeScanData dbHandler now newMergeId session liveData tt)
    = Resolved r ->
  exists d,
    dbHandler <> None /\
    DeepScanCoordinator.deepScan r = d /\
    DeepScanCoordinator.liveData r = liveData /\
    DeepScanCoordinator.deepMessages (DeepScanCoordinator.statistics r) = deepMessageCount d /\
    DeepScanCoordinator.liveMessages (DeepScanCoordinator.statistics r)
      = DeepScanCoordinator.messageCount liveData /\
    DeepScanCoordinator.totalMessages (DeepScanCoordinator.statistics r)
      = DeepScanCoordinator.plus (deepMessageCount d)
          (DeepScanCoordinator.messageCount liveData).
Proof.
  unfold DeepScanCoordinator.mergeScanData.
  destruct dbHandler as [h|]; [ | discriminate].
  unfold bind, await, throw, ret.
  destruct (getDeepScan h _) as [[d|]| |]; try discriminate.
  destruct (saveMergedScan h) as [[]| |]; try discriminate.
  cbn. intros [= <-]. exists d. cbn. repeat split. discriminate.
Qed.

Lemma scanSystem_merge_resolved (dbHandler : option DBHandler) (now : Z)
    (deepScanId liveSessionId : string) (r : ScanSystem.MergedData) :
  fst (ScanSystem.mergeScanData dbHandler now deepScanId liveSessionId tt) = Resolved r ->
  ScanSystem.deepMessages (ScanSystem.statistics r)
    = ScanSystem.orZero (deepMessageCount (ScanSystem.deepScan r)) /\
  ScanSystem.liveMessages (ScanSystem.statistics r)
    = ScanSystem.orZero (liveMessageCount (ScanSystem.liveSession r)) /\
  ScanSystem.totalMessages (ScanSystem.statistics r)
    = ScanSystem.deepMessages (ScanSystem.statistics r)
      + ScanSystem.liveMessages (ScanSystem.statistics r).
Proof.
  unfold ScanSystem.mergeScanData.
  destruct dbHandler as [h|]; [ | discriminate].
  unfold bind, await, throw, ret.
  destruct (getDeepScan h _) as [[d|]| |]; try discriminate;
    destruct (getLiveSession h _) as [[l|]| |]; try discriminate.
  destruct (saveMergedScan h) as [[]| |]; try discriminate.
  cbn. intros [= <-]. cbn. repeat split.
Qed.

Lemma orZero_id (count : Z) : ScanSystem.orZero (Some count) = count.
Proof. unfold ScanSystem.orZero. destruct (Z.eqb_spec count 0); congruence. Qed.

(** What does hold of the merges: the dispatcher's merge reads a
    missing count as 0, and its total is always the sum of the two
    counts it records; the coordinator's total is the sum of the two
    counts it records when the deep scan record has a count, and [NaN]
    when it has none. *)
Lemma merged_statistics_add_up :
  (forall dbHandler now deepScanId liveSessionId r,
     fst (ScanSystem.mergeScanData dbHandler now deepScanId liveSessionId tt) = Resolved r ->
     ScanSystem.totalMessages (ScanSystem.statistics r)
       = ScanSystem.deepMessages (ScanSystem.statistics r)
         + ScanSystem.liveMessages (ScanSystem.statistics r) /\
     ScanSystem.deepMessages (ScanSystem.statistics r)
       = ScanSystem.orZero (deepMessageCount (ScanSystem.deepScan r)) /\
     ScanSystem.liveMessages (ScanSystem.statistics r)
       = ScanSystem.orZero (liveMessageCount (ScanSystem.liveSession r))) /\
  (forall dbHandler now newMergeId session liveData r,
     fst (DeepScanCoordinator.mergeScanData dbHandler now newMergeId session liveData tt)
       = Resolved r ->
     DeepScanCoordinator.liveMessages (DeepScanCoordinator.statistics r)
       = DeepScanCoordinator.messageCount liveData /\
     DeepScanCoordinator.deepMessages (DeepScanCoordinator.statistics r)
       = deepMessageCount (DeepScanCoordinator.deepScan r) /\
     DeepScanCoordinator.totalMessages (DeepScanCoordinator.statistics r)
       = match deepMessageCount (DeepScanCoordinator.deepScan r) with
         | Some n =>
             DeepScanCoordinator.Finite (n + DeepScanCoordinator.messageCount liveData)
         | None => DeepScanCoordinator.NaN
         end).
Proof.
  split.
  - intros dbHandler now deepScanId liveSessionId r H.
    destruct (scanSystem_merge_resolved _ _ _ _ _ H) as (H1 & H2 & H3). auto.
  - intros dbHandler now newMergeId session liveData r H.
    destruct (coordinator_merge_resolved _ _ _ _ _ _ H) as (d & _ & Hd & _ & H1 & H2 & H3).
    rewrite H1, H2, H3, Hd. auto.
Qed.


End MergeFacts.

(* ================================================================= *)
(** ** StorageManager: reads never reject *)

Section StorageFacts.
Import StorageManager.



End StorageFacts.

(* ================================================================= *)
(** ** Sorting and the object store *)

Section StoreFacts.
Import IndexedDBManager.

Lemma insert_sorted_perm {A} (before : A -> A -> bool) (x : A) (l : list A) :
  JS.insert_sorted before x l ≡ₚ x :: l.
Proof.
  induction l as [|y l IH]; cbn; [reflexivity | ].
  destruct (before x y); [reflexivity | ].
  rewrite IH. apply perm_swap.
Qed.

Lemma sort_perm {A} (before : A -> A -> bool) (l : list A) : JS.sort before l ≡ₚ l.
Proof.
  induction l as [|x l IH]; cbn; [reflexivity | ].
  fold (JS.sort before l). rewrite insert_sorted_perm. now rewrite IH.
Qed.

Lemma sort_length {A} (before : A -> A -> bool) (l : list A) :
  length (JS.sort before l) = length l.
Proof. apply Permutation_length, sort_perm. Qed.

Lemma id_withId (k : string) (r : Scan) : id (withId k r) = k.
Proof. reflexivity. Qed.

Lemma records_ids (s : gmap string Scan) : map id (records s) = (map_to_list s).*1.
Proof.
  unfold records. rewrite map_map. apply map_ext. intros [k r]. reflexivity.
Qed.

Lemma records_length (s : gmap string Scan) : length (records s) = size s.
Proof. unfold records. rewrite length_map. apply length_map_to_list. Qed.

Lemma records_NoDup (s : gmap string Scan) : NoDup (map id (records s)).
Proof. rewrite records_ids. apply NoDup_fst_map_to_list. Qed.

Lemma in_records (s : gmap string Scan) (r : Scan) :
  r ∈ records s <-> exists v, s !! id r = Some v /\ r = withId (id r) v.
Proof.
  unfold records. rewrite list_elem_of_fmap. split.
  - intros ([k v] & -> & H%elem_of_map_to_list). exists v. cbn. auto.
  - intros (v & Hl & Hr). exists (id r, v). split; [exact Hr | ].
    now apply elem_of_map_to_list.
Qed.

Lemma byTimestamp_perm (s : gmap string Scan) : byTimestamp s ≡ₚ records s.
Proof. apply sort_perm. Qed.

Lemma byTimestamp_length (s : gmap string Scan) : length (byTimestamp s) = size s.
Proof. unfold byTimestamp. now rewrite sort_length, records_length. Qed.

Lemma deleteAll_lookup (l : list Scan) (s : gmap string Scan) (k : string) :
  deleteAll l s !! k = if decide (k ∈ map id l) then None else s !! k.
Proof.
  revert s. induction l as [|a l IH]; intros s; cbn [deleteAll fold_left map].
  - destruct (decide _) as [H|_]; [ | reflexivity]. now apply elem_of_nil in H.
  - fold (deleteAll l (delete (id a) s)). rewrite IH.
    destruct (decide (k ∈ map id l)) as [H|H].
    + rewrite decide_True; [reflexivity | now apply list_elem_of_further].
    + destruct (decide (k = id a)) as [->|Hne].
      * rewrite decide_True by apply list_elem_of_here. apply lookup_delete_eq.
      * rewrite decide_False.
        -- now apply lookup_delete_ne.
        -- intros [?|?]%elem_of_cons; contradiction.
Qed.

Lemma deleteAll_size (l : list Scan) (s : gmap string Scan) :
  NoDup (map id l) -> (forall r, r ∈ l -> is_Some (s !! id r)) ->
  size (deleteAll l s) = (size s - length l)%nat.
Proof.
  revert s. induction l as [|a l IH]; intros s Hnd Hin; cbn [deleteAll fold_left length].
  - lia.
  - fold (deleteAll l (delete (id a) s)).
    cbn [map] in Hnd. apply NoDup_cons in Hnd as [Hna Hnd].
    rewrite IH; [ | exact Hnd | ].
    + rewrite map_size_delete_Some by (apply Hin, list_elem_of_here).
      assert (size s <> 0%nat).
      { destruct (Hin a (list_elem_of_here _ _)) as [v Hv].
        intros H0%map_size_empty_inv. rewrite H0 in Hv. now rewrite lookup_empty in Hv. }
      lia.
    + intros r Hr. rewrite lookup_delete_ne.
      * apply Hin. now apply list_elem_of_further.
      * intros Heq. apply Hna. rewrite Heq. now apply list_elem_of_fmap_2.
Qed.

Lemma records_deleteAll (l : list Scan) (s : gmap string Scan) (r : Scan) :
  r ∈ records (deleteAll l s) -> r ∈ records s /\ id r ∉ map id l.
Proof.
  rewrite !in_records. intros (v & Hl & Hr). rewrite deleteAll_lookup in Hl.
  destruct (decide _) as [|Hn]; [discriminate | ]. split; [ | exact Hn]. eauto.
Qed.

End StoreFacts.

(* ================================================================= *)
(** ** Maintenance of the primary store *)

Section MaintenanceFacts.
Import IndexedDBManager.
Variable JSON_length : Scan -> Z.

Lemma scansToDelete_in (s : gmap string Scan) (ratio : float) (r : Scan) :
  r ∈ scansToDelete s ratio -> r ∈ records s.
Proof.
  unfold scansToDelete, JS.sliceFrom. intros H.
  rewrite <- (byTimestamp_perm s).
  exact (sublist_subseteq _ _ (sublist_drop _ _) r H).
Qed.

Lemma scansToDelete_NoDup (s : gmap string Scan) (ratio : float) :
  NoDup (map id (scansToDelete s ratio)).
Proof.
  unfold scansToDelete, JS.sliceFrom.
  assert (H : NoDup (map id (byTimestamp s))).
  { rewrite (byTimestamp_perm s). apply records_NoDup. }
  apply (sublist_NoDup _ _ H). apply (fmap_sublist id). apply sublist_drop.
Qed.

Lemma scansToDelete_length (s : gmap string Scan) (ratio : float) :
  length (scansToDelete s ratio)
  = (size s - JS.sliceStart (keepCount (size s) ratio) (size s))%nat.
Proof.
  unfold scansToDelete, JS.sliceFrom. now rewrite length_skipn, byTimestamp_length.
Qed.

(** What a sweep leaves: the scans before the index the slice begins
    at, or all of them. *)
Lemma sweep_size (s : gmap string Scan) (ratio : float) :
  size (deleteAll (scansToDelete s ratio) s)
  = Nat.min (size s) (JS.sliceStart (keepCount (size s) ratio) (size s)).
Proof.
  rewrite deleteAll_size.
  - rewrite scansToDelete_length. lia.
  - apply scansToDelete_NoDup.
  - intros r Hr%scansToDelete_in%in_records. destruct Hr as (v & Hv & _). eauto.
Qed.

Lemma cleanupOldRecords_run (env : Env) (ratio : float) (m : Manager) :
  db m = true -> getAllFails env = false -> cleanupFails env = false ->
  (500 < size (store m))%nat ->
  cleanupOldRecords env ratio m
  = (Resolved (Z.of_nat (length (scansToDelete (store m) ratio))),
     setStore (deleteAll (scansToDelete (store m) ratio) (store m)) m).
Proof.
  intros Hdb Hg Hc Hsize.
  unfold cleanupOldRecords, withDb. rewrite Hdb, Hg.
  unfold bind, read. rewrite byTimestamp_length.
  destruct (Z.leb_spec (Z.of_nat (size (store m))) 500) as [H|_]; [lia | ].
  rewrite Hc. reflexivity.
Qed.

Lemma JSON_array_length_bound (bound : Z) (l : list Scan) :
  0 <= bound -> (forall r, r ∈ l -> JSON_length r <= bound) ->
  JSON_array_length JSON_length l <= 2 + (bound + 1) * Z.of_nat (length l).
Proof.
  intros Hb Hall. unfold JSON_array_length.
  assert (H : fold_right (fun r acc => JSON_length r + acc) 0 l <= bound * Z.of_nat (length l)).
  { induction l as [|a l IH]; cbn [fold_right length]; [lia | ].
    pose proof (Hall a (list_elem_of_here _ _)).
    assert (fold_right (fun r acc => JSON_length r + acc) 0 l <= bound * Z.of_nat (length l)).
    { apply IH. intros r Hr. apply Hall. now apply list_elem_of_further. }
    lia. }
  lia.
Qed.

Lemma getScans_primary (env : Env) (query : string) (limit offset : nat) (m : Manager) :
  initialized m = true -> useFallback m = false -> db m = true -> getAllFails env = false ->
  getScans (init JSON_length) env query limit offset m
  = (Resolved (JS.slice offset (offset + limit)
                 (newestFirst (applyQuery true query (byTimestamp (store m))))), m).
Proof.
  intros Hi Hf Hdb Hg. unfold getScans, ensureInitialized, bind, read, withDb.
  rewrite Hi. unfold ret. rewrite Hf, Hdb, Hg. reflexivity.
Qed.

Lemma slice_subseteq {A} (from to : nat) (l : list A) : JS.slice from to l ⊆ l.
Proof.
  unfold JS.slice. apply sublist_subseteq.
  etransitivity; [apply sublist_take | apply sublist_drop].
Qed.

Lemma slice_length_le {A} (from to : nat) (l : list A) :
  (length (JS.slice from to l) <= length l)%nat.
Proof. unfold JS.slice. rewrite length_firstn, length_skipn. lia. Qed.

(** The size estimate of a store whose scans are all short. *)
Lemma estimateDBSize_bound (env : Env) (bound : Z) (m : Manager) :
  initialized m = true -> useFallback m = false -> db m = true -> getAllFails env = false ->
  0 <= bound -> (forall r, r ∈ records (store m) -> JSON_length r <= bound) ->
  exists n, estimateDBSize JSON_length (init JSON_length) env m = (Resolved n, m) /\
            n <= 2 + (bound + 1) * Z.of_nat (size (store m)).
Proof.
  intros Hi Hf Hdb Hg Hb Hall. unfold estimateDBSize, bind.
  rewrite (getScans_primary env "" 1000 0 m Hi Hf Hdb Hg). unfold ret.
  eexists. split; [reflexivity | ].
  set (l := JS.slice _ _ _).
  assert (Hsub : l ⊆ records (store m)).
  { subst l. etransitivity; [apply slice_subseteq | ].
    unfold newestFirst, applyQuery. cbn [String.eqb].
    intros r Hr. rewrite sort_perm in Hr. now rewrite byTimestamp_perm in Hr. }
  assert (Hlen : (length l <= size (store m))%nat).
  { subst l. etransitivity; [apply slice_length_le | ].
    unfold newestFirst, applyQuery. cbn [String.eqb].
    now rewrite sort_length, byTimestamp_length. }
  etransitivity; [apply (JSON_array_length_bound bound); auto | ].
  apply Zplus_le_compat_l, Zmult_le_compat_l; lia.
Qed.

Example keepCount_1200 : JS.sliceStart (keepCount 1200 0.3%float) 1200 = 840%nat.
Proof. vm_compute. reflexivity. Qed.

Example sizeLimit_value : sizeLimit = 41943040.
Proof. vm_compute. reflexivity. Qed.

(** Maintenance of 1200 short scans: one sweep of 30 per cent. *)
Lemma maintain_1200 (env : Env) (m : Manager) :
  initialized m = true -> useFallback m = false -> db m = true ->
  countFails env = false -> getAllFails env = false -> cleanupFails env = false ->
  size (store m) = 1200%nat ->
  (forall r, r ∈ records (store m) -> JSON_length r <= 40000) ->
  performMaintenance JSON_length (init JSON_length) env m
  = (Resolved tt, setStore (deleteAll (scansToDelete (store m) 0.3%float) (store m)) m) /\
  size (deleteAll (scansToDelete (store m) 0.3%float) (store m)) = 840%nat /\
  length (scansToDelete (store m) 0.3%float) = 360%nat.
Proof.
  intros Hi Hf Hdb Hcnt Hg Hc Hsize Hall.
  assert (Hkept : size (deleteAll (scansToDelete (store m) 0.3%float) (store m)) = 840%nat).
  { rewrite sweep_size, Hsize, keepCount_1200. reflexivity. }
  split; [ | split; [exact Hkept | ]].
  2:{ rewrite scansToDelete_length, Hsize, keepCount_1200. reflexivity. }
  unfold performMaintenance. unfold bind at 1. unfold read at 1. rewrite Hf.
  unfold tryCatch.
  unfold bind at 1. unfold getScanCount, withDb. rewrite Hdb, Hcnt. unfold read at 1.
  rewrite Hsize. change (CLEANUP_THRESHOLD <? Z.of_nat 1200) with true. cbv iota.
  unfold bind at 1. unfold bind at 1.
  rewrite (cleanupOldRecords_run env 0.3%float m Hdb Hg Hc) by lia.
  unfold ret at 1.
  set (m' := setStore _ m).
  destruct (estimateDBSize_bound env 40000 m') as (n & Hest & Hn); auto; try lia.
  { intros r [Hr _]%records_deleteAll. now apply Hall. }
  unfold bind at 1. rewrite Hest.
  subst m'. cbn [store setStore] in Hn. rewrite Hkept in Hn.
  rewrite sizeLimit_value.
  destruct (Z.ltb_spec 41943040 n) as [Hbig|_]; [lia | ]. reflexivity.
Qed.

End MaintenanceFacts.

Section MaintenanceClaims.
Import IndexedDBManager.

(** C1, as stated, fails: maintenance of 1200 short scans leaves 840 of
    them, not 700 or fewer. *)
Lemma maintain_1200_leaves_840 :
  size Examples.bigStore = 1200%nat /\
  fst (performMaintenance Examples.shortScans (init Examples.shortScans)
         (Examples.calm 1800000000000 "scan_new") (Examples.primary Examples.bigStore))
    = Resolved tt /\
  size (store (snd (performMaintenance Examples.shortScans (init Examples.shortScans)
                      (Examples.calm 1800000000000 "scan_new")
                      (Examples.primary Examples.bigStore)))) = 840%nat.
Proof.
  assert (Hsize : size Examples.bigStore = 1200%nat) by (vm_compute; reflexivity).
  destruct (maintain_1200 Examples.shortScans (Examples.calm 1800000000000 "scan_new")
              (Examples.primary Examples.bigStore)
              eq_refl eq_refl eq_refl eq_refl eq_refl eq_refl Hsize) as (Hrun & Hkept & _).
  { intros r _. unfold Examples.shortScans. lia. }
  rewrite Hrun. auto.
Qed.

(** C1, amended: after maintain() runs on a primary store holding 1200
    records with the cleanup threshold at 1000, each record serialising
    to at most 40000 characters, exactly 360 records (30 per cent) are
    deleted and the record count is 840; nothing else of the manager
    changes and no record is added or altered. *)
Theorem performMaintenance_evicts_30_percent (JSON_length : Scan -> Z) (env : Env)
    (m : Manager) :
  initialized m = true -> useFallback m = false -> db m = true ->
  countFails env = false -> getAllFails env = false -> cleanupFails env = false ->
  size (store m) = 1200%nat ->
  (forall r, r ∈ records (store m) -> JSON_length r <= 40000) ->
  exists deleted,
    performMaintenance JSON_length (init JSON_length) env m
      = (Resolved tt, setStore (deleteAll deleted (store m)) m) /\
    length deleted = 360%nat /\
    size (deleteAll deleted (store m)) = 840%nat /\
    (forall r, r ∈ deleted -> r ∈ records (store m)) /\
    (forall k r, deleteAll deleted (store m) !! k = Some r -> store m !! k = Some r).
Proof.
  intros Hi Hf Hdb Hcnt Hg Hc Hsize Hall.
  destruct (maintain_1200 JSON_length env m Hi Hf Hdb Hcnt Hg Hc Hsize Hall)
    as (Hrun & Hkept & Hlen).
  exists (scansToDelete (store m) 0.3%float).
  split; [exact Hrun | split; [exact Hlen | split; [exact Hkept | split]]].
  - intros r. apply scansToDelete_in.
  - intros k r. rewrite deleteAll_lookup. now destruct (decide _).
Qed.

Lemma performMaintenance_evicts_30_percent_witness :
  size (store (Examples.primary Examples.bigStore)) = 1200%nat /\
  exists deleted,
    performMaintenance Examples.shortScans (init Examples.shortScans)
      (Examples.calm 1800000000000 "scan_new") (Examples.primary Examples.bigStore)
    = (Resolved tt,
       setStore (deleteAll deleted Examples.bigStore) (Examples.primary Examples.bigStore)) /\
    length deleted = 360%nat.
Proof.
  assert (Hsize : size (store (Examples.primary Examples.bigStore)) = 1200%nat)
    by (vm_compute; reflexivity).
  split; [exact Hsize | ].
  destruct (performMaintenance_evicts_30_percent Examples.shortScans
              (Examples.calm 1800000000000 "scan_new") (Examples.primary Examples.bigStore)
              eq_refl eq_refl eq_refl eq_refl eq_refl eq_refl Hsize)
    as (deleted & Hrun & Hlen & _).
  { intros r _. unfold Examples.shortScans. lia. }
  exists deleted. split; [exact Hrun | exact Hlen].
Defined.

(** The index in its own order is sorted by timestamp. *)
Lemma insert_sorted_by_time (x : Scan) (l : list Scan) :
  StronglySorted (fun a b => timestamp a <= timestamp b) l ->
  StronglySorted (fun a b => timestamp a <= timestamp b) (JS.insert_sorted timestampOrder x l).
Proof.
  induction 1 as [|y l Hs IH Hall]; cbn [JS.insert_sorted].
  - repeat constructor.
  - destruct (timestampOrder x y) eqn:Hxy.
    + assert (Hle : timestamp x <= timestamp y).
      { unfold timestampOrder in Hxy. apply orb_prop in Hxy as [H|H].
        - apply Z.ltb_lt in H. lia.
        - apply andb_prop in H as [H _]. apply Z.eqb_eq in H. lia. }
      constructor; [now constructor | ].
      constructor; [exact Hle | ].
      rewrite Forall_forall in Hall |- *. intros z Hz. specialize (Hall z Hz). cbn in *. lia.
    + assert (Hle : timestamp y <= timestamp x).
      { unfold timestampOrder in Hxy. apply orb_false_elim in Hxy as [H _].
        apply Z.ltb_ge in H. exact H. }
      constructor; [exact IH | ].
      rewrite Forall_forall in Hall |- *. intros z Hz.
      rewrite insert_sorted_perm in Hz.
      apply elem_of_cons in Hz as [->|Hz]; [exact Hle | ].
      now apply Hall.
Qed.

Lemma byTimestamp_sorted (s : gmap string Scan) :
  StronglySorted (fun a b => timestamp a <= timestamp b) (byTimestamp s).
Proof.
  unfold byTimestamp, JS.sort. induction (records s) as [|x l IH]; cbn [foldr].
  - constructor.
  - now apply insert_sorted_by_time.
Qed.

Lemma sorted_split (l : list Scan) (k : nat) (a b : Scan) :
  StronglySorted (fun a b => timestamp a <= timestamp b) l ->
  a ∈ firstn k l -> b ∈ skipn k l -> timestamp a <= timestamp b.
Proof.
  intros Hs. revert k. induction Hs as [|y l Hs IH Hall]; intros k Ha Hb.
  - destruct k; cbn in Ha; now apply elem_of_nil in Ha.
  - destruct k as [|k]; cbn [firstn skipn] in *; [now apply elem_of_nil in Ha | ].
    apply elem_of_cons in Ha as [->|Ha].
    + rewrite Forall_forall in Hall. apply Hall.
      exact (sublist_subseteq _ _ (sublist_drop _ _) b Hb).
    + now apply (IH k).
Qed.

(** What a sweep deletes are the newest scans: every scan it keeps is
    at most as recent as every scan it deletes. *)
Lemma cleanupOldRecords_deletes_newest (s : gmap string Scan) (ratio : float)
    (kept gone : Scan) :
  kept ∈ records (deleteAll (scansToDelete s ratio) s) ->
  gone ∈ scansToDelete s ratio ->
  timestamp kept <= timestamp gone.
Proof.
  intros [Hk Hid]%records_deleteAll Hg.
  unfold scansToDelete, JS.sliceFrom in *. set (k := JS.sliceStart _ _) in *.
  apply (sorted_split (byTimestamp s) k); [apply byTimestamp_sorted | | exact Hg].
  rewrite <- (byTimestamp_perm s) in Hk.
  rewrite <- (firstn_skipn k (byTimestamp s)) in Hk.
  apply elem_of_app in Hk as [Hk|Hk]; [exact Hk | ].
  exfalso. apply Hid. now apply list_elem_of_fmap_2.
Qed.

End MaintenanceClaims.

(* ================================================================= *)
(** ** Writing a scan: duplicates and the fallback *)

Section WriteFacts.
Import IndexedDBManager.
Variable JSON_length : Scan -> Z.

Lemma getScansByUrl_primary (env : Env) (u : string) (limit : nat) (m : Manager) :
  initialized m = true -> db m = true -> urlQueryFails env = false ->
  getScansByUrl (init JSON_length) env u limit m
  = (Resolved (JS.slice 0 limit (newestFirst (byUrl (store m) u))), m).
Proof.
  intros Hi Hdb Hq. unfold getScansByUrl, ensureInitialized, bind, read, withDb.
  rewrite Hi. unfold ret. rewrite Hdb, Hq. reflexivity.
Qed.

Lemma byUrl_in (s : gmap string Scan) (u : string) (r : Scan) :
  r ∈ byUrl s u -> r ∈ records s /\ url r = u.
Proof.
  unfold byUrl. rewrite sort_perm. intros H%list_elem_of_In%filter_In.
  destruct H as [H1 H2]. split; [now apply list_elem_of_In | now apply String.eqb_eq].
Qed.

Lemma recent_in (s : gmap string Scan) (u : string) (limit : nat) (r : Scan) :
  r ∈ JS.slice 0 limit (newestFirst (byUrl s u)) -> r ∈ records s /\ url r = u.
Proof.
  intros H%slice_subseteq. unfold newestFirst in H. rewrite sort_perm in H.
  now apply byUrl_in.
Qed.

(** The write of a scan that the duplicate check recognises. *)
Lemma storeScan_duplicate_found (env : Env) (scanData : Scan) (m : Manager) (e : Scan) :
  initialized m = true -> useFallback m = false -> db m = true ->
  urlQueryFails env = false ->
  validateScanData JSON_length scanData = Ok tt ->
  url scanData <> "" -> id e <> "" ->
  List.find (isRecentDuplicate env scanData)
            (JS.slice 0 5 (newestFirst (byUrl (store m) (url scanData)))) = Some e ->
  storeScan JSON_length env scanData m = (Resolved (id e), m).
Proof.
  intros Hi Hf Hdb Hq Hv Hu Hid Hfind.
  unfold storeScan. unfold bind at 1. unfold ensureInitialized, bind at 1, read at 1.
  rewrite Hi. unfold ret at 1. rewrite Hv. unfold bind at 1, read at 1. rewrite Hf.
  unfold tryCatch at 1. unfold bind at 1. unfold checkForDuplicate.
  destruct (String.eqb_spec (url scanData) "") as [|_]; [contradiction | ].
  unfold tryCatch at 1. unfold bind at 1.
  rewrite (getScansByUrl_primary env (url scanData) 5 m Hi Hdb Hq).
  unfold ret at 1. rewrite Hfind. cbn [fmap option_fmap option_map truthy].
  destruct (String.eqb_spec (id e) "") as [|_]; [contradiction | ]. reflexivity.
Qed.

Lemma find_first {A} (f : A -> bool) (l : list A) (x : A) :
  x ∈ l -> f x = true -> exists y, List.find f l = Some y /\ y ∈ l /\ f y = true.
Proof.
  intros Hx Hf. destruct (List.find f l) as [y|] eqn:Hfind.
  - apply find_some in Hfind as [H1 H2]. exists y. split; [reflexivity | split; [ | exact H2]].
    now apply list_elem_of_In.
  - apply list_elem_of_In in Hx. pose proof (find_none f l Hfind x Hx). congruence.
Qed.

(** The write of a scan in fallback mode. *)
Lemma storeScan_fallback (env : Env) (scanData : Scan) (m : Manager) :
  initialized m = true -> useFallback m = true ->
  validateScanData JSON_length scanData = Ok tt ->
  chromeGetFails env = false -> chromeSetFails env = false ->
  storeScan JSON_length env scanData m
  = (Resolved (id (sanitizeScanData env scanData)),
     setChromeScans
       (JS.slice 0 500 (newestFirst (chromeScans m ++ [sanitizeScanData env scanData]))) m).
Proof.
  intros Hi Hf Hv Hg Hs.
  unfold storeScan. unfold bind at 1. unfold ensureInitialized, bind at 1, read at 1.
  rewrite Hi. unfold ret at 1. rewrite Hv. unfold bind at 1, read at 1. rewrite Hf.
  unfold fallbackStoreScan. rewrite Hg. unfold bind at 1, read at 1. rewrite Hs.
  reflexivity.
Qed.

Lemma slice_all {A} (n : nat) (l : list A) : (length l <= n)%nat -> JS.slice 0 n l = l.
Proof. intros H. rewrite slice_from_start. now apply firstn_all2. Qed.

(** Calls on a manager whose database did not open. *)
Lemma perform_fallbackEngaged (env : Env) (c : Call) (m : Manager) :
  fallbackEngaged m ->
  fallbackEngaged (perform JSON_length env c m) /\
  store (perform JSON_length env c m) = store m.
Proof.
  intros (Hi & Hf & Hdb & Hp). unfold fallbackEngaged.
  assert (Hget : forall q l o,
             snd (getScans (init JSON_length) env q l o m) = m).
  { intros q l o. unfold getScans, ensureInitialized, bind, read. rewrite Hi. unfold ret.
    rewrite Hf. unfold fallbackGetScans. destruct (chromeGetFails env); reflexivity. }
  destruct c; cbn [perform].
  - unfold init. rewrite Hp. auto.
  - unfold storeScan, ensureInitialized, bind, read. rewrite Hi. unfold ret.
    destruct (validateScanData JSON_length scanData); [ | cbn; auto].
    rewrite Hf. unfold fallbackStoreScan.
    destruct (chromeGetFails env); [cbn; auto | ].
    unfold bind, read. destruct (chromeSetFails env); cbn; auto.
  - rewrite Hget. auto.
  - unfold getScansByUrl, ensureInitialized, bind, read, withDb. rewrite Hi. unfold ret.
    rewrite Hdb. cbn. auto.
  - unfold performMaintenance, bind, read. rewrite Hf. cbn. auto.
  - unfold cleanupOldRecords, withDb. rewrite Hdb. cbn. auto.
  - unfold clearAllScans, ensureInitialized, bind, read. rewrite Hi. unfold ret.
    rewrite Hf. unfold fallbackClearScans. destruct (chromeRemoveFails env); cbn; auto.
  - unfold exportScans. rewrite Hget. auto.
Qed.

Lemma runCalls_fallbackEngaged (calls : list (Env * Call)) (m : Manager) :
  fallbackEngaged m ->
  fallbackEngaged (runCalls JSON_length calls m) /\
  store (runCalls JSON_length calls m) = store m.
Proof.
  revert m. induction calls as [|c calls IH]; intros m Hm; [now split | ].
  cbn [runCalls fold_left].
  destruct (perform_fallbackEngaged (fst c) (snd c) m Hm) as [H1 H2].
  destruct (IH _ H1) as [H3 H4]. unfold runCalls in *. split; [exact H3 | congruence].
Qed.

Lemma init_open_fails (env : Env) (existing : gmap string Scan) (fallback : list Scan) :
  openEvent env = OpenError ->
  init JSON_length env (constructed existing fallback)
  = (Resolved tt,
     {| db := false; store := existing; initialized := true;
        initializationPromise := Some (Resolved tt); useFallback := true;
        fallbackInitialized := true; chromeScans := fallback |}).
Proof.
  intros Hopen. unfold init, constructed. cbn [initializationPromise].
  unfold _initialize, bind, read, tryCatch, openDatabase. cbn.
  rewrite Hopen. reflexivity.
Qed.

Lemma getScans_outcome (env : Env) (query : string) (limit offset : nat) (m : Manager) :
  initialized m = true ->
  getScans (init JSON_length) env query limit offset m
  = (if useFallback m then
       if chromeGetFails env
       then Rejected (DBError "Chrome storage read failed" "getScans")
       else Resolved (JS.slice offset (offset + limit)
                        (newestFirst (applyQuery false query (chromeScans m))))
     else if db m then
       if getAllFails env
       then Rejected (DBError "Query failed" "getScans")
       else Resolved (JS.slice offset (offset + limit)
                        (newestFirst (applyQuery true query (byTimestamp (store m)))))
     else Rejected (DBError "Query setup failed" "getScans"),
     m).
Proof.
  intros Hi. unfold getScans, ensureInitialized, bind, read, withDb. rewrite Hi.
  unfold ret. destruct (useFallback m).
  - unfold fallbackGetScans. destruct (chromeGetFails env); reflexivity.
  - destruct (db m); [ | reflexivity]. destruct (getAllFails env); reflexivity.
Qed.

(** When the open request is still pending after ten seconds,
    initialisation does not settle: the fallback is not engaged, and a
    storeScan call, which awaits the same promise, does not settle
    either. *)
Lemma init_open_pending (env : Env) (existing : gmap string Scan) (fallback : list Scan)
    (scanData : Scan) :
  openEvent env = OpenTimeout ->
  let started := init JSON_length env (constructed existing fallback) in
  fst started = Pending /\
  initialized (snd started) = false /\
  useFallback (snd started) = false /\
  fst (storeScan JSON_length env scanData (snd started)) = Pending.
Proof.
  intros Hopen. unfold init, constructed. cbn [initializationPromise].
  unfold _initialize, bind, read, tryCatch, openDatabase. cbn.
  rewrite Hopen. unfold never. cbn.
  repeat split.
Qed.

(** After a successful open, initialisation runs the maintenance, whose
    size estimate calls [getScans], which awaits the initialisation
    itself: the promise settles only if the maintenance fails before
    the estimate, which the maintenance catches. *)
Lemma init_open_succeeds_pending (env : Env) (existing : gmap string Scan)
    (fallback : list Scan) :
  openEvent env = OpenSuccess ->
  countFails env = false ->
  (size existing <= 1000)%nat ->
  fst (init JSON_length env (constructed existing fallback)) = Pending.
Proof.
  intros Hopen Hcount Hsize. unfold init, constructed. cbn [initializationPromise].
  unfold _initialize, bind, read, tryCatch, openDatabase. cbn.
  rewrite Hopen. cbn.
  unfold performMaintenance, bind, read, tryCatch, getScanCount. cbn.
  rewrite Hcount. cbn.
  replace (CLEANUP_THRESHOLD <? Z.of_nat (size existing)) with false
    by (symmetry; apply Z.ltb_ge; unfold CLEANUP_THRESHOLD; lia).
  reflexivity.
Qed.

Lemma init_open_succeeds_count_fails (env : Env) (existing : gmap string Scan)
    (fallback : list Scan) :
  openEvent env = OpenSuccess ->
  countFails env = true ->
  init JSON_length env (constructed existing fallback)
  = (Resolved tt,
     {| db := true; store := existing; initialized := true;
        initializationPromise := Some (Resolved tt); useFallback := false;
        fallbackInitialized := false; chromeScans := fallback |}).
Proof.
  intros Hopen Hcount. unfold init, constructed. cbn [initializationPromise].
  unfold _initialize, bind, read, tryCatch, openDatabase. cbn.
  rewrite Hopen. cbn.
  unfold performMaintenance, bind, read, tryCatch, getScanCount. cbn.
  rewrite Hcount. reflexivity.
Qed.

End WriteFacts.

Section WriteClaims.
Import IndexedDBManager.

(** C2, as stated, fails at a similarity of exactly 0.8: the stored
    title and the new one share four of five words, the check asks for
    more than 0.8, and a second record is created under a new id. *)
Lemma storeScan_similarity_point_eight :
  calculateSimilarity (title Examples.firstScan) (title Examples.secondScan) = 0.8%float /\
  fst (storeScan Examples.shortScans (Examples.calm 1700000060000 "scan_2")
         Examples.secondScan (Examples.primary {[ "scan_1" := Examples.firstScan ]}))
    = Resolved "scan_2" /\
  size (store (snd (storeScan Examples.shortScans (Examples.calm 1700000060000 "scan_2")
                      Examples.secondScan
                      (Examples.primary {[ "scan_1" := Examples.firstScan ]})))) = 2%nat.
Proof. split; [ | split]; vm_compute; reflexivity. Qed.

(** C2, amended: on the primary store, when a stored record [e] is
    among the five newest records with the URL of the new scan, its
    timestamp is less than 30 minutes before the call, and it is a
    substantial duplicate of the new scan (same URL, and title
    similarity strictly above 0.8 when both have a title), storeScan
    returns the id of a stored record with these properties and leaves
    the manager and the store as they were; that record is [e] when [e]
    is the only stored record with this URL. *)
Theorem storeScan_returns_stored_duplicate (JSON_length : Scan -> Z) (env : Env)
    (scanData : Scan) (m : Manager) (e : Scan) :
  initialized m = true -> useFallback m = false -> db m = true ->
  urlQueryFails env = false ->
  validateScanData JSON_length scanData = Ok tt ->
  url scanData <> "" ->
  store m !! "" = None ->
  e ∈ JS.slice 0 5 (newestFirst (byUrl (store m) (url scanData))) ->
  now env - timestamp e < DUPLICATE_TTL_MS ->
  isSubstantialDuplicate e scanData = true ->
  exists e',
    e' ∈ records (store m) /\ url e' = url scanData /\
    now env - timestamp e' < DUPLICATE_TTL_MS /\
    isSubstantialDuplicate e' scanData = true /\
    storeScan JSON_length env scanData m = (Resolved (id e'), m) /\
    (byUrl (store m) (url scanData) = [e] -> e' = e).
Proof.
  intros Hi Hf Hdb Hq Hv Hu Hkey He Hrecent Hdup.
  destruct (find_first (isRecentDuplicate env scanData) _ e He) as (e' & Hfind & Hin & Hok).
  { unfold isRecentDuplicate. rewrite Hdup, andb_true_r. now apply Z.ltb_lt. }
  destruct (recent_in _ _ _ _ Hin) as [Hrec Hurl].
  unfold isRecentDuplicate in Hok. apply andb_prop in Hok as [Ht Hd]. apply Z.ltb_lt in Ht.
  assert (Hid : id e' <> "").
  { apply in_records in Hrec as (v & Hl & _). intros Heq. rewrite Heq in Hl. congruence. }
  exists e'. repeat split; auto.
  - now apply (storeScan_duplicate_found JSON_length env scanData m e').
  - intros Hone. rewrite Hone in Hin.
    change (JS.slice 0 5 (newestFirst [e])) with [e] in Hin.
    now apply list_elem_of_singleton in Hin.
Qed.

Lemma storeScan_returns_stored_duplicate_witness :
  Examples.firstScan
    ∈ JS.slice 0 5 (newestFirst (byUrl {[ "scan_1" := Examples.firstScan ]}
                                       (url Examples.sameScan))) /\
  isSubstantialDuplicate Examples.firstScan Examples.sameScan = true /\
  exists e',
    storeScan Examples.shortScans (Examples.calm 1700000060000 "scan_2") Examples.sameScan
      (Examples.primary {[ "scan_1" := Examples.firstScan ]})
    = (Resolved (id e'), Examples.primary {[ "scan_1" := Examples.firstScan ]}) /\
    (byUrl {[ "scan_1" := Examples.firstScan ]} (url Examples.sameScan)
       = [Examples.firstScan] -> e' = Examples.firstScan).
Proof.
  assert (Hin : Examples.firstScan
                  ∈ JS.slice 0 5 (newestFirst (byUrl {[ "scan_1" := Examples.firstScan ]}
                                                     (url Examples.sameScan)))).
  { vm_compute. apply list_elem_of_here. }
  assert (Hdup : isSubstantialDuplicate Examples.firstScan Examples.sameScan = true)
    by (vm_compute; reflexivity).
  split; [exact Hin | split; [exact Hdup | ]].
  destruct (storeScan_returns_stored_duplicate Examples.shortScans
              (Examples.calm 1700000060000 "scan_2") Examples.sameScan
              (Examples.primary {[ "scan_1" := Examples.firstScan ]}) Examples.firstScan
              eq_refl eq_refl eq_refl eq_refl eq_refl)
    as (e' & _ & _ & _ & _ & Hrun & Hone); try assumption.
  - discriminate.
  - vm_compute. reflexivity.
  - vm_compute. reflexivity.
  - exists e'. split; assumption.
Defined.

(** C4, as stated, fails: after the opening failed the manager is on
    the fallback, and a storeScan call still rejects when the scan has
    neither url nor title, or when the extension storage cannot be
    written. *)
Lemma storeScan_on_fallback_rejects :
  isUsingFallback Examples.openFailed = true /\
  fst (storeScan Examples.shortScans (Examples.calm 2000 "scan_new") Examples.emptyScan
         Examples.openFailed)
    = Rejected (PlainError "Scan data must contain url or title") /\
  fst (storeScan Examples.shortScans (Examples.writeFailing 2000) Examples.firstScan
         Examples.openFailed)
    = Rejected (DBError "Chrome storage write failed" "storeScan").
Proof. split; [ | split]; reflexivity. Qed.

(** C4, amended: if opening the primary store fails (the open request
    reports an error), initialisation resolves with the fallback
    engaged; from then on, whatever calls follow, isUsingFallback()
    returns true, the primary store is never touched, every storeScan
    call whose data passes validation succeeds by writing to the
    fallback store whenever the extension storage answers, and getScans
    reads the fallback store. *)
Theorem open_failure_engages_fallback (JSON_length : Scan -> Z) (env0 : Env)
    (existing : gmap string Scan) (fallback : list Scan) :
  openEvent env0 = OpenError ->
  let started := init JSON_length env0 (constructed existing fallback) in
  fst started = Resolved tt /\
  isUsingFallback (snd started) = true /\
  chromeScans (snd started) = fallback /\
  (forall calls,
     isUsingFallback (runCalls JSON_length calls (snd started)) = true /\
     isInitialized (runCalls JSON_length calls (snd started)) = true /\
     store (runCalls JSON_length calls (snd started)) = existing) /\
  (forall calls env scanData,
     validateScanData JSON_length scanData = Ok tt ->
     chromeGetFails env = false -> chromeSetFails env = false ->
     storeScan JSON_length env scanData (runCalls JSON_length calls (snd started))
     = (Resolved (id (sanitizeScanData env scanData)),
        setChromeScans
          (JS.slice 0 500
             (newestFirst (chromeScans (runCalls JSON_length calls (snd started))
                             ++ [sanitizeScanData env scanData])))
          (runCalls JSON_length calls (snd started)))) /\
  (forall calls env query limit offset,
     chromeGetFails env = false ->
     fst (getScans (init JSON_length) env query limit offset
            (runCalls JSON_length calls (snd started)))
     = Resolved (JS.slice offset (offset + limit)
                   (newestFirst (applyQuery false query
                      (chromeScans (runCalls JSON_length calls (snd started))))))).
Proof.
  intros Hopen started. subst started.
  rewrite (init_open_fails JSON_length env0 existing fallback Hopen). cbn [fst snd].
  set (m0 := {| db := false |}).
  assert (H0 : fallbackEngaged m0) by (repeat split).
  split; [reflexivity | split; [reflexivity | split; [reflexivity | split; [ | split]]]].
  - intros calls. destruct (runCalls_fallbackEngaged JSON_length calls m0 H0)
      as [(Hi & Hf & _) Hs].
    unfold isUsingFallback, isInitialized. rewrite Hs. auto.
  - intros calls env scanData Hv Hg Hs.
    destruct (runCalls_fallbackEngaged JSON_length calls m0 H0) as [(Hi & Hf & _) _].
    now apply storeScan_fallback.
  - intros calls env query limit offset Hg.
    destruct (runCalls_fallbackEngaged JSON_length calls m0 H0) as [(Hi & Hf & _) _].
    rewrite (getScans_outcome JSON_length env query limit offset _ Hi), Hf, Hg. reflexivity.
Qed.

Lemma open_failure_engages_fallback_witness :
  openEvent (Examples.opening OpenError 1000) = OpenError /\
  isUsingFallback Examples.openFailed = true /\
  fst (storeScan Examples.shortScans (Examples.calm 2000 "scan_new") Examples.firstScan
         Examples.openFailed) = Resolved "scan_1".
Proof.
  assert (Hopen : openEvent (Examples.opening OpenError 1000) = OpenError)
    by reflexivity.
  split; [exact Hopen | ].
  destruct (open_failure_engages_fallback Examples.shortScans
              (Examples.opening OpenError 1000) ∅ [] Hopen)
    as (_ & Huse & _ & _ & Hstore & _).
  split; [exact Huse | ].
  exact (f_equal fst (Hstore [] (Examples.calm 2000 "scan_new") Examples.firstScan
                        eq_refl eq_refl eq_refl)).
Defined.



End WriteClaims.

(* ================================================================= *)
(** ** The footprint of the scan store's methods *)

Section Footprint.
Import IndexedDBManager.
Variable JSON_length : Scan -> Z.

Lemma steady_ret {A} (a : A) : steady (ret (S := Manager) a).
Proof. intros m. apply rtc_refl. Qed.

Lemma steady_throw {A} (e : Error) : steady (throw (S := Manager) (A := A) e).
Proof. intros m. apply rtc_refl. Qed.

Lemma steady_never {A} : steady (never (S := Manager) (A := A)).
Proof. intros m. apply rtc_refl. Qed.

Lemma steady_read {A} (f : Manager -> A) : steady (read f).
Proof. intros m. apply rtc_refl. Qed.

Lemma steady_update (f : Manager -> Manager) :
  (forall m, change m (f m)) -> steady (update f).
Proof. intros H m. apply rtc_once, H. Qed.

Lemma steady_bind {A B} (c : Async Manager A) (k : A -> Async Manager B) :
  steady c -> (forall a, steady (k a)) -> steady (bind c k).
Proof.
  intros Hc Hk m. unfold bind. specialize (Hc m).
  destruct (c m) as [[a|e|] m']; cbn [snd] in *; [ | exact Hc | exact Hc].
  etransitivity; [exact Hc | apply Hk].
Qed.

Lemma steady_tryCatch {A} (c : Async Manager A) (handler : Error -> Async Manager A) :
  steady c -> (forall e, steady (handler e)) -> steady (tryCatch c handler).
Proof.
  intros Hc Hh m. unfold tryCatch. specialize (Hc m).
  destruct (c m) as [[a|e|] m']; cbn [snd] in *; [exact Hc | | exact Hc].
  etransitivity; [exact Hc | apply Hh].
Qed.

Lemma steady_withDb {A} (message operation : string) (c : Async Manager A) :
  steady c -> steady (withDb message operation c).
Proof. intros Hc m. unfold withDb. destruct (db m); [apply Hc | apply rtc_refl]. Qed.

Lemma steady_if {A} (b : bool) (c1 c2 : Async Manager A) :
  steady c1 -> steady c2 -> steady (if b then c1 else c2).
Proof. now destruct b. Qed.

Lemma change_setDb (b : bool) (m : Manager) : change m (setDb b m).
Proof. now apply change_fields. Qed.

Lemma change_setInitialized (i f : bool) (m : Manager) : change m (setInitialized i f m).
Proof. now apply change_fields. Qed.

Lemma change_setUseFallback (f : bool) (m : Manager) : change m (setUseFallback f m).
Proof. now apply change_fields. Qed.

Lemma change_setPromise (p : option (Outcome unit)) (m : Manager) : change m (setPromise p m).
Proof. now apply change_fields. Qed.

Lemma change_setFallbackInitialized (m : Manager) : change m (setFallbackInitialized m).
Proof. now apply change_fields. Qed.

Lemma sanitizeScanData_sanitised (env : Env) (scanData : Scan) :
  sanitised (sanitizeScanData env scanData).
Proof. repeat split. Qed.

Lemma deleteAll_subseteq (l : list Scan) (s : gmap string Scan) : deleteAll l s ⊆ s.
Proof.
  apply map_subseteq_spec. intros k r. rewrite deleteAll_lookup.
  now destruct (decide _).
Qed.

Create HintDb steady.

#[local] Hint Resolve steady_ret steady_throw steady_never steady_read steady_bind steady_tryCatch
  steady_withDb steady_if steady_update change_setDb change_setInitialized
  change_setUseFallback change_setPromise change_setFallbackInitialized : steady.

Ltac steadily :=
  repeat first
    [ progress auto with steady
    | apply steady_bind | apply steady_tryCatch | apply steady_withDb
    | match goal with
      | |- steady (if ?b then _ else _) => destruct b
      | |- steady (match ?x with _ => _ end) => destruct x
      | |- forall _, _ => intro
      end ].

Lemma steady_fallbackStoreScan (env : Env) (scanData : Scan) :
  steady (fallbackStoreScan env scanData).
Proof.
  intros m. unfold fallbackStoreScan.
  destruct (chromeGetFails env); [apply rtc_refl | ].
  unfold bind, read. destruct (chromeSetFails env); [apply rtc_refl | ].
  cbn. apply rtc_once.
  apply (change_fallback_add _ _ (sanitizeScanData env scanData));
    [apply sanitizeScanData_sanitised | reflexivity | reflexivity].
Qed.

Lemma steady_fallbackGetScans (env : Env) (query : string) :
  steady (fallbackGetScans env query).
Proof.
  unfold fallbackGetScans. steadily.
Qed.

Lemma steady_fallbackClearScans (env : Env) : steady (fallbackClearScans env).
Proof.
  unfold fallbackClearScans. steadily.
  apply steady_update. intros m. now apply change_fallback_clear.
Qed.

Lemma steady_fallbackInit : steady fallbackInit.
Proof. unfold fallbackInit. auto with steady. Qed.

Lemma steady_openDatabase (env : Env) : steady (openDatabase env).
Proof. unfold openDatabase. destruct (openEvent env); auto with steady. Qed.

Lemma steady_getScanCount (env : Env) : steady (getScanCount env).
Proof.
  intros m. unfold getScanCount. destruct (db m); [ | apply rtc_refl].
  destruct (countFails env); apply rtc_refl.
Qed.

Lemma steady_insertScan (env : Env) (scanData : Scan) :
  sanitised scanData -> steady (insertScan env scanData).
Proof.
  intros Hs m. unfold insertScan, withDb. destruct (db m); [ | apply rtc_refl].
  unfold bind, read. destruct (store m !! id scanData) eqn:Hk; [apply rtc_refl | ].
  destruct (addFails env); [apply rtc_refl | ]. cbn.
  apply rtc_once. now apply (change_add _ _ scanData).
Qed.

Lemma steady_cleanupOldRecords (env : Env) (ratio : float) :
  steady (cleanupOldRecords env ratio).
Proof.
  intros m. unfold cleanupOldRecords, withDb. destruct (db m); [ | apply rtc_refl].
  destruct (getAllFails env); [apply rtc_refl | ].
  unfold bind, read. destruct (_ <=? 500); [apply rtc_refl | ].
  destruct (cleanupFails env); [apply rtc_refl | ]. cbn.
  apply rtc_once, change_remove; [apply deleteAll_subseteq | reflexivity].
Qed.

#[local] Hint Resolve steady_fallbackStoreScan steady_fallbackGetScans steady_fallbackClearScans
  steady_fallbackInit steady_openDatabase steady_getScanCount steady_insertScan
  steady_cleanupOldRecords sanitizeScanData_sanitised : steady.

Section Callback.
Variable init : Env -> Async Manager unit.
Hypothesis steady_callback : forall env, steady (init env).

Lemma steady_ensureInitialized (env : Env) : steady (ensureInitialized init env).
Proof.
  unfold ensureInitialized. steadily.
Qed.

Lemma steady_getScans (env : Env) (query : string) (limit offset : nat) :
  steady (getScans init env query limit offset).
Proof.
  unfold getScans. pose proof steady_ensureInitialized. steadily.
Qed.

Lemma steady_getScansByUrl (env : Env) (u : string) (limit : nat) :
  steady (getScansByUrl init env u limit).
Proof.
  unfold getScansByUrl. pose proof steady_ensureInitialized. steadily.
Qed.

Lemma steady_estimateDBSize (env : Env) : steady (estimateDBSize JSON_length init env).
Proof.
  unfold estimateDBSize. pose proof steady_getScans. steadily.
Qed.

Lemma steady_performMaintenance (env : Env) :
  steady (performMaintenance JSON_length init env).
Proof.
  unfold performMaintenance. pose proof steady_estimateDBSize. steadily.
Qed.

End Callback.

Lemma steady_initAgain (env : Env) : steady (initAgain env).
Proof. intros m. apply rtc_refl. Qed.

Lemma steady__initialize (env : Env) : steady (_initialize JSON_length env).
Proof.
  unfold _initialize.
  pose proof (steady_performMaintenance initAgain steady_initAgain). steadily.
Qed.

Lemma steady_init (env : Env) : steady (init JSON_length env).
Proof.
  intros m. unfold init. destruct (initializationPromise m); [apply rtc_refl | ].
  pose proof (steady__initialize env (setPromise (Some Pending) m)) as H.
  destruct (_initialize JSON_length env (setPromise (Some Pending) m)) as [fate m'].
  cbn [snd] in *.
  etransitivity; [apply rtc_once, change_setPromise | ].
  etransitivity; [exact H | apply rtc_once, change_setPromise].
Qed.

Lemma steady_checkForDuplicate (env : Env) (scanData : Scan) :
  steady (checkForDuplicate JSON_length env scanData).
Proof.
  unfold checkForDuplicate.
  pose proof (steady_getScansByUrl (init JSON_length) steady_init). steadily.
Qed.

Lemma steady_storeScan (env : Env) (scanData : Scan) :
  steady (storeScan JSON_length env scanData).
Proof.
  unfold storeScan.
  pose proof (steady_ensureInitialized (init JSON_length) steady_init).
  pose proof (steady_performMaintenance (init JSON_length) steady_init).
  pose proof steady_checkForDuplicate. steadily.
Qed.

Lemma steady_clearAllScans (env : Env) : steady (clearAllScans JSON_length env).
Proof.
  unfold clearAllScans.
  pose proof (steady_ensureInitialized (init JSON_length) steady_init). steadily.
  apply steady_update. intros m.
  apply change_remove; [apply map_empty_subseteq | reflexivity].
Qed.

(** Whatever the call and whatever the manager, the stores change only
    in the ways [change] lists. *)
Lemma perform_changes (env : Env) (c : Call) (m : Manager) :
  rtc change m (perform JSON_length env c m).
Proof.
  destruct c; cbn [perform].
  - apply steady_init.
  - apply steady_storeScan.
  - apply steady_getScans, steady_init.
  - apply steady_getScansByUrl, steady_init.
  - apply steady_performMaintenance, steady_init.
  - apply steady_cleanupOldRecords.
  - apply steady_clearAllScans.
  - apply steady_getScans, steady_init.
Qed.

Lemma runCalls_changes (calls : list (Env * Call)) (m : Manager) :
  rtc change m (runCalls JSON_length calls m).
Proof.
  revert m. induction calls as [|c calls IH]; intros m; [apply rtc_refl | ].
  cbn [runCalls fold_left]. etransitivity; [apply perform_changes | apply IH].
Qed.

End Footprint.

(* ================================================================= *)
(** ** Running asynchronous code step by step *)

Section Running.
Context {S A B : Type}.

Lemma bind_run (c : Async S A) (k : A -> Async S B) (s s' : S) (a : A) :
  c s = (Resolved a, s') -> bind c k s = k a s'.
Proof. intros H. unfold bind. now rewrite H. Qed.

Lemma bind_fail (c : Async S A) (k : A -> Async S B) (s s' : S) (e : Error) :
  c s = (Rejected e, s') -> bind c k s = (Rejected e, s').
Proof. intros H. unfold bind. now rewrite H. Qed.

Lemma bind_wait (c : Async S A) (k : A -> Async S B) (s s' : S) :
  c s = (Pending, s') -> bind c k s = (Pending, s').
Proof. intros H. unfold bind. now rewrite H. Qed.

Lemma tryCatch_run (c : Async S A) (handler : Error -> Async S A) (s s' : S) (a : A) :
  c s = (Resolved a, s') -> tryCatch c handler s = (Resolved a, s').
Proof. intros H. unfold tryCatch. now rewrite H. Qed.

Lemma tryCatch_fail (c : Async S A) (handler : Error -> Async S A) (s s' : S) (e : Error) :
  c s = (Rejected e, s') -> tryCatch c handler s = handler e s'.
Proof. intros H. unfold tryCatch. now rewrite H. Qed.

End Running.

(* ================================================================= *)
(** ** The scan store on an initialised manager *)

Section Initialised.
Import IndexedDBManager.
Variable JSON_length : Scan -> Z.

Lemma ensureInitialized_ready (callback : Env -> Async Manager unit) (env : Env)
    (m : Manager) :
  initialized m = true -> ensureInitialized callback env m = (Resolved tt, m).
Proof. intros Hi. unfold ensureInitialized, bind, read. now rewrite Hi. Qed.

Lemma checkForDuplicate_run (env : Env) (scanData : Scan) (m : Manager) :
  initialized m = true ->
  checkForDuplicate JSON_length env scanData m = (Resolved (duplicateOf env scanData m), m).
Proof.
  intros Hi. unfold checkForDuplicate, duplicateOf.
  destruct (String.eqb (url scanData) ""); [reflexivity | ].
  unfold getScansByUrl.
  unfold tryCatch, bind at 1.
  rewrite (bind_run _ _ _ _ _ (ensureInitialized_ready _ env m Hi)).
  unfold withDb. destruct (db m); [ | reflexivity].
  destruct (urlQueryFails env); reflexivity.
Qed.

Lemma getScanCount_cases (env : Env) (m : Manager) :
  (exists e, getScanCount env m = (Rejected e, m)) \/
  getScanCount env m = (Resolved (Z.of_nat (size (store m))), m).
Proof.
  unfold getScanCount. destruct (db m); [ | left; eexists; reflexivity].
  destruct (countFails env); [left; eexists; reflexivity | now right].
Qed.

Lemma within_refl (m : Manager) : within m m.
Proof. repeat split. reflexivity. Qed.

Lemma within_trans (m1 m2 m3 : Manager) : within m1 m2 -> within m2 m3 -> within m1 m3.
Proof.
  intros ((H1 & H2 & H3 & H4 & H5) & H6 & H7) ((G1 & G2 & G3 & G4 & G5) & G6 & G7).
  repeat split; try congruence. etransitivity; eassumption.
Qed.

Lemma cleanupOldRecords_cases (env : Env) (ratio : float) (m : Manager) :
  fst (cleanupOldRecords env ratio m) <> Pending /\
  within m (snd (cleanupOldRecords env ratio m)).
Proof.
  unfold cleanupOldRecords, withDb. destruct (db m); [ | split; [discriminate | apply within_refl]].
  destruct (getAllFails env); [split; [discriminate | apply within_refl] | ].
  unfold bind, read. destruct (_ <=? 500); [split; [discriminate | apply within_refl] | ].
  destruct (cleanupFails env); [split; [discriminate | apply within_refl] | ].
  cbn. split; [discriminate | ]. repeat split. apply deleteAll_subseteq.
Qed.

Lemma estimateDBSize_settles (env : Env) (m : Manager) :
  initialized m = true ->
  fst (estimateDBSize JSON_length (init JSON_length) env m) <> Pending /\
  snd (estimateDBSize JSON_length (init JSON_length) env m) = m.
Proof.
  intros Hi. unfold estimateDBSize, bind.
  rewrite (getScans_outcome JSON_length env "" 1000 0 m Hi).
  destruct (useFallback m); [destruct (chromeGetFails env) | destruct (db m);
    [destruct (getAllFails env) | ]]; split; (discriminate || reflexivity).
Qed.

Lemma sweep_run (env : Env) (ratio : float) (m : Manager) :
  exists o m', (cleanupOldRecords env ratio ;;; ret tt) m = (o, m') /\
               (o = Resolved tt \/ exists e, o = Rejected e) /\ within m m'.
Proof.
  destruct (cleanupOldRecords_cases env ratio m) as [Hp Hw].
  unfold bind. destruct (cleanupOldRecords env ratio m) as [[n|e|] m1]; cbn in *.
  - eexists _, _. split; [reflexivity | split; [now left | exact Hw]].
  - eexists _, _. split; [reflexivity | split; [right; eauto | exact Hw]].
  - now contradiction Hp.
Qed.

(** The second half of maintenance: the size estimate and the sweep of
    one half that may follow it. *)
Lemma sizeCheck_run (env : Env) (m : Manager) :
  initialized m = true ->
  exists o m',
    (approxSize <- estimateDBSize JSON_length (init JSON_length) env ;;
     if sizeLimit <? approxSize
     then cleanupOldRecords env 0.5%float ;;; ret tt else ret tt) m = (o, m') /\
    (o = Resolved tt \/ exists e, o = Rejected e) /\ within m m'.
Proof.
  intros Hi. destruct (estimateDBSize_settles env m Hi) as [Hp Hs].
  unfold bind at 1.
  destruct (estimateDBSize JSON_length (init JSON_length) env m) as [[n|e|] m1];
    cbn in Hp, Hs; subst.
  - destruct (sizeLimit <? n); [apply sweep_run | ].
    exists (Resolved tt), m. split; [reflexivity | split; [now left | apply within_refl]].
  - exists (Rejected e), m. split; [reflexivity | split; [right; eauto | apply within_refl]].
  - now contradiction Hp.
Qed.

Lemma within_initialized (m m' : Manager) :
  within m m' -> initialized m = true -> initialized m' = true.
Proof. intros ((_ & H & _) & _) Hi. congruence. Qed.

(** Maintenance on an initialised manager always resolves, and all it
    does is remove records. *)
Lemma performMaintenance_run (env : Env) (m : Manager) :
  initialized m = true ->
  exists m', performMaintenance JSON_length (init JSON_length) env m = (Resolved tt, m') /\
             within m m'.
Proof.
  intros Hi. unfold performMaintenance.
  rewrite (bind_run _ _ m m (useFallback m)) by reflexivity.
  destruct (useFallback m); [exists m; split; [reflexivity | apply within_refl] | ].
  assert (Hbody : exists o m1,
            (scanCount <- getScanCount env ;;
             (if CLEANUP_THRESHOLD <? scanCount
              then cleanupOldRecords env 0.3%float ;;; ret tt else ret tt) ;;;
             approxSize <- estimateDBSize JSON_length (init JSON_length) env ;;
             if sizeLimit <? approxSize
             then cleanupOldRecords env 0.5%float ;;; ret tt else ret tt) m = (o, m1) /\
            (o = Resolved tt \/ exists e, o = Rejected e) /\ within m m1).
  { destruct (getScanCount_cases env m) as [[e Hcount] | Hcount].
    { rewrite (bind_fail _ _ _ _ _ Hcount). exists (Rejected e), m.
      split; [reflexivity | split; [right; eauto | apply within_refl]]. }
    rewrite (bind_run _ _ _ _ _ Hcount).
    destruct (CLEANUP_THRESHOLD <? Z.of_nat (size (store m))).
    - destruct (sweep_run env 0.3%float m) as (o & m1 & Hrun & Ho & Hw).
      destruct Ho as [-> | [e ->]].
      + rewrite (bind_run _ _ _ _ _ Hrun).
        destruct (sizeCheck_run env m1 (within_initialized _ _ Hw Hi))
          as (o' & m2 & Hrun' & Ho' & Hw').
        exists o', m2. split; [exact Hrun' | split; [exact Ho' | ]].
        now apply (within_trans m m1).
      + rewrite (bind_fail _ _ _ _ _ Hrun). exists (Rejected e), m1.
        split; [reflexivity | split; [right; eauto | exact Hw]].
    - rewrite (bind_run _ _ m m tt) by reflexivity. now apply sizeCheck_run. }
  destruct Hbody as (o & m1 & Hrun & [-> | [e ->]] & Hw); exists m1.
  - now rewrite (tryCatch_run _ _ _ _ _ Hrun).
  - now rewrite (tryCatch_fail _ _ _ _ _ Hrun).
Qed.

(** Above the threshold maintenance starts with a sweep of 30 per cent. *)
Lemma performMaintenance_sweeps (env : Env) (m : Manager) :
  initialized m = true -> useFallback m = false -> db m = true ->
  countFails env = false -> getAllFails env = false -> cleanupFails env = false ->
  (1000 < size (store m))%nat ->
  exists m', performMaintenance JSON_length (init JSON_length) env m = (Resolved tt, m') /\
             within (setStore (deleteAll (scansToDelete (store m) 0.3%float) (store m)) m) m'.
Proof.
  intros Hi Hf Hdb Hcnt Hg Hc Hsize. unfold performMaintenance.
  rewrite (bind_run _ _ m m false) by (unfold read; now rewrite Hf).
  set (m1 := setStore _ m).
  destruct (sizeCheck_run env m1 Hi) as (o & m2 & Hrun & Ho & Hw).
  assert (Hbody :
            (scanCount <- getScanCount env ;;
             (if CLEANUP_THRESHOLD <? scanCount
              then cleanupOldRecords env 0.3%float ;;; ret tt else ret tt) ;;;
             approxSize <- estimateDBSize JSON_length (init JSON_length) env ;;
             if sizeLimit <? approxSize
             then cleanupOldRecords env 0.5%float ;;; ret tt else ret tt) m = (o, m2)).
  { rewrite (bind_run _ _ m m (Z.of_nat (size (store m)))).
    2:{ unfold getScanCount. now rewrite Hdb, Hcnt. }
    destruct (Z.ltb_spec CLEANUP_THRESHOLD (Z.of_nat (size (store m)))) as [_|H].
    2:{ unfold CLEANUP_THRESHOLD in H. lia. }
    rewrite (bind_run _ _ m m1 tt); [exact Hrun | ].
    rewrite (bind_run _ _ _ _ _ (cleanupOldRecords_run env 0.3%float m Hdb Hg Hc ltac:(lia))).
    reflexivity. }
  exists m2. split; [ | exact Hw].
  destruct Ho as [-> | [e ->]].
  - now rewrite (tryCatch_run _ _ _ _ _ Hbody).
  - now rewrite (tryCatch_fail _ _ _ _ _ Hbody).
Qed.

(** Below the two thresholds maintenance changes nothing. *)
Lemma performMaintenance_idle (env : Env) (m : Manager) :
  initialized m = true ->
  (size (store m) <= 1000)%nat ->
  (forall r, r ∈ records (store m) -> JSON_length r <= 40000) ->
  performMaintenance JSON_length (init JSON_length) env m = (Resolved tt, m).
Proof.
  intros Hi Hsize Hall. unfold performMaintenance.
  rewrite (bind_run _ _ m m (useFallback m)) by reflexivity.
  destruct (useFallback m) eqn:Hf; [reflexivity | ].
  destruct (getScanCount_cases env m) as [[e Hcount] | Hcount].
  { now erewrite tryCatch_fail by (apply bind_fail; exact Hcount). }
  assert (Hdb : db m = true).
  { unfold getScanCount in Hcount. destruct (db m); [reflexivity | discriminate]. }
  unfold tryCatch. rewrite (bind_run _ _ _ _ _ Hcount). unfold bind at 1.
  destruct (Z.ltb_spec CLEANUP_THRESHOLD (Z.of_nat (size (store m)))) as [H|_].
  { unfold CLEANUP_THRESHOLD in H. lia. }
  cbn [ret]. unfold bind at 1.
  destruct (getAllFails env) eqn:Hg.
  - unfold estimateDBSize, bind at 1.
    rewrite (getScans_outcome JSON_length env "" 1000 0 m Hi), Hf, Hdb, Hg. reflexivity.
  - destruct (estimateDBSize_bound JSON_length env 40000 m Hi Hf Hdb Hg) as (n & Hest & Hn);
      [lia | exact Hall | ].
    rewrite Hest. rewrite sizeLimit_value.
    destruct (Z.ltb_spec 41943040 n) as [Hbig|_]; [nia | reflexivity].
Qed.

Lemma insertScan_run (env : Env) (s : Scan) (m : Manager) :
  db m = true -> store m !! id s = None -> addFails env = false ->
  insertScan env s m = (Resolved (id s), setStore (<[id s := s]> (store m)) m).
Proof.
  intros Hdb Hk Ha. unfold insertScan, withDb, bind, read. now rewrite Hdb, Hk, Ha.
Qed.

Lemma insertScan_fail (env : Env) (s : Scan) (m : Manager) :
  db m = false \/ is_Some (store m !! id s) \/ addFails env = true ->
  exists e, insertScan env s m = (Rejected e, m).
Proof.
  intros H. unfold insertScan, withDb, bind, read.
  destruct (db m); [ | eexists; reflexivity].
  destruct (store m !! id s); [eexists; reflexivity | ].
  destruct (addFails env); [eexists; reflexivity | ].
  destruct H as [H | [[x H] | H]]; discriminate.
Qed.

(** The three ways a write on the primary store goes. *)
Lemma storeScan_duplicate (env : Env) (scanData : Scan) (m : Manager) (d : string) :
  initialized m = true -> useFallback m = false ->
  validateScanData JSON_length scanData = Ok tt ->
  truthy (duplicateOf env scanData m) = Some d ->
  storeScan JSON_length env scanData m = (Resolved d, m).
Proof.
  intros Hi Hf Hv Hd. unfold storeScan.
  rewrite (bind_run _ _ _ _ _ (ensureInitialized_ready _ env m Hi)). rewrite Hv.
  rewrite (bind_run _ _ m m false) by (unfold read; now rewrite Hf).
  apply tryCatch_run.
  rewrite (bind_run _ _ _ _ _ (checkForDuplicate_run env scanData m Hi)).
  now rewrite Hd.
Qed.

Lemma storeScan_inserted (env : Env) (scanData : Scan) (m : Manager) :
  initialized m = true -> useFallback m = false ->
  validateScanData JSON_length scanData = Ok tt ->
  truthy (duplicateOf env scanData m) = None ->
  db m = true -> store m !! id (sanitizeScanData env scanData) = None ->
  addFails env = false ->
  let stored := sanitizeScanData env scanData in
  storeScan JSON_length env scanData m
  = (Resolved (id stored),
     snd (performMaintenance JSON_length (init JSON_length) env
            (setStore (<[id stored := stored]> (store m)) m))).
Proof.
  intros Hi Hf Hv Hd Hdb Hk Ha stored. unfold storeScan.
  rewrite (bind_run _ _ _ _ _ (ensureInitialized_ready _ env m Hi)). rewrite Hv.
  rewrite (bind_run _ _ m m false) by (unfold read; now rewrite Hf).
  set (m1 := setStore (<[id stored := stored]> (store m)) m).
  destruct (performMaintenance_run env m1 Hi) as (m2 & Hpm & _).
  rewrite Hpm. cbn [snd].
  apply tryCatch_run.
  rewrite (bind_run _ _ _ _ _ (checkForDuplicate_run env scanData m Hi)). rewrite Hd.
  rewrite (bind_run _ _ _ _ _ (insertScan_run env stored m Hdb Hk Ha)).
  fold m1. now rewrite (bind_run _ _ _ _ _ Hpm).
Qed.

Lemma storeScan_insert_fails (env : Env) (scanData : Scan) (m : Manager) :
  initialized m = true -> useFallback m = false ->
  validateScanData JSON_length scanData = Ok tt ->
  truthy (duplicateOf env scanData m) = None ->
  db m = false \/ is_Some (store m !! id (sanitizeScanData env scanData))
    \/ addFails env = true ->
  storeScan JSON_length env scanData m
  = tryCatch (fallbackStoreScan env scanData)
      (fun _ => throw (DBError "All storage methods failed" "storeScan"))
      (setUseFallback true (setFallbackInitialized m)).
Proof.
  intros Hi Hf Hv Hd Hfail. unfold storeScan.
  rewrite (bind_run _ _ _ _ _ (ensureInitialized_ready _ env m Hi)). rewrite Hv.
  rewrite (bind_run _ _ m m false) by (unfold read; now rewrite Hf).
  destruct (insertScan_fail env (sanitizeScanData env scanData) m Hfail) as [e He].
  erewrite tryCatch_fail.
  2:{ rewrite (bind_run _ _ _ _ _ (checkForDuplicate_run env scanData m Hi)). rewrite Hd.
      apply bind_fail. exact He. }
  rewrite (bind_run _ _ m m false) by (unfold read; now rewrite Hf).
  cbn [negb]. unfold tryCatch at 1. unfold bind at 1. unfold fallbackInit, update at 1.
  unfold bind at 1. unfold update at 1. reflexivity.
Qed.

End Initialised.

(* ================================================================= *)
(** ** The scan store: what its users can rely on *)

Section StoreProperties.
Import IndexedDBManager.

Lemma withId_id (r : Scan) : withId (id r) r = r.
Proof. now destruct r. Qed.

Lemma records_determined (s : gmap string Scan) (a b : Scan) :
  a ∈ records s -> b ∈ records s -> id a = id b -> a = b.
Proof.
  intros (va & Ha & Ea)%in_records (vb & Hb & Eb)%in_records Hid.
  rewrite Ea, Eb, Hid. rewrite Hid in Ha. congruence.
Qed.

Lemma deleted_in (l : list Scan) (s : gmap string Scan) (r : Scan) :
  (forall x, x ∈ l -> x ∈ records s) ->
  r ∈ records s -> r ∉ records (deleteAll l s) -> r ∈ l.
Proof.
  intros Hl Hr Hgone.
  destruct (decide (id r ∈ map id l)) as [Hin|Hout].
  - apply list_elem_of_fmap in Hin as (x & Hid & Hx).
    now rewrite (records_determined s r x Hr (Hl x Hx) Hid).
  - exfalso. apply Hgone. apply in_records in Hr as (v & Hv & Er).
    apply in_records. exists v. split; [ | exact Er].
    rewrite deleteAll_lookup. now rewrite decide_False.
Qed.

(** X1.  A sweep of a primary store of more than 500 records deletes
    [scans.slice(keepCount)] of the [n] records read oldest first,
    where [keepCount] is [Math.floor(n * (1 - ratio))]: with a
    [keepCount] from 0 on it deletes the [n - keepCount] records after
    the first [keepCount], none when [keepCount] exceeds [n]; a
    negative [keepCount] counts from the end, and the last [-keepCount]
    records are deleted, all of them when there are fewer.  What it
    deletes are the newest records: every record it keeps is at most
    as recent as every record it deletes. *)
Theorem cleanupOldRecords_removes_newest (env : Env) (ratio : float) (m : Manager) :
  db m = true -> getAllFails env = false -> cleanupFails env = false ->
  (500 < size (store m))%nat ->
  let n := Z.of_nat (size (store m)) in
  let k := keepCount (size (store m)) ratio in
  let deleted := if k <? 0 then Z.min (- k) n else Z.max (n - k) 0 in
  let m' := snd (cleanupOldRecords env ratio m) in
  fst (cleanupOldRecords env ratio m) = Resolved deleted /\
  Z.of_nat (size (store m')) = n - deleted /\
  store m' ⊆ store m /\
  (forall kept gone,
     kept ∈ records (store m') -> gone ∈ records (store m) -> gone ∉ records (store m') ->
     timestamp kept <= timestamp gone).
Proof.
  intros Hdb Hg Hc Hsize n k deleted m'. subst m'.
  rewrite (cleanupOldRecords_run env ratio m Hdb Hg Hc Hsize). cbn [fst snd store setStore].
  assert (Hdeleted : Z.of_nat (size (store m) - JS.sliceStart k (size (store m))) = deleted).
  { subst deleted n. unfold JS.sliceStart. destruct (Z.ltb_spec k 0); lia. }
  split; [now rewrite scansToDelete_length; fold k; rewrite Hdeleted | ].
  split; [rewrite sweep_size; fold k; lia | ].
  split; [apply deleteAll_subseteq | ].
  intros kept gone Hk Hin Hout.
  apply (cleanupOldRecords_deletes_newest (store m) ratio); [exact Hk | ].
  apply (deleted_in _ (store m)); [ | exact Hin | exact Hout].
  intros x. apply scansToDelete_in.
Qed.

Lemma cleanupOldRecords_removes_newest_witness :
  (500 < size (store (Examples.primary Examples.bigStore)))%nat /\
  fst (cleanupOldRecords (Examples.calm 1800000000000 "scan_new") 0.3%float
         (Examples.primary Examples.bigStore)) = Resolved 360 /\
  fst (cleanupOldRecords (Examples.calm 1800000000000 "scan_new") 1.5%float
         (Examples.primary Examples.bigStore)) = Resolved 600.
Proof.
  assert (Hsize : size (store (Examples.primary Examples.bigStore)) = 1200%nat)
    by (vm_compute; reflexivity).
  assert (Hlt : (500 < size (store (Examples.primary Examples.bigStore)))%nat)
    by (rewrite Hsize; lia).
  split; [exact Hlt | split].
  - destruct (cleanupOldRecords_removes_newest (Examples.calm 1800000000000 "scan_new")
                0.3%float (Examples.primary Examples.bigStore) eq_refl eq_refl eq_refl Hlt)
      as (Hrun & _).
    rewrite Hrun, Hsize. vm_compute. reflexivity.
  - destruct (cleanupOldRecords_removes_newest (Examples.calm 1800000000000 "scan_new")
                1.5%float (Examples.primary Examples.bigStore) eq_refl eq_refl eq_refl Hlt)
      as (Hrun & _).
    rewrite Hrun, Hsize. vm_compute. reflexivity.
Defined.

(** *** Sorting *)

Lemma insert_sorted_StronglySorted {A} (R : relation A) (before : A -> A -> bool)
    (x : A) (l : list A) :
  Transitive R ->
  (forall a b, before a b = true -> R a b) ->
  (forall a b, before a b = false -> R b a) ->
  StronglySorted R l -> StronglySorted R (JS.insert_sorted before x l).
Proof.
  intros Ht Hyes Hno. induction 1 as [|y l Hs IH Hall]; cbn [JS.insert_sorted].
  - repeat constructor.
  - destruct (before x y) eqn:Hxy.
    + constructor; [now constructor | ].
      constructor; [now apply Hyes | ].
      eapply Forall_impl; [exact Hall | ]. intros z Hz. cbn in Hz.
      etransitivity; [apply Hyes, Hxy | exact Hz].
    + constructor; [exact IH | ].
      rewrite Forall_forall in Hall |- *. intros z Hz.
      rewrite insert_sorted_perm in Hz.
      apply elem_of_cons in Hz as [->|Hz]; [now apply Hno | now apply Hall].
Qed.

Lemma sort_StronglySorted {A} (R : relation A) (before : A -> A -> bool) (l : list A) :
  Transitive R ->
  (forall a b, before a b = true -> R a b) ->
  (forall a b, before a b = false -> R b a) ->
  StronglySorted R (JS.sort before l).
Proof.
  intros Ht Hyes Hno. unfold JS.sort. induction l as [|x l IH]; cbn [foldr].
  - constructor.
  - now apply insert_sorted_StronglySorted.
Qed.

Lemma newestFirst_descending (l : list Scan) : descending (newestFirst l).
Proof.
  apply sort_StronglySorted.
  - intros a b c Hab Hbc. lia.
  - intros a b H. now apply Z.leb_le in H.
  - intros a b H. apply Z.leb_gt in H. lia.
Qed.

Lemma slice_StronglySorted {A} (R : relation A) (from to : nat) (l : list A) :
  StronglySorted R l -> StronglySorted R (JS.slice from to l).
Proof.
  intros H. unfold JS.slice.
  rewrite <- (firstn_skipn from l) in H. apply StronglySorted_app in H as (_ & _ & H).
  rewrite <- (firstn_skipn (to - from) (skipn from l)) in H.
  now apply StronglySorted_app in H as (_ & H & _).
Qed.

Lemma slice_length_bound {A} (from to : nat) (l : list A) :
  (length (JS.slice from to l) <= to - from)%nat.
Proof. unfold JS.slice. rewrite length_firstn. lia. Qed.

(** *** Invariants of the two stores *)

Lemma changes_keep (I : Manager -> Prop) (m m' : Manager) :
  (forall a b, change a b -> I a -> I b) -> rtc change m m' -> I m -> I m'.
Proof. intros Hstep Hrtc. induction Hrtc; eauto. Qed.

(** X2.  Whatever calls the manager receives, the fallback list stays
    sorted newest first and within 500 entries. *)
Theorem fallback_list_stays_sorted_and_capped (JSON_length : Scan -> Z)
    (calls : list (Env * Call)) (m : Manager) :
  descending (chromeScans m) -> (length (chromeScans m) <= 500)%nat ->
  descending (chromeScans (runCalls JSON_length calls m)) /\
  (length (chromeScans (runCalls JSON_length calls m)) <= 500)%nat.
Proof.
  intros Hd Hl.
  apply (changes_keep (fun m => descending (chromeScans m) /\
                                (length (chromeScans m) <= 500)%nat) m);
    [ | apply runCalls_changes | now split].
  intros a b Hab [Ha1 Ha2].
  destruct Hab as [_ Hc | r _ _ _ Hc | _ Hc | r _ _ Hc | _ Hc]; rewrite Hc; auto.
  - split; [apply slice_StronglySorted, newestFirst_descending | ].
    apply (slice_length_bound 0 500).
  - split; [constructor | cbn; lia].
Qed.

Lemma fallback_list_stays_sorted_and_capped_witness :
  descending (chromeScans (constructed ∅ [])) /\
  (length (chromeScans (constructed ∅ [])) <= 500)%nat /\
  (length (chromeScans (runCalls Examples.shortScans
     [(Examples.opening OpenError 1000, CallInit);
      (Examples.calm 2000 "scan_a", CallStoreScan Examples.firstScan)]
     (constructed ∅ []))) <= 500)%nat.
Proof.
  assert (Hd : descending (chromeScans (constructed ∅ []))) by constructor.
  assert (Hl : (length (chromeScans (constructed ∅ [])) <= 500)%nat) by (cbn; lia).
  split; [exact Hd | split; [exact Hl | ]].
  exact (proj2 (fallback_list_stays_sorted_and_capped Examples.shortScans _ _ Hd Hl)).
Defined.

(** X3.  No call stores a record that carries a password, a token, an
    API key or a cookie: when both stores hold sanitised records only,
    they still do after any sequence of calls. *)
Theorem stored_scans_stay_sanitised (JSON_length : Scan -> Z)
    (calls : list (Env * Call)) (m : Manager) :
  (forall k r, store m !! k = Some r -> sanitised r) ->
  Forall sanitised (chromeScans m) ->
  (forall k r, store (runCalls JSON_length calls m) !! k = Some r -> sanitised r) /\
  Forall sanitised (chromeScans (runCalls JSON_length calls m)).
Proof.
  intros Hs Hc.
  apply (changes_keep (fun m => (forall k r, store m !! k = Some r -> sanitised r) /\
                                Forall sanitised (chromeScans m)) m);
    [ | apply runCalls_changes | now split].
  intros a b Hab [Ha1 Ha2].
  destruct Hab as [Hst Hch | r Hfresh Hr Hst Hch | Hst Hch | r Hr Hst Hch | Hst Hch];
    rewrite ?Hst, ?Hch.
  - now split.
  - split; [ | exact Ha2]. intros k x Hk.
    apply lookup_insert_Some in Hk as [[_ <-] | [_ Hk]]; eauto.
  - split; [ | exact Ha2]. intros k x Hk. apply (Ha1 k).
    eapply lookup_weaken; eassumption.
  - split; [exact Ha1 | ]. apply Forall_forall. intros x Hx.
    apply slice_subseteq in Hx. unfold newestFirst in Hx. rewrite sort_perm in Hx.
    apply elem_of_app in Hx as [Hx | Hx%list_elem_of_singleton].
    + rewrite Forall_forall in Ha2. now apply Ha2.
    + now subst.
  - split; [exact Ha1 | constructor].
Qed.

Lemma stored_scans_stay_sanitised_witness :
  Forall sanitised (chromeScans (constructed ∅ [])) /\
  Forall sanitised (chromeScans (runCalls Examples.shortScans
     [(Examples.opening OpenError 1000, CallInit);
      (Examples.calm 2000 "scan_a", CallStoreScan Examples.firstScan)]
     (constructed ∅ []))).
Proof.
  assert (Hc : Forall sanitised (chromeScans (constructed ∅ []))) by constructor.
  split; [exact Hc | ].
  refine (proj2 (stored_scans_stay_sanitised Examples.shortScans _ _ _ Hc)).
  intros k r H. cbn in H. now rewrite lookup_empty in H.
Defined.

End StoreProperties.

Section WriteProperties.
Import IndexedDBManager.

Lemma fallbackStoreScan_run (env : Env) (scanData : Scan) (m : Manager) :
  chromeGetFails env = false -> chromeSetFails env = false ->
  fallbackStoreScan env scanData m
  = (Resolved (id (sanitizeScanData env scanData)),
     setChromeScans
       (JS.slice 0 500 (newestFirst (chromeScans m ++ [sanitizeScanData env scanData]))) m).
Proof.
  intros Hg Hs. unfold fallbackStoreScan. rewrite Hg. unfold bind, read. now rewrite Hs.
Qed.

(** X4.  With the extension storage answering, validation is the only
    way a write on an initialised manager fails: a scan that passes it
    is stored under some id, on the primary store or on the fallback,
    and a scan that does not is rejected with the validation message
    before anything is touched. *)
Theorem storeScan_fails_only_on_validation (JSON_length : Scan -> Z) (env : Env) (scanData : Scan) (m : Manager) :
  initialized m = true -> chromeGetFails env = false -> chromeSetFails env = false ->
  match validateScanData JSON_length scanData with
  | Ok _ => exists k, fst (storeScan JSON_length env scanData m) = Resolved k
  | Throw message =>
      storeScan JSON_length env scanData m = (Rejected (PlainError message), m)
  end.
Proof.
  intros Hi Hg Hs. destruct (validateScanData JSON_length scanData) as [[]|message] eqn:Hv.
  2:{ unfold storeScan.
      rewrite (bind_run _ _ _ _ _ (ensureInitialized_ready _ env m Hi)). now rewrite Hv. }
  destruct (useFallback m) eqn:Hf.
  { rewrite (storeScan_fallback JSON_length env scanData m Hi Hf Hv Hg Hs). eauto. }
  destruct (truthy (duplicateOf env scanData m)) as [d|] eqn:Hd.
  { rewrite (storeScan_duplicate JSON_length env scanData m d Hi Hf Hv Hd). eauto. }
  destruct (db m) eqn:Hdb; [destruct (store m !! id (sanitizeScanData env scanData)) eqn:Hk;
                            [ | destruct (addFails env) eqn:Ha] | ].
  4:{ rewrite (storeScan_insert_fails JSON_length env scanData m Hi Hf Hv Hd) by auto.
      erewrite tryCatch_run by (now apply fallbackStoreScan_run). eauto. }
  3:{ rewrite (storeScan_inserted JSON_length env scanData m Hi Hf Hv Hd Hdb Hk Ha). eauto. }
  all: rewrite (storeScan_insert_fails JSON_length env scanData m Hi Hf Hv Hd) by eauto;
       erewrite tryCatch_run by (now apply fallbackStoreScan_run); eauto.
Qed.

Lemma storeScan_fails_only_on_validation_witness :
  initialized (Examples.primary ∅) = true /\
  (exists k, fst (storeScan Examples.shortScans (Examples.calm 2000 "scan_a")
                    Examples.firstScan (Examples.primary ∅)) = Resolved k) /\
  storeScan Examples.shortScans (Examples.calm 2000 "scan_a") Examples.emptyScan
    (Examples.primary ∅)
  = (Rejected (PlainError "Scan data must contain url or title"), Examples.primary ∅) /\
  storeScan (fun _ => 6000000) (Examples.calm 2000 "scan_a") Examples.firstScan
    (Examples.primary ∅)
  = (Rejected (PlainError "Scan data too large: 6000000 bytes"), Examples.primary ∅).
Proof.
  split; [reflexivity | split; [ | split] ].
  - exact (storeScan_fails_only_on_validation Examples.shortScans
             (Examples.calm 2000 "scan_a") Examples.firstScan (Examples.primary ∅)
             eq_refl eq_refl eq_refl).
  - exact (storeScan_fails_only_on_validation Examples.shortScans
             (Examples.calm 2000 "scan_a") Examples.emptyScan (Examples.primary ∅)
             eq_refl eq_refl eq_refl).
  - exact (storeScan_fails_only_on_validation (fun _ => 6000000)
             (Examples.calm 2000 "scan_a") Examples.firstScan (Examples.primary ∅)
             eq_refl eq_refl eq_refl).
Defined.

(** Once on the fallback, always on the fallback. *)
Lemma perform_stays_on_fallback (JSON_length : Scan -> Z) (env : Env) (c : Call) (m : Manager) :
  initialized m = true -> useFallback m = true ->
  initialized (perform JSON_length env c m) = true /\
  useFallback (perform JSON_length env c m) = true.
Proof.
  intros Hi Hf.
  assert (Hget : forall q l o, snd (getScans (init JSON_length) env q l o m) = m).
  { intros q l o. rewrite (getScans_outcome JSON_length env q l o m Hi). reflexivity. }
  destruct c; cbn [perform].
  - unfold init. destruct (initializationPromise m); [auto | ].
    unfold _initialize, bind, read. cbn. rewrite Hi. cbn. auto.
  - unfold storeScan.
    rewrite (bind_run _ _ _ _ _ (ensureInitialized_ready _ env m Hi)).
    destruct (validateScanData JSON_length scanData); [ | auto].
    rewrite (bind_run _ _ m m true) by (unfold read; now rewrite Hf).
    unfold fallbackStoreScan. destruct (chromeGetFails env); [auto | ].
    unfold bind, read. destruct (chromeSetFails env); cbn; auto.
  - now rewrite Hget.
  - unfold getScansByUrl.
    rewrite (bind_run _ _ _ _ _ (ensureInitialized_ready _ env m Hi)).
    unfold withDb. destruct (db m); [ | auto]. destruct (urlQueryFails env); cbn; auto.
  - unfold performMaintenance, bind, read. rewrite Hf. cbn. auto.
  - destruct (cleanupOldRecords_cases env ratio m) as [_ ((_ & H1 & _ & H2 & _) & _)].
    split; congruence.
  - unfold clearAllScans.
    rewrite (bind_run _ _ _ _ _ (ensureInitialized_ready _ env m Hi)).
    rewrite (bind_run _ _ m m true) by (unfold read; now rewrite Hf).
    unfold fallbackClearScans. destruct (chromeRemoveFails env); cbn; auto.
  - unfold exportScans. now rewrite Hget.
Qed.

Lemma runCalls_stay_on_fallback (JSON_length : Scan -> Z) (calls : list (Env * Call)) (m : Manager) :
  initialized m = true -> useFallback m = true ->
  useFallback (runCalls JSON_length calls m) = true.
Proof.
  revert m. induction calls as [|c calls IH]; intros m Hi Hf; [exact Hf | ].
  cbn [runCalls fold_left].
  destruct (perform_stays_on_fallback JSON_length (fst c) (snd c) m Hi Hf) as [H1 H2].
  now apply IH.
Qed.

(** X5.  When the insert into the primary store fails (no database,
    the key is taken, or the request errors), the write goes to the
    fallback list instead, the primary store is left as it was, and
    the manager stays on the fallback for every later call. *)
Theorem failed_insert_moves_to_fallback (JSON_length : Scan -> Z) (env : Env) (scanData : Scan) (m : Manager) :
  initialized m = true -> useFallback m = false ->
  validateScanData JSON_length scanData = Ok tt ->
  truthy (duplicateOf env scanData m) = None ->
  db m = false \/ is_Some (store m !! id (sanitizeScanData env scanData))
    \/ addFails env = true ->
  chromeGetFails env = false -> chromeSetFails env = false ->
  let stored := sanitizeScanData env scanData in
  let m' := snd (storeScan JSON_length env scanData m) in
  fst (storeScan JSON_length env scanData m) = Resolved (id stored) /\
  store m' = store m /\
  chromeScans m' = JS.slice 0 500 (newestFirst (chromeScans m ++ [stored])) /\
  (forall calls, isUsingFallback (runCalls JSON_length calls m') = true).
Proof.
  intros Hi Hf Hv Hd Hfail Hg Hs stored m'. subst m'.
  rewrite (storeScan_insert_fails JSON_length env scanData m Hi Hf Hv Hd Hfail).
  erewrite tryCatch_run by (now apply fallbackStoreScan_run).
  cbn [fst snd store chromeScans setChromeScans setUseFallback setFallbackInitialized].
  split; [reflexivity | split; [reflexivity | split; [reflexivity | ]]].
  intros calls. apply runCalls_stay_on_fallback; [exact Hi | reflexivity].
Qed.

Lemma failed_insert_moves_to_fallback_witness :
  is_Some (store (Examples.primary {[ "scan_1" := Examples.firstScan ]})
             !! id (sanitizeScanData (Examples.calm 1800000000000 "scan_2")
                      Examples.firstScan)) /\
  fst (storeScan Examples.shortScans (Examples.calm 1800000000000 "scan_2")
         Examples.firstScan (Examples.primary {[ "scan_1" := Examples.firstScan ]}))
    = Resolved "scan_1" /\
  isUsingFallback
    (snd (storeScan Examples.shortScans (Examples.calm 1800000000000 "scan_2")
            Examples.firstScan (Examples.primary {[ "scan_1" := Examples.firstScan ]})))
    = true.
Proof.
  assert (Hk : is_Some (store (Examples.primary {[ "scan_1" := Examples.firstScan ]})
                          !! id (sanitizeScanData (Examples.calm 1800000000000 "scan_2")
                                   Examples.firstScan)))
    by (exists Examples.firstScan; reflexivity).
  assert (Hd : truthy (duplicateOf (Examples.calm 1800000000000 "scan_2") Examples.firstScan
                         (Examples.primary {[ "scan_1" := Examples.firstScan ]})) = None)
    by (vm_compute; reflexivity).
  split; [exact Hk | ].
  destruct (failed_insert_moves_to_fallback Examples.shortScans
              (Examples.calm 1800000000000 "scan_2")
              Examples.firstScan (Examples.primary {[ "scan_1" := Examples.firstScan ]})
              eq_refl eq_refl eq_refl Hd (or_intror (or_introl Hk)) eq_refl eq_refl)
    as (Hrun & _ & _ & Hstay).
  split; [exact Hrun | exact (Hstay [])].
Defined.

End WriteProperties.

Section ReadProperties.
Import IndexedDBManager.

Lemma applyQuery_in (primary : bool) (query : string) (scans : list Scan) (r : Scan) :
  r ∈ applyQuery primary query scans ->
  r ∈ scans /\
  (query <> "" -> matchesQuery primary (JS.toLowerCase query) r = true).
Proof.
  unfold applyQuery. destruct (String.eqb_spec query "") as [->|Hne].
  - intros H. split; [exact H | congruence].
  - intros H%list_elem_of_In%filter_In. destruct H as [H1 H2].
    split; [now apply list_elem_of_In | auto].
Qed.

(** X6.  A query of an initialised manager leaves it unchanged, and
    what it returns is sorted newest first, holds at most [limit]
    scans, all of them stored in the store in use, and, when the query
    text is not empty, all of them matching it. *)
Theorem getScans_newest_first_within_limit (JSON_length : Scan -> Z) (env : Env)
    (query : string) (limit offset : nat) (m : Manager) (result : list Scan) :
  initialized m = true ->
  fst (getScans (init JSON_length) env query limit offset m) = Resolved result ->
  snd (getScans (init JSON_length) env query limit offset m) = m /\
  (length result <= limit)%nat /\
  descending result /\
  (forall r, r ∈ result ->
     (if useFallback m then r ∈ chromeScans m else r ∈ records (store m)) /\
     (query <> "" ->
      matchesQuery (negb (useFallback m)) (JS.toLowerCase query) r = true)).
Proof.
  intros Hi. rewrite (getScans_outcome JSON_length env query limit offset m Hi).
  cbn [fst snd]. intros Hres. split; [reflexivity | ].
  assert (Hshape : exists source,
            result = JS.slice offset (offset + limit)
                       (newestFirst (applyQuery (negb (useFallback m)) query source)) /\
            source ≡ₚ (if useFallback m then chromeScans m else records (store m))).
  { destruct (useFallback m).
    - destruct (chromeGetFails env); [discriminate | ]. injection Hres as <-.
      exists (chromeScans m). split; reflexivity.
    - destruct (db m); [ | discriminate]. destruct (getAllFails env); [discriminate | ].
      injection Hres as <-. exists (byTimestamp (store m)).
      split; [reflexivity | apply byTimestamp_perm]. }
  destruct Hshape as (source & -> & Hperm).
  split; [ | split].
  - etransitivity; [apply slice_length_bound | lia].
  - apply slice_StronglySorted, newestFirst_descending.
  - intros r Hr%slice_subseteq. unfold newestFirst in Hr. rewrite sort_perm in Hr.
    apply applyQuery_in in Hr as [Hin Hq]. split; [ | exact Hq].
    rewrite Hperm in Hin. now destruct (useFallback m).
Qed.

Lemma getScans_newest_first_within_limit_witness :
  initialized (Examples.primary {[ "scan_1" := Examples.firstScan ]}) = true /\
  fst (getScans (init Examples.shortScans) (Examples.calm 2000 "scan_a") "alpha" 10 0
         (Examples.primary {[ "scan_1" := Examples.firstScan ]}))
    = Resolved [Examples.firstScan] /\
  descending [Examples.firstScan].
Proof.
  assert (Hrun : fst (getScans (init Examples.shortScans) (Examples.calm 2000 "scan_a")
                        "alpha" 10 0 (Examples.primary {[ "scan_1" := Examples.firstScan ]}))
                 = Resolved [Examples.firstScan]) by (vm_compute; reflexivity).
  split; [reflexivity | split; [exact Hrun | ]].
  exact (proj1 (proj2 (proj2 (getScans_newest_first_within_limit Examples.shortScans
                 (Examples.calm 2000 "scan_a") "alpha" 10 0
                 (Examples.primary {[ "scan_1" := Examples.firstScan ]})
                 [Examples.firstScan] eq_refl Hrun)))).
Defined.

Lemma byTimestamp_empty : byTimestamp ∅ = [].
Proof. unfold byTimestamp, records. now rewrite map_to_list_empty. Qed.

(** X7.  After [clearAllScans()] has resolved, a query finds nothing,
    whatever its text and its window. *)
Theorem clearAllScans_then_getScans_empty (JSON_length : Scan -> Z) (env env' : Env)
    (query : string) (limit offset : nat) (m : Manager) :
  initialized m = true ->
  fst (clearAllScans JSON_length env m) = Resolved true ->
  chromeGetFails env' = false -> getAllFails env' = false ->
  fst (getScans (init JSON_length) env' query limit offset
         (snd (clearAllScans JSON_length env m))) = Resolved [].
Proof.
  intros Hi Hclear Hg Ha. unfold clearAllScans in *.
  rewrite (bind_run _ _ _ _ _ (ensureInitialized_ready _ env m Hi)) in *.
  rewrite (bind_run _ _ m m (useFallback m)) in * by reflexivity.
  assert (Hempty : forall primary,
            JS.slice offset (offset + limit) (newestFirst (applyQuery primary query []))
            = []).
  { intros primary. unfold applyQuery. destruct (String.eqb query "");
      unfold JS.slice; cbn; now rewrite skipn_nil, firstn_nil. }
  destruct (useFallback m) eqn:Hf.
  - unfold fallbackClearScans in *. destruct (chromeRemoveFails env); [discriminate | ].
    cbn. rewrite getScans_outcome by exact Hi. cbn. rewrite Hf, Hg. cbn.
    now rewrite Hempty.
  - unfold withDb in *. destruct (db m) eqn:Hdb; [ | discriminate].
    destruct (clearFails env); [discriminate | ].
    cbn. rewrite getScans_outcome by exact Hi. cbn. rewrite Hf, Hdb, Ha. cbn.
    now rewrite byTimestamp_empty, Hempty.
Qed.

Lemma clearAllScans_then_getScans_empty_witness :
  fst (clearAllScans Examples.shortScans (Examples.calm 2000 "scan_a")
         (Examples.primary {[ "scan_1" := Examples.firstScan ]})) = Resolved true /\
  fst (getScans (init Examples.shortScans) (Examples.calm 3000 "scan_b") "" 100 0
         (snd (clearAllScans Examples.shortScans (Examples.calm 2000 "scan_a")
                 (Examples.primary {[ "scan_1" := Examples.firstScan ]})))) = Resolved [].
Proof.
  assert (Hclear : fst (clearAllScans Examples.shortScans (Examples.calm 2000 "scan_a")
                          (Examples.primary {[ "scan_1" := Examples.firstScan ]}))
                   = Resolved true) by reflexivity.
  split; [exact Hclear | ].
  exact (clearAllScans_then_getScans_empty Examples.shortScans (Examples.calm 2000 "scan_a")
           (Examples.calm 3000 "scan_b") "" 100 0
           (Examples.primary {[ "scan_1" := Examples.firstScan ]})
           eq_refl Hclear eq_refl eq_refl).
Defined.

End ReadProperties.

Section RoundTrip.
Import IndexedDBManager.

Lemma in_byTimestamp (s : gmap string Scan) (r : Scan) :
  r ∈ byTimestamp s <-> r ∈ records s.
Proof. now rewrite byTimestamp_perm. Qed.

Lemma records_insert (s : gmap string Scan) (r : Scan) :
  r ∈ records (<[id r := r]> s).
Proof.
  apply in_records. exists r. split; [apply lookup_insert_eq | now rewrite withId_id].
Qed.

(** X8.  A scan written to a primary store that holds fewer than 1000
    records, none of them long, can be read back: the write resolves
    with the record's id, the store holds the sanitised record under
    that id and is otherwise as before, and a query without text that
    is wide enough returns the record. *)
Theorem storeScan_then_read_back (JSON_length : Scan -> Z) (env env' : Env)
    (scanData : Scan) (m : Manager) :
  initialized m = true -> useFallback m = false -> db m = true ->
  validateScanData JSON_length scanData = Ok tt ->
  truthy (duplicateOf env scanData m) = None ->
  store m !! id (sanitizeScanData env scanData) = None ->
  addFails env = false ->
  (size (store m) < 1000)%nat ->
  (forall r, r ∈ records (<[id (sanitizeScanData env scanData)
                             := sanitizeScanData env scanData]> (store m)) ->
             JSON_length r <= 40000) ->
  getAllFails env' = false ->
  let stored := sanitizeScanData env scanData in
  let m' := snd (storeScan JSON_length env scanData m) in
  fst (storeScan JSON_length env scanData m) = Resolved (id stored) /\
  store m' = <[id stored := stored]> (store m) /\
  exists found,
    fst (getScans (init JSON_length) env' "" (S (size (store m))) 0 m') = Resolved found /\
    stored ∈ found.
Proof.
  intros Hi Hf Hdb Hv Hd Hk Ha Hsize Hall Hg stored m'. subst m'.
  rewrite (storeScan_inserted JSON_length env scanData m Hi Hf Hv Hd Hdb Hk Ha).
  fold stored in Hk, Hall |- *.
  rewrite (performMaintenance_idle JSON_length env
             (setStore (<[id stored := stored]> (store m)) m)).
  2: exact Hi.
  2:{ cbn [store setStore]. rewrite map_size_insert_None by exact Hk. lia. }
  2: exact Hall.
  cbn [fst snd store setStore].
  split; [reflexivity | split; [reflexivity | ]].
  rewrite getScans_outcome by exact Hi.
  cbn [fst useFallback db setStore store]. rewrite Hf, Hdb, Hg.
  eexists. split; [reflexivity | ].
  rewrite slice_all.
  - unfold newestFirst, applyQuery. cbn [String.eqb]. rewrite sort_perm.
    apply in_byTimestamp, records_insert.
  - unfold newestFirst, applyQuery. cbn [String.eqb].
    rewrite sort_length, byTimestamp_length, map_size_insert_None by exact Hk. lia.
Qed.

Lemma storeScan_then_read_back_witness :
  store (Examples.primary ∅)
    !! id (sanitizeScanData (Examples.calm 1700000060000 "scan_2") Examples.firstScan)
  = None /\
  fst (storeScan Examples.shortScans (Examples.calm 1700000060000 "scan_2")
         Examples.firstScan (Examples.primary ∅)) = Resolved "scan_1" /\
  store (snd (storeScan Examples.shortScans (Examples.calm 1700000060000 "scan_2")
                Examples.firstScan (Examples.primary ∅)))
  = {[ "scan_1" := sanitizeScanData (Examples.calm 1700000060000 "scan_2")
                     Examples.firstScan ]}.
Proof.
  assert (Hk : store (Examples.primary ∅)
                 !! id (sanitizeScanData (Examples.calm 1700000060000 "scan_2")
                          Examples.firstScan) = None) by reflexivity.
  assert (Hd : truthy (duplicateOf (Examples.calm 1700000060000 "scan_2")
                         Examples.firstScan (Examples.primary ∅)) = None)
    by (vm_compute; reflexivity).
  split; [exact Hk | ].
  destruct (storeScan_then_read_back Examples.shortScans
              (Examples.calm 1700000060000 "scan_2") (Examples.calm 1700000070000 "scan_3")
              Examples.firstScan (Examples.primary ∅)
              eq_refl eq_refl eq_refl eq_refl Hd Hk eq_refl)
    as (Hrun & Hstore & _).
  - cbn. rewrite map_size_empty. lia.
  - intros r _. unfold Examples.shortScans. lia.
  - reflexivity.
  - split; [exact Hrun | exact Hstore].
Defined.

(** *** The write that maintenance undoes *)

Lemma newest_is_swept (l : list Scan) (k : nat) (x : Scan) :
  StronglySorted (fun a b => timestamp a <= timestamp b) l ->
  x ∈ l -> (forall y, y ∈ l -> y = x \/ timestamp y < timestamp x) ->
  (k < length l)%nat -> x ∈ skipn k l.
Proof.
  intros Hs Hx Hmax Hk.
  rewrite <- (firstn_skipn k l) in Hx. apply elem_of_app in Hx as [Hx | Hx]; [ | exact Hx].
  destruct (skipn k l) as [|y rest] eqn:Hdrop.
  { apply (f_equal length) in Hdrop. rewrite length_skipn in Hdrop. cbn in Hdrop. lia. }
  assert (Hy : y ∈ skipn k l) by (rewrite Hdrop; apply list_elem_of_here).
  destruct (Hmax y (sublist_subseteq _ _ (sublist_drop _ _) y Hy)) as [-> | Hlt];
    [now rewrite <- Hdrop | ].
  pose proof (sorted_split l k x y Hs Hx Hy) as Hle. lia.
Qed.

Lemma floorsBelow_spec (count : nat) (from n : Z) :
  floorsBelow count from = true -> from <= n < from + Z.of_nat count ->
  let product := (JS.number n * (1 - 0.3))%float in
  PrimFloat.eqb product infinity = false /\
  PrimFloat.eqb product neg_infinity = false /\
  0 <= JS.Math_floor product < n.
Proof.
  revert from. induction count as [|count IH]; intros from Hall Hn; [lia | ].
  cbn [floorsBelow] in Hall. cbv zeta in Hall.
  apply andb_prop in Hall as [Hhere Hrest].
  destruct (decide (n = from)) as [->|Hne]; [ | apply (IH (from + 1)); [exact Hrest | lia] ].
  apply andb_prop in Hhere as [Hhere Hlt]. apply andb_prop in Hhere as [Hhere Hle].
  apply andb_prop in Hhere as [Hp Hm].
  apply negb_true_iff in Hp, Hm. apply Z.leb_le in Hle. apply Z.ltb_lt in Hlt.
  cbv zeta. auto.
Qed.

Lemma keepCount_below (n : nat) :
  1 <= Z.of_nat n <= 100001 -> (JS.sliceStart (keepCount n 0.3%float) n < n)%nat.
Proof.
  intros Hn.
  assert (H : floorsBelow (Z.to_nat 100001) 1 = true) by (vm_compute; reflexivity).
  destruct (floorsBelow_spec _ 1 (Z.of_nat n) H ltac:(lia)) as (Hp & Hm & Hle & Hlt).
  unfold keepCount. rewrite Hp, Hm. unfold JS.sliceStart.
  destruct (Z.ltb_spec (JS.Math_floor (JS.number (Z.of_nat n) * (1 - 0.3))%float) 0); lia.
Qed.

(** X9.  On a primary store that already holds 1000 records or more,
    all of them older than the scan being written, the write resolves
    with the new record's id, and the maintenance that follows the
    insert has removed that very record: the store no longer holds it
    when the call returns. *)
Theorem storeScan_over_threshold_drops_new_record (JSON_length : Scan -> Z) (env : Env)
    (scanData : Scan) (m : Manager) :
  initialized m = true -> useFallback m = false -> db m = true ->
  validateScanData JSON_length scanData = Ok tt ->
  truthy (duplicateOf env scanData m) = None ->
  store m !! id (sanitizeScanData env scanData) = None ->
  addFails env = false -> countFails env = false ->
  getAllFails env = false -> cleanupFails env = false ->
  1000 <= Z.of_nat (size (store m)) <= 100000 ->
  (forall r, r ∈ records (store m) ->
             timestamp r < timestamp (sanitizeScanData env scanData)) ->
  fst (storeScan JSON_length env scanData m) = Resolved (id (sanitizeScanData env scanData)) /\
  store (snd (storeScan JSON_length env scanData m)) !! id (sanitizeScanData env scanData)
  = None.
Proof.
  intros Hi Hf Hdb Hv Hd Hk Ha Hcnt Hg Hc Hsize Hnew.
  rewrite (storeScan_inserted JSON_length env scanData m Hi Hf Hv Hd Hdb Hk Ha).
  set (stored := sanitizeScanData env scanData) in *.
  set (s1 := <[id stored := stored]> (store m)).
  assert (Hsize1 : size s1 = S (size (store m))).
  { subst s1. now rewrite map_size_insert_None. }
  destruct (performMaintenance_sweeps JSON_length env (setStore s1 m))
    as (m2 & Hrun & (_ & _ & Hsub)); auto.
  { cbn [store setStore]. rewrite Hsize1. lia. }
  rewrite Hrun. cbn [fst snd]. split; [reflexivity | ].
  cbn [store setStore] in Hsub.
  destruct (store m2 !! id stored) as [v|] eqn:Hv2; [exfalso | reflexivity].
  pose proof (lookup_weaken _ _ _ _ Hv2 Hsub) as Hleft.
  rewrite deleteAll_lookup in Hleft. destruct (decide _) as [|Hout]; [discriminate | ].
  apply Hout. apply list_elem_of_fmap_2. unfold scansToDelete, JS.sliceFrom.
  apply newest_is_swept.
  - apply byTimestamp_sorted.
  - apply in_byTimestamp. subst s1. apply records_insert.
  - intros y Hy%in_byTimestamp.
    apply in_records in Hy as (v' & Hl & Ey). subst s1.
    apply lookup_insert_Some in Hl as [[Hid <-] | [Hid Hl]].
    + left. rewrite Ey, <- Hid. apply withId_id.
    + right. apply Hnew, in_records. eauto.
  - rewrite byTimestamp_length, Hsize1. apply keepCount_below. lia.
Qed.

End RoundTrip.

Section MoreStoreProperties.
Import IndexedDBManager.

Lemma storeScan_over_threshold_drops_new_record_witness :
  1000 <= Z.of_nat (size (store (Examples.primary Examples.bigStore))) <= 100000 /\
  fst (storeScan Examples.shortScans (Examples.calm 1800000000000 "scan_new")
         Examples.secondScan (Examples.primary Examples.bigStore)) = Resolved "scan_new" /\
  store (snd (storeScan Examples.shortScans (Examples.calm 1800000000000 "scan_new")
                Examples.secondScan (Examples.primary Examples.bigStore))) !! "scan_new"
  = None.
Proof.
  assert (Hsize : 1000 <= Z.of_nat (size (store (Examples.primary Examples.bigStore)))
                  <= 100000).
  { assert (H : size (store (Examples.primary Examples.bigStore)) = 1200%nat)
      by (vm_compute; reflexivity).
    rewrite H. lia. }
  assert (Hd : truthy (duplicateOf (Examples.calm 1800000000000 "scan_new")
                         Examples.secondScan (Examples.primary Examples.bigStore)) = None)
    by (vm_compute; reflexivity).
  assert (Hk : store (Examples.primary Examples.bigStore)
                 !! id (sanitizeScanData (Examples.calm 1800000000000 "scan_new")
                          Examples.secondScan) = None)
    by (vm_compute; reflexivity).
  assert (Hold : forall r, r ∈ records (store (Examples.primary Examples.bigStore)) ->
            timestamp r < timestamp (sanitizeScanData (Examples.calm 1800000000000 "scan_new")
                                       Examples.secondScan)).
  { assert (H : forallb (fun r => timestamp r <? 1800000000000)
                  (records (store (Examples.primary Examples.bigStore))) = true)
      by (vm_compute; reflexivity).
    rewrite forallb_forall in H. intros r Hr%list_elem_of_In. apply Z.ltb_lt, H, Hr. }
  split; [exact Hsize | ].
  exact (storeScan_over_threshold_drops_new_record Examples.shortScans
           (Examples.calm 1800000000000 "scan_new") Examples.secondScan
           (Examples.primary Examples.bigStore)
           eq_refl eq_refl eq_refl eq_refl Hd Hk eq_refl eq_refl eq_refl eq_refl Hsize Hold).
Defined.

(** X10.  The duplicate test does not depend on which of the two scans
    is the stored one: the word-overlap of two titles is symmetric, and
    so is [isSubstantialDuplicate]. *)
Theorem isSubstantialDuplicate_symmetric (a b : Scan) :
  calculateSimilarity (title a) (title b) = calculateSimilarity (title b) (title a) /\
  isSubstantialDuplicate a b = isSubstantialDuplicate b a.
Proof.
  assert (Hsim : forall s t, calculateSimilarity s t = calculateSimilarity t s).
  { intros s t. unfold calculateSimilarity.
    now rewrite (comm_L (∩) (list_to_set (JS.split_ws (JS.toLowerCase s)) : gset string)),
                (comm_L (∪) (list_to_set (JS.split_ws (JS.toLowerCase s)) : gset string)). }
  split; [apply Hsim | ].
  unfold isSubstantialDuplicate. rewrite (String.eqb_sym (url a) (url b)).
  destruct (String.eqb (url b) (url a)); cbn [negb]; [ | reflexivity].
  rewrite (andb_comm (negb (String.eqb (title a) ""))).
  destruct (_ && _); [now rewrite Hsim | reflexivity].
Qed.

(** X11.  After the database has opened, initialisation awaits its own
    promise: maintenance asks for a size estimate, the estimate calls
    [getScans], and [getScans] awaits [init()].  Unless the maintenance
    fails before it gets there, initialisation never settles, the
    manager is never marked initialised, and every later write or query
    waits for ever. *)
Theorem init_after_open_never_settles (JSON_length : Scan -> Z) (env : Env)
    (existing : gmap string Scan) (fallback : list Scan) :
  openEvent env = OpenSuccess -> countFails env = false ->
  (size existing <= 1000)%nat \/ (getAllFails env = false /\ cleanupFails env = false) ->
  let m := snd (init JSON_length env (constructed existing fallback)) in
  fst (init JSON_length env (constructed existing fallback)) = Pending /\
  isInitialized m = false /\ isUsingFallback m = false /\
  (forall env' scanData, fst (storeScan JSON_length env' scanData m) = Pending) /\
  (forall env' query limit offset,
     fst (getScans (init JSON_length) env' query limit offset m) = Pending).
Proof.
  intros Hopen Hcount Hcase m.
  assert (Hwait : forall m0 : Manager,
            initialized m0 = false -> initializationPromise m0 = Some Pending ->
            estimateDBSize JSON_length initAgain env m0 = (Pending, m0)).
  { intros m0 Hi Hp. unfold estimateDBSize, getScans, ensureInitialized.
    apply bind_wait, bind_wait.
    rewrite (bind_run _ _ m0 m0 false) by (unfold read; now rewrite Hi).
    unfold initAgain. now rewrite Hp. }
  assert (Hinit : exists s,
            init JSON_length env (constructed existing fallback)
            = (Pending,
               {| db := true; store := s; initialized := false;
                  initializationPromise := Some Pending; useFallback := false;
                  fallbackInitialized := false; chromeScans := fallback |})).
  { unfold init, constructed. cbn [initializationPromise].
    set (m0 := setPromise _ _).
    assert (Hrun : exists s, _initialize JSON_length env m0
              = (Pending,
                 {| db := true; store := s; initialized := false;
                    initializationPromise := Some Pending; useFallback := false;
                    fallbackInitialized := false; chromeScans := fallback |})).
    { unfold _initialize.
      rewrite (bind_run _ _ m0 m0 false) by reflexivity.
      set (m1 := setDb true m0).
      assert (Hopened : openDatabase env m0 = (Resolved tt, m1)).
      { unfold openDatabase. now rewrite Hopen. }
      enough (Hm : exists s, performMaintenance JSON_length initAgain env m1
                = (Pending,
                   {| db := true; store := s; initialized := false;
                      initializationPromise := Some Pending; useFallback := false;
                      fallbackInitialized := false; chromeScans := fallback |})).
      { destruct Hm as (s & Hm). exists s. unfold tryCatch.
        rewrite (bind_run _ _ _ _ _ Hopened). now rewrite (bind_wait _ _ _ _ Hm). }
      unfold performMaintenance.
      rewrite (bind_run _ _ m1 m1 false) by reflexivity.
      unfold tryCatch.
      rewrite (bind_run _ _ m1 m1 (Z.of_nat (size existing))).
      2:{ unfold getScanCount. cbn [db m1 setDb]. now rewrite Hcount. }
      destruct (Z.ltb_spec CLEANUP_THRESHOLD (Z.of_nat (size existing))) as [Hbig|_].
      - destruct Hcase as [Hsmall | [Hg Hc]]; [unfold CLEANUP_THRESHOLD in Hbig; lia | ].
        rewrite (bind_run _ _ m1
                   (setStore (deleteAll (scansToDelete existing 0.3%float) existing) m1) tt).
        2:{ rewrite (bind_run _ _ _ _ _
                       (cleanupOldRecords_run env 0.3%float m1 eq_refl Hg Hc
                          ltac:(cbn; unfold CLEANUP_THRESHOLD in Hbig; lia))).
            reflexivity. }
        eexists.
        rewrite (bind_wait _ _ _ _
                   (Hwait (setStore (deleteAll (scansToDelete existing 0.3%float) existing) m1)
                      eq_refl eq_refl)).
        reflexivity.
      - rewrite (bind_run _ _ m1 m1 tt) by reflexivity.
        eexists. rewrite (bind_wait _ _ _ _ (Hwait m1 eq_refl eq_refl)). reflexivity. }
    destruct Hrun as (s & ->). exists s. reflexivity. }
  destruct Hinit as (s & Hinit). subst m. rewrite Hinit. cbn [fst snd].
  set (m := {| db := true |}).
  assert (Hawait : forall env', ensureInitialized (init JSON_length) env' m = (Pending, m)).
  { intros env'. unfold ensureInitialized.
    now rewrite (bind_run _ _ m m false) by reflexivity. }
  split; [reflexivity | split; [reflexivity | split; [reflexivity | split]]].
  - intros env' scanData. unfold storeScan.
    now rewrite (bind_wait _ _ _ _ (Hawait env')).
  - intros env' query limit offset. unfold getScans.
    now rewrite (bind_wait _ _ _ _ (Hawait env')).
Qed.

Lemma init_after_open_never_settles_witness :
  (size (∅ : gmap string Scan) <= 1000)%nat /\
  fst (init Examples.shortScans (Examples.calm 1000 "scan_a") (constructed ∅ [])) = Pending /\
  fst (storeScan Examples.shortScans (Examples.calm 2000 "scan_b") Examples.firstScan
         (snd (init Examples.shortScans (Examples.calm 1000 "scan_a") (constructed ∅ []))))
  = Pending.
Proof.
  assert (Hsize : (size (∅ : gmap string Scan) <= 1000)%nat)
    by (rewrite map_size_empty; lia).
  split; [exact Hsize | ].
  destruct (init_after_open_never_settles Examples.shortScans (Examples.calm 1000 "scan_a")
              ∅ [] eq_refl eq_refl (or_introl Hsize)) as (Hinit & _ & _ & Hstore & _).
  split; [exact Hinit | apply Hstore].
Defined.

(** X12.  When the open request is still pending after ten seconds,
    the timer's handler throws before any [reject] is reached:
    initialisation does not settle, the fallback is not engaged, and a
    write that follows waits with it. *)
Theorem open_timeout_never_settles (JSON_length : Scan -> Z) (env : Env)
    (existing : gmap string Scan) (fallback : list Scan) :
  openEvent env = OpenTimeout ->
  let m := snd (init JSON_length env (constructed existing fallback)) in
  fst (init JSON_length env (constructed existing fallback)) = Pending /\
  isInitialized m = false /\ isUsingFallback m = false /\
  (forall env' scanData, fst (storeScan JSON_length env' scanData m) = Pending).
Proof.
  intros Hopen m.
  assert (Hinit : init JSON_length env (constructed existing fallback)
            = (Pending,
               {| db := false; store := existing; initialized := false;
                  initializationPromise := Some Pending; useFallback := false;
                  fallbackInitialized := false; chromeScans := fallback |})).
  { unfold init, constructed. cbn [initializationPromise].
    unfold _initialize, bind, read, tryCatch, openDatabase. cbn.
    rewrite Hopen. reflexivity. }
  subst m. rewrite Hinit. cbn [fst snd].
  split; [reflexivity | split; [reflexivity | split; [reflexivity | ]]].
  set (m := {| db := false |}).
  assert (Hawait : forall env', ensureInitialized (init JSON_length) env' m = (Pending, m)).
  { intros env'. unfold ensureInitialized.
    now rewrite (bind_run _ _ m m false) by reflexivity. }
  intros env' scanData. unfold storeScan.
  now rewrite (bind_wait _ _ _ _ (Hawait env')).
Qed.

Lemma open_timeout_never_settles_witness :
  openEvent (Examples.opening OpenTimeout 1000) = OpenTimeout /\
  fst (init Examples.shortScans (Examples.opening OpenTimeout 1000) (constructed ∅ []))
  = Pending.
Proof.
  split; [reflexivity | ].
  exact (proj1 (open_timeout_never_settles Examples.shortScans
                  (Examples.opening OpenTimeout 1000) ∅ [] eq_refl)).
Defined.

End MoreStoreProperties.

(* ================================================================= *)
(** ** StorageManager: the cache in front of the extension storage *)

Section CacheProperties.
Import StorageManager.






(** X15.  A value that was set is the value read, at any later time, with
    or without a time to live, as long as the read reaches the
    storage; without a time to live it is read even when it does not. *)
Theorem setItem_then_getItem (env env' : Env) (key v : string)
    (optVersion optTtl : option Z) (defaultValue : option string) (st : State) :
  failing env = false ->
  let st' := snd (setItem env key v optVersion optTtl st) in
  fst (setItem env key v optVersion optTtl st) = Resolved true /\
  local st' = <[key := v]> (local st) /\
  (failing env' = false \/ optTtl = None ->
   fst (getItem env' key defaultValue st') = Resolved (Some v)).
Proof.
  intros Hf st'. subst st'.
  unfold setItem, bind, update, tryCatch, writeKey. rewrite Hf. cbn.
  split; [reflexivity | split; [reflexivity | ]].
  intros Hread. unfold getItem, bind, read, update, tryCatch, readKey, ret. cbn.
  rewrite lookup_insert_eq. cbn.
  destruct optTtl as [t|]; cbn; [ | reflexivity].
  destruct (_ || _); cbn; [reflexivity | ].
  destruct Hread as [-> | ?]; [ | discriminate]. cbn.
  now rewrite lookup_insert_eq.
Qed.

Lemma setItem_then_getItem_witness :
  failing {| now := 1000; failing := false |} = false /\
  fst (getItem {| now := 9000; failing := false |} "theme" None
         (snd (setItem {| now := 1000; failing := false |} "theme" "dark" None (Some 500)
                 {| cache := ∅; local := ∅ |}))) = Resolved (Some "dark").
Proof.
  split; [reflexivity | ].
  exact (proj2 (proj2 (setItem_then_getItem {| now := 1000; failing := false |}
                         {| now := 9000; failing := false |} "theme" "dark" None (Some 500)
                         None {| cache := ∅; local := ∅ |} eq_refl))
           (or_introl eq_refl)).
Defined.

(** X16.  A write that fails is rejected with the storage as it was, and it
    leaves no cache entry for the key, not even the one that was there
    before: read while the storage is out of reach, the key then gives
    the default value although the storage holds a value for it. *)
Theorem failed_setItem_forgets_the_key (env env' : Env) (key v : string)
    (optVersion optTtl : option Z) (defaultValue : option string) (st : State) :
  failing env = true ->
  let st' := snd (setItem env key v optVersion optTtl st) in
  fst (setItem env key v optVersion optTtl st) = Rejected (PlainError "lastError") /\
  local st' = local st /\
  cache st' = delete key (cache st) /\
  (failing env' = true -> fst (getItem env' key defaultValue st') = Resolved defaultValue).
Proof.
  intros Hf st'. subst st'.
  unfold setItem, bind, update, tryCatch, writeKey. rewrite Hf. cbn.
  split; [reflexivity | split; [reflexivity | split]].
  - apply delete_insert_eq.
  - intros Hf'. unfold getItem, bind, read, update, tryCatch, readKey, ret. cbn.
    rewrite lookup_delete_eq. cbn. now rewrite Hf'.
Qed.

Lemma failed_setItem_forgets_the_key_witness :
  failing {| now := 2000; failing := true |} = true /\
  fst (getItem {| now := 3000; failing := true |} "theme" (Some "system")
         (snd (setItem {| now := 2000; failing := true |} "theme" "light" None None
                 {| cache := {[ "theme" := fresh {| now := 1000; failing := false |} "dark" ]};
                    local := {[ "theme" := "dark" ]} |})))
  = Resolved (Some "system").
Proof.
  split; [reflexivity | ].
  exact (proj2 (proj2 (proj2 (failed_setItem_forgets_the_key
           {| now := 2000; failing := true |} {| now := 3000; failing := true |}
           "theme" "light" None None (Some "system")
           {| cache := {[ "theme" := fresh {| now := 1000; failing := false |} "dark" ]};
              local := {[ "theme" := "dark" ]} |} eq_refl))) eq_refl).
Defined.



End CacheProperties.

(* ================================================================= *)
(** ** Live sessions: fragments, chunks and sweeps *)

Section LiveProperties.
Import LiveScanManager.

Ltac live :=
  cbn [isInitialized maxBufferSize sessions messageBuffer chunks savedSessions flushCalls
       withSessions withBuffer storeChunk countFlush fst snd from_option Datatypes.id negb
       tab id url sessionId status messageCount lastActivity startTime endTime
       chunkMessages chunkSession chunkTabId chunkSize chunkUrl chunkPlatform] in *.

Lemma flushed_app (t : Z) (l1 l2 : list Chunk) :
  flat_map chunkMessages (List.filter (fun c => chunkTabId c =? t) (l1 ++ l2))
  = flat_map chunkMessages (List.filter (fun c => chunkTabId c =? t) l1) ++
    flat_map chunkMessages (List.filter (fun c => chunkTabId c =? t) l2).
Proof. now rewrite List.filter_app, flat_map_app. Qed.

Lemma saveSessionState_frame (env : Env) (s : Session) (m : Manager) :
  chunks (saveSessionState env s m) = chunks m /\
  messageBuffer (saveSessionState env s m) = messageBuffer m /\
  sessions (saveSessionState env s m) = sessions m /\
  maxBufferSize (saveSessionState env s m) = maxBufferSize m /\
  isInitialized (saveSessionState env s m) = isInitialized m.
Proof. unfold saveSessionState. destruct (storageOk env); live; auto. Qed.

(** What a flush does to the fragments of each tab. *)
Lemma flushBuffer_fragments (env : Env) (t : Z) (m : Manager) :
  is_Some (sessions m !! t) ->
  flushed t (flushBuffer env t m) = flushed t m ++ buffered t m /\
  (forall k, k <> t -> flushed k (flushBuffer env t m) = flushed k m) /\
  (forall k, k <> t -> messageBuffer (flushBuffer env t m) !! k = messageBuffer m !! k) /\
  buffered t (flushBuffer env t m) = [] /\
  (is_Some (messageBuffer m !! t) -> is_Some (messageBuffer (flushBuffer env t m) !! t)).
Proof.
  intros [s Hs]. unfold flushBuffer, flushed, buffered. live.
  destruct (messageBuffer m !! t) as [[|x buf]|] eqn:Hb; live.
  - rewrite Hb. cbn. rewrite app_nil_r. auto.
  - rewrite Hs. live. rewrite flushed_app. cbn [List.filter flat_map chunkTabId].
    rewrite Z.eqb_refl. cbn [flat_map chunkMessages]. rewrite app_nil_r.
    rewrite lookup_insert_eq. cbn.
    split; [reflexivity | split; [ | split; [ | split; [reflexivity | eauto]]]].
    + intros k Hk. rewrite flushed_app. cbn [List.filter flat_map chunkTabId].
      destruct (Z.eqb_spec t k) as [->|_]; [contradiction | ]. cbn. now rewrite app_nil_r.
    + intros k Hk. now rewrite lookup_insert_ne.
  - rewrite Hb. cbn. rewrite app_nil_r. split; [reflexivity | ].
    split; [auto | split; [auto | split; [reflexivity | ]]]. intros [? ?]. discriminate.
Qed.

Lemma bufferMessages_fragments (env : Env) (t : Z) (messages : list Fragment)
    (m : Manager) :
  is_Some (sessions m !! t) ->
  let mb := bufferMessages env t messages m in
  flushed t mb ++ buffered t mb = flushed t m ++ buffered t m ++ messages /\
  (forall k, k <> t -> flushed k mb = flushed k m /\ buffered k mb = buffered k m) /\
  (0 < maxBufferSize m -> Z.of_nat (length (buffered t mb)) < maxBufferSize m).
Proof.
  intros Hs mb. subst mb. unfold bufferMessages. cbv zeta.
  fold (buffered t m). set (buffer := buffered t m ++ messages).
  set (m2 := withBuffer (insert t buffer) m).
  assert (Hb2 : buffered t m2 = buffer).
  { unfold buffered. subst m2. live. now rewrite lookup_insert_eq. }
  assert (Hf2 : forall k, flushed k m2 = flushed k m) by reflexivity.
  assert (Ho2 : forall k, k <> t -> buffered k m2 = buffered k m).
  { intros k Hk. unfold buffered. subst m2. live. now rewrite lookup_insert_ne. }
  change (maxBufferSize m2) with (maxBufferSize m).
  destruct (Z.leb_spec (maxBufferSize m) (Z.of_nat (length buffer))) as [Hfull|Hroom].
  - destruct (flushBuffer_fragments env t m2 Hs) as (H1 & H2 & H3 & H4 & _).
    rewrite H1, H4, Hf2, Hb2, app_nil_r. subst buffer.
    split; [reflexivity | split].
    + intros k Hk. split; [now rewrite H2, Hf2 | ].
      unfold buffered. rewrite H3 by exact Hk. now apply Ho2.
    + cbn. lia.
  - rewrite Hf2, Hb2. subst buffer. split; [reflexivity | split; [ | auto]].
    intros k Hk. split; [apply Hf2 | now apply Ho2].
Qed.

(** X18.  Nothing is lost on arrival: the fragments handed over for a
    monitored tab are, in arrival order, at the end of what has been
    flushed or buffered for that tab; the session counts them; other
    tabs are not touched; and the buffer is left below the limit. *)
Theorem handleLiveScanData_loses_no_fragment (env : Env) (messages : list Fragment)
    (tabId : Z) (m : Manager) :
  isInitialized m = true -> isMonitoring tabId m = true ->
  let m' := handleLiveScanData env messages tabId m in
  flushed tabId m' ++ buffered tabId m' = flushed tabId m ++ buffered tabId m ++ messages /\
  (forall k, k <> tabId -> flushed k m' = flushed k m /\ buffered k m' = buffered k m) /\
  getMessageCount tabId m' = getMessageCount tabId m + Z.of_nat (length messages) /\
  isMonitoring tabId m' = true /\
  (0 < maxBufferSize m -> Z.of_nat (length (buffered tabId m')) < maxBufferSize m).
Proof.
  intros Hi Hmon m'. subst m'. unfold isMonitoring, getMessageCount in *.
  unfold handleLiveScanData. rewrite Hi. cbn [negb].
  destruct (sessions m !! tabId) as [s|] eqn:Hs; [ | discriminate].
  destruct (status s) eqn:Hst; try discriminate. cbv zeta.
  set (s' := {| sessionId := sessionId s |}).
  set (m1 := withSessions (insert tabId s') m).
  assert (Hs1 : sessions m1 !! tabId = Some s') by (subst m1; live; apply lookup_insert_eq).
  destruct (bufferMessages_fragments env tabId messages m1 (ex_intro _ _ Hs1))
    as (Hall & Hothers & Hbound).
  destruct (bufferMessages_frame env tabId messages m1) as (Hbs & _).
  set (mb := bufferMessages env tabId messages m1) in *.
  assert (Hmid : forall mc,
            chunks mc = chunks mb -> messageBuffer mc = messageBuffer mb ->
            sessions mc = sessions mb ->
            flushed tabId mc ++ buffered tabId mc
              = flushed tabId m ++ buffered tabId m ++ messages /\
            (forall k, k <> tabId -> flushed k mc = flushed k m /\ buffered k mc = buffered k m) /\
            from_option messageCount 0 (sessions mc !! tabId)
              = messageCount s + Z.of_nat (length messages) /\
            match sessions mc !! tabId with
            | Some session => match status session with active => true | _ => false end
            | None => false
            end = true /\
            (0 < maxBufferSize m -> Z.of_nat (length (buffered tabId mc)) < maxBufferSize m)).
  { intros mc Hc Hb Hss. unfold flushed, buffered in *. rewrite Hc, Hb, Hss, Hbs, Hs1.
    subst s'. live. auto. }
  destruct (messageCount s' mod 10 =? 0).
  - destruct (saveSessionState_frame env s' mb) as (H1 & H2 & H3 & _). now apply Hmid.
  - now apply Hmid.
Qed.

Lemma handleLiveScanData_loses_no_fragment_witness :
  isMonitoring 7 Examples.monitoring = true /\
  buffered 7 (handleLiveScanData (Examples.quiet 3000)
                [Examples.fragmentNo 1; Examples.fragmentNo 2] 7 Examples.monitoring)
  = [Examples.fragmentNo 1; Examples.fragmentNo 2].
Proof.
  assert (Hmon : isMonitoring 7 Examples.monitoring = true) by reflexivity.
  split; [exact Hmon | ].
  destruct (handleLiveScanData_loses_no_fragment (Examples.quiet 3000)
              [Examples.fragmentNo 1; Examples.fragmentNo 2] 7 Examples.monitoring
              eq_refl Hmon) as (Hall & _).
  exact Hall.
Defined.

Lemma cleanupSession_fragments (env : Env) (t : Z) (m : Manager) :
  is_Some (sessions m !! t) ->
  flushed t (cleanupSession env t m) = flushed t m ++ buffered t m /\
  buffered t (cleanupSession env t m) = [] /\
  (forall k, k <> t -> flushed k (cleanupSession env t m) = flushed k m /\
                       buffered k (cleanupSession env t m) = buffered k m).
Proof.
  intros [s Hs]. unfold cleanupSession. rewrite Hs. cbv zeta.
  destruct (flushBuffer_fragments env t m (ex_intro _ _ Hs)) as (H1 & H2 & H3 & H4 & _).
  set (mf := flushBuffer env t m) in *.
  set (s' := {| sessionId := sessionId s |}).
  destruct (saveSessionState_frame env s' mf) as (Hc & Hb & _).
  unfold flushed, buffered in *. live. rewrite Hc, Hb, H1.
  split; [reflexivity | split; [now rewrite lookup_delete_eq | ]].
  intros k Hk. split; [now apply H2 | ]. rewrite lookup_delete_ne by auto.
  now rewrite H3.
Qed.

(** X19.  A stop that reaches the tab flushes what the buffer holds, in
    order, removes the session and, the storage answering, stores it
    as stopped with the count it had; a stop that does not reach the
    tab throws and leaves the session monitored. *)
Theorem stopMonitoring_flushes_the_buffer (env : Env) (t : Tab) (ack : bool)
    (e : string) (m : Manager) (s : Session) :
  isInitialized m = true -> sessions m !! id t = Some s ->
  let m' := snd (stopMonitoring env t (Delivered ack) m) in
  fst (stopMonitoring env t (Delivered ack) m) = Ok {| stopSuccess := true |} /\
  flushed (id t) m' = flushed (id t) m ++ buffered (id t) m /\
  buffered (id t) m' = [] /\
  isMonitoring (id t) m' = false /\ getMessageCount (id t) m' = 0 /\
  (storageOk env = true ->
   exists saved, savedSessions m' !! id (tab s) = Some saved /\
                 status saved = stopped /\ messageCount saved = messageCount s /\
                 sessionId saved = sessionId s) /\
  stopMonitoring env t (LastError e) m = (Throw e, m).
Proof.
  intros Hi Hs m'. subst m'. unfold stopMonitoring. rewrite Hi. cbn [negb fst snd].
  destruct (cleanupSession_fragments env (id t) m (ex_intro _ _ Hs)) as (H1 & H2 & _).
  destruct (cleanupSession_sessions env (id t) m) as [Hss _].
  split; [reflexivity | split; [exact H1 | split; [exact H2 | ]]].
  unfold isMonitoring, getMessageCount. rewrite Hss, lookup_delete_eq. cbn.
  split; [reflexivity | split; [reflexivity | split; [ | reflexivity]]].
  intros Hok. unfold cleanupSession. rewrite Hs. cbv zeta.
  unfold saveSessionState. rewrite Hok. live.
  eexists. split; [apply lookup_insert_eq | ]. live. auto.
Qed.

Lemma stopMonitoring_flushes_the_buffer_witness :
  sessions Examples.monitoring !! id Examples.tabSeven
  = Some {| sessionId := "session_1"; startTime := 1500; tab := Examples.tabSeven;
            messageCount := 0; lastActivity := 1500; status := active; endTime := None |} /\
  isMonitoring 7 (snd (stopMonitoring (Examples.quiet 9000) Examples.tabSeven
                         (Delivered true) Examples.monitoring)) = false.
Proof.
  assert (Hs : sessions Examples.monitoring !! id Examples.tabSeven
               = Some {| sessionId := "session_1"; startTime := 1500;
                         tab := Examples.tabSeven; messageCount := 0;
                         lastActivity := 1500; status := active; endTime := None |})
    by reflexivity.
  split; [exact Hs | ].
  destruct (stopMonitoring_flushes_the_buffer (Examples.quiet 9000) Examples.tabSeven true
              "closed" Examples.monitoring _ eq_refl Hs) as (_ & _ & _ & Hmon & _).
  exact Hmon.
Defined.

(** *** Chunks *)

Lemma flushBuffer_chunks (env : Env) (t : Z) (m : Manager) :
  Forall wellFormed (chunks m) -> Forall wellFormed (chunks (flushBuffer env t m)).
Proof.
  intros H. unfold flushBuffer. live.
  destruct (messageBuffer m !! t) as [[|x buf]|]; live; auto.
  destruct (sessions m !! t); live; auto.
  apply Forall_app. split; [exact H | ]. constructor; [ | constructor].
  repeat split. discriminate.
Qed.

Lemma cleanupSession_chunks (env : Env) (t : Z) (m : Manager) :
  Forall wellFormed (chunks m) -> Forall wellFormed (chunks (cleanupSession env t m)).
Proof.
  intros H. unfold cleanupSession. destruct (sessions m !! t) as [s|]; [ | exact H].
  cbv zeta. live.
  match goal with |- context [saveSessionState env ?x ?y] =>
    destruct (saveSessionState_frame env x y) as (-> & _) end.
  now apply flushBuffer_chunks.
Qed.

Lemma restoreSessions_chunks (env : Env) (m : Manager) :
  chunks (restoreSessions env m) = chunks m.
Proof.
  unfold restoreSessions. destruct (storageOk env); [ | reflexivity].
  apply (map_fold_weak_ind (fun r _ => chunks r = chunks m)); [reflexivity | ].
  intros i x seen r _ IH. unfold restoreOne. destruct (status x); [ | exact IH | exact IH].
  destruct (_ <? _); live; exact IH.
Qed.

Lemma perform_chunks (env : Env) (c : Call) (m : Manager) :
  Forall wellFormed (chunks m) -> Forall wellFormed (chunks (perform env c m)).
Proof.
  intros H. destruct c; cbn [perform].
  - unfold init. destruct (isInitialized m); [exact H | ]. live.
    now rewrite restoreSessions_chunks.
  - exact H.
  - unfold startMonitoring. destruct (isInitialized m); [ | exact H]. cbn [negb].
    destruct reply as [[|]|e]; live; try now apply cleanupSession_chunks. exact H.
  - unfold stopMonitoring. destruct (isInitialized m); [ | exact H]. cbn [negb].
    destruct reply as [b|e]; live; [now apply cleanupSession_chunks | exact H].
  - unfold handleLiveScanData. destruct (isInitialized m); [ | exact H]. cbn [negb].
    destruct (sessions m !! tabId) as [s|]; [ | exact H].
    destruct (status s); try exact H. cbv zeta.
    assert (Hb : forall m0, Forall wellFormed (chunks m0) ->
                   Forall wellFormed (chunks (bufferMessages env tabId messages m0))).
    { intros m0 H0. unfold bufferMessages. cbv zeta. destruct (_ <=? _); [ | exact H0].
      now apply flushBuffer_chunks. }
    destruct (_ =? 0); [ | now apply Hb].
    match goal with |- context [saveSessionState env ?x ?y] =>
      destruct (saveSessionState_frame env x y) as (-> & _) end.
    now apply Hb.
  - unfold handleLiveScanMessage. destruct (isInitialized m); [ | exact H]. cbn [negb].
    destruct (sessions m !! tabId); exact H.
  - unfold cleanupInactiveSessions. cbn [snd].
    induction (inactiveTabs env maxInactiveTime m) as [|t tabs IH]; cbn [foldr];
      [exact H | now apply cleanupSession_chunks].
  - exact H.
Qed.

(** X20.  The manager never stores an empty chunk: every chunk it has ever
    stored holds at least one fragment, states its own size, and names
    the platform of the session's address. *)
Theorem stored_chunks_are_well_formed (m : Manager) :
  reachable m -> Forall wellFormed (chunks m).
Proof.
  induction 1 as [|env c m _ IH]; [constructor | now apply perform_chunks].
Qed.

Lemma stored_chunks_are_well_formed_witness :
  reachable Examples.monitoring /\ Forall wellFormed (chunks Examples.monitoring).
Proof.
  assert (Hr : reachable Examples.monitoring).
  { apply reach_call.
    exact (reach_call (Examples.quiet 1000) (CallInit None) constructed reach_new). }
  split; [exact Hr | exact (stored_chunks_are_well_formed _ Hr)].
Defined.

(** *** The inactivity sweep *)

Lemma foldr_cleanupSession_sessions (env : Env) (tabs : list Z) (m : Manager) (k : Z) :
  sessions (foldr (cleanupSession env) m tabs) !! k
  = if decide (k ∈ tabs) then None else sessions m !! k.
Proof.
  induction tabs as [|t tabs IH]; cbn [foldr].
  - destruct (decide _) as [H|_]; [now apply elem_of_nil in H | reflexivity].
  - destruct (cleanupSession_sessions env t (foldr (cleanupSession env) m tabs)) as [-> _].
    destruct (decide (k = t)) as [->|Hne].
    + rewrite lookup_delete_eq. now rewrite decide_True by apply list_elem_of_here.
    + rewrite lookup_delete_ne by auto. rewrite IH.
      destruct (decide (k ∈ tabs)) as [Hin|Hout].
      * now rewrite decide_True by (now apply list_elem_of_further).
      * rewrite decide_False; [reflexivity | ].
        intros [?|?]%elem_of_cons; contradiction.
Qed.

Lemma List_filter_sublist {A} (f : A -> bool) (l : list A) : List.filter f l `sublist_of` l.
Proof.
  induction l as [|x l IH]; cbn [List.filter]; [constructor | ].
  destruct (f x); [now apply sublist_skip | now apply sublist_cons].
Qed.

Lemma inactiveTabs_spec (env : Env) (maxInactiveTime : Z) (m : Manager) (k : Z) :
  k ∈ inactiveTabs env maxInactiveTime m <->
  exists s, sessions m !! k = Some s /\ stale env maxInactiveTime s = true.
Proof.
  unfold inactiveTabs. rewrite list_elem_of_fmap. split.
  - intros ([k' s] & -> & Hin). apply list_elem_of_In, filter_In in Hin as [Hin Hst].
    apply list_elem_of_In, elem_of_map_to_list in Hin. exists s. split; [exact Hin | exact Hst].
  - intros (s & Hs & Hst). exists (k, s). split; [reflexivity | ].
    apply list_elem_of_In, filter_In. split; [ | exact Hst].
    now apply list_elem_of_In, elem_of_map_to_list.
Qed.

(** X21.  The sweep removes exactly the stale sessions: a session is gone
    afterwards when it was active and silent for longer than the
    limit, every other session is kept as it was, and the count it
    answers is the number of sessions it removed. *)
Theorem cleanupInactiveSessions_removes_the_stale (env : Env) (maxInactiveTime : Z)
    (m : Manager) :
  let swept := cleanupInactiveSessions env maxInactiveTime m in
  (forall k, sessions (snd swept) !! k
             = match sessions m !! k with
               | Some s => if stale env maxInactiveTime s then None else Some s
               | None => None
               end) /\
  fst swept = Z.of_nat (size (sessions m)) - Z.of_nat (size (sessions (snd swept))).
Proof.
  intros swept. subst swept. unfold cleanupInactiveSessions. cbn [fst snd].
  assert (Hlook : forall k,
            sessions (foldr (cleanupSession env) m (inactiveTabs env maxInactiveTime m)) !! k
            = match sessions m !! k with
              | Some s => if stale env maxInactiveTime s then None else Some s
              | None => None
              end).
  { intros k. rewrite foldr_cleanupSession_sessions.
    destruct (decide _) as [Hin|Hout].
    - apply inactiveTabs_spec in Hin as (s & -> & ->). reflexivity.
    - destruct (sessions m !! k) as [s|] eqn:Hs; [ | reflexivity].
      destruct (stale env maxInactiveTime s) eqn:Hst; [ | reflexivity].
      exfalso. apply Hout, inactiveTabs_spec. eauto. }
  split; [exact Hlook | ].
  assert (Hcount : forall tabs, NoDup tabs ->
            (forall t, t ∈ tabs -> is_Some (sessions m !! t)) ->
            Z.of_nat (length tabs)
            = Z.of_nat (size (sessions m))
              - Z.of_nat (size (sessions (foldr (cleanupSession env) m tabs)))).
  { induction tabs as [|t tabs IH]; intros Hnd Hin; cbn [foldr length]; [lia | ].
    apply NoDup_cons in Hnd as [Hnew Hnd].
    destruct (cleanupSession_sessions env t (foldr (cleanupSession env) m tabs)) as [-> _].
    assert (Hhere : is_Some (sessions (foldr (cleanupSession env) m tabs) !! t)).
    { rewrite foldr_cleanupSession_sessions, decide_False by exact Hnew.
      apply Hin, list_elem_of_here. }
    rewrite map_size_delete_Some by exact Hhere.
    assert (size (sessions (foldr (cleanupSession env) m tabs)) <> 0%nat).
    { destruct Hhere as [s Hhere].
      intros H0%map_size_empty_inv. rewrite H0 in Hhere. now rewrite lookup_empty in Hhere. }
    specialize (IH Hnd (fun t Ht => Hin t (list_elem_of_further _ _ _ Ht))). lia. }
  unfold inactiveTabs at 1. fold (inactiveTabs env maxInactiveTime m).
  apply Hcount.
  - unfold inactiveTabs.
    apply (sublist_NoDup _ _ (NoDup_fst_map_to_list (sessions m))).
    apply (fmap_sublist fst). apply List_filter_sublist.
  - intros t (s & Hs & _)%inactiveTabs_spec. eauto.
Qed.

(** *** Restoring sessions *)

Lemma restore_fold (env : Env) (m : Manager) (table : gmap Z Session) :
  sessions m = ∅ -> messageBuffer m = ∅ ->
  let r := map_fold (restoreOne env) m table in
  (forall t, sessions r !! t
             = match table !! t with
               | Some s => if restorable env s then Some s else None
               | None => None
               end) /\
  (forall t, messageBuffer r !! t = (fun _ => []) <$> sessions r !! t) /\
  (forall t, savedSessions r !! t
             = match table !! t with
               | Some s =>
                   match status s with
                   | active =>
                       if restorable env s then savedSessions m !! t
                       else Some {| sessionId := sessionId s; startTime := startTime s;
                                    tab := tab s; messageCount := messageCount s;
                                    lastActivity := lastActivity s; status := expired;
                                    endTime := endTime s |}
                   | _ => savedSessions m !! t
                   end
               | None => savedSessions m !! t
               end) /\
  chunks r = chunks m /\ maxBufferSize r = maxBufferSize m.
Proof.
  intros Hs0 Hb0 r. subst r.
  apply (map_fold_weak_ind
           (fun r seen =>
              (forall t, sessions r !! t
                         = match seen !! t with
                           | Some s => if restorable env s then Some s else None
                           | None => None
                           end) /\
              (forall t, messageBuffer r !! t = (fun _ => []) <$> sessions r !! t) /\
              (forall t, savedSessions r !! t
                         = match seen !! t with
                           | Some s =>
                               match status s with
                               | active =>
                                   if restorable env s then savedSessions m !! t
                                   else Some {| sessionId := sessionId s;
                                                startTime := startTime s;
                                                tab := tab s; messageCount := messageCount s;
                                                lastActivity := lastActivity s;
                                                status := expired;
                                                endTime := endTime s |}
                               | _ => savedSessions m !! t
                               end
                           | None => savedSessions m !! t
                           end) /\
              chunks r = chunks m /\ maxBufferSize r = maxBufferSize m)).
  - split; [ | split; [ | split; [ | split; reflexivity]]].
    + intros t. now rewrite Hs0, !lookup_empty.
    + intros t. now rewrite Hs0, Hb0, !lookup_empty.
    + intros t. now rewrite lookup_empty.
  - intros i x seen r Hnone (IH1 & IH2 & IH3 & IH4 & IH5).
    assert (Hi1 : sessions r !! i = None) by (now rewrite IH1, Hnone).
    assert (Hi3 : savedSessions r !! i = savedSessions m !! i) by (now rewrite IH3, Hnone).
    unfold restoreOne, restorable in *.
    destruct (status x) eqn:Hst.
    + destruct (now env - lastActivity x <? 60 * 60 * 1000) eqn:Hfresh; live.
      * split; [ | split; [ | split; [ | split; assumption]]]; intros t;
          (destruct (decide (t = i)) as [->|Hne];
           [rewrite ?lookup_insert_eq, ?Hst, ?Hfresh; auto
           | rewrite ?lookup_insert_ne by auto; auto]).
      * split; [ | split; [ | split; [ | split; assumption]]]; intros t;
          (destruct (decide (t = i)) as [->|Hne];
           [rewrite ?lookup_insert_eq, ?Hst, ?Hfresh; auto
           | rewrite ?lookup_insert_ne by auto; auto]).
    + split; [ | split; [ | split; [ | split; assumption]]]; intros t;
        (destruct (decide (t = i)) as [->|Hne];
         [rewrite ?lookup_insert_eq, ?Hst; auto
         | rewrite ?lookup_insert_ne by auto; auto]).
    + split; [ | split; [ | split; [ | split; assumption]]]; intros t;
        (destruct (decide (t = i)) as [->|Hne];
         [rewrite ?lookup_insert_eq, ?Hst; auto
         | rewrite ?lookup_insert_ne by auto; auto]).
Qed.

(** X22.  After a restart of the worker, [init()] takes back exactly the
    stored sessions that were active and heard of within the last hour,
    each with an empty buffer; a stored active session that is older is
    marked expired in the stored table, and a stored session that was
    stopped or expired stays as it is.  When the storage does not
    answer, no session is taken back. *)
Theorem init_restores_recent_sessions (env : Env) (savedMax : option Z) (m : Manager) :
  let m' := init env savedMax (restart m) in
  isInitialized m' = true /\
  chunks m' = chunks m /\
  (forall t,
     sessions m' !! t
     = if storageOk env
       then match savedSessions m !! t with
            | Some s => if restorable env s then Some s else None
            | None => None
            end
       else None) /\
  (forall t, isMonitoring t m' = true -> messageBuffer m' !! t = Some []) /\
  (forall t s,
     storageOk env = true -> savedSessions m !! t = Some s ->
     exists s', savedSessions m' !! t = Some s' /\
                sessionId s' = sessionId s /\ messageCount s' = messageCount s /\
                status s' = match status s with
                            | active => if restorable env s then active else expired
                            | other => other
                            end).
Proof.
  intros m'. subst m'. unfold init. cbn [restart isInitialized].
  set (m0 := updateConfig savedMax (restart m)).
  unfold restoreSessions. destruct (storageOk env) eqn:Hok.
  2:{ subst m0. unfold isMonitoring, updateConfig, restart. live.
      split; [reflexivity | split; [reflexivity | split; [ | split]]].
      - intros t. apply lookup_empty.
      - intros t. now rewrite lookup_empty.
      - discriminate. }
  destruct (restore_fold env m0 (savedSessions m0) eq_refl eq_refl)
    as (H1 & H2 & H3 & H4 & H5).
  set (r := map_fold (restoreOne env) m0 (savedSessions m0)) in *.
  live. split; [reflexivity | split; [exact H4 | split; [exact H1 | split]]].
  - intros t. unfold isMonitoring. live. rewrite H2.
    destruct (sessions r !! t); [reflexivity | discriminate].
  - intros t s _ Hs. rewrite H3. change (savedSessions m0) with (savedSessions m).
    rewrite Hs. destruct (status s) eqn:Hst.
    + unfold restorable. rewrite Hst.
      destruct (_ <? _); [exists s; rewrite Hst; auto | ].
      eexists. split; [reflexivity | ]. live. auto.
    + exists s. rewrite Hst. auto.
    + exists s. rewrite Hst. auto.
Qed.

End LiveProperties.

(* ================================================================= *)
(** ** The database handler of the content script *)

Section DatabaseProperties.
Import Database.

Lemma setInitialized_id (st : State) :
  isInitialized st = true -> setInitialized st = st.
Proof. destruct st; simpl; intros ->; reflexivity. Qed.

Lemma objectStore_setInitialized (name : StoreName) (st : State) :
  objectStore name (setInitialized st) = objectStore name st.
Proof. destruct name; reflexivity. Qed.

Lemma objectStore_set (name : StoreName) (s : gmap string Item) (st : State) :
  objectStore name (setObjectStore name s st) = s.
Proof. destruct name; reflexivity. Qed.

Lemma objectStore_set_other (name name' : StoreName) (s : gmap string Item) (st : State) :
  name' <> name ->
  objectStore name' (setObjectStore name s st) = objectStore name' st.
Proof. destruct name, name'; intros H; try reflexivity; now destruct H. Qed.

Lemma isInitialized_set (name : StoreName) (s : gmap string Item) (st : State) :
  isInitialized (setObjectStore name s st) = isInitialized st.
Proof. destruct name; reflexivity. Qed.

(** Once the database opens, every method starts on an initialised
    handler. *)
Lemma ensureInitialized_run (env : Env) (st : State) :
  openFails env = false ->
  ensureInitialized env st = (Resolved tt, setInitialized st) /\
  isInitialized (setInitialized st) = true.
Proof.
  intros Hopen. split; [|reflexivity].
  unfold ensureInitialized, init, bind, read, update, ret.
  destruct (isInitialized st) eqn:Hi.
  - rewrite setInitialized_id by exact Hi. reflexivity.
  - rewrite Hi, Hopen. reflexivity.
Qed.

Lemma ensureInitialized_fail (env : Env) (st : State) :
  isInitialized st = false -> openFails env = true ->
  ensureInitialized env st = (Rejected (PlainError "open failed"), st).
Proof.
  intros Hi Hopen. unfold ensureInitialized, init, bind, read, throw.
  cbn. rewrite Hi. cbn. rewrite Hi, Hopen. reflexivity.
Qed.

(** The cursor loop in closed form. *)
Lemma cursor_skips filters limit offset remaining skipped results :
  (skipped <= offset)%nat ->
  cursor filters limit offset remaining skipped 0 results =
  cursor filters limit offset (skipn (offset - skipped) remaining) offset 0 results.
Proof.
  revert skipped. induction remaining as [|x rest IH]; intros skipped Hle.
  - now rewrite skipn_nil.
  - destruct (decide (skipped = offset)) as [->|Hne].
    + now rewrite Nat.sub_diag.
    + simpl. destruct (Nat.ltb_spec skipped offset) as [Hlt|Hge]; [|lia].
      rewrite IH by lia.
      replace (offset - skipped)%nat with (S (offset - S skipped)) by lia.
      reflexivity.
Qed.

Lemma cursor_collects filters offset remaining processed results n :
  (processed <= n)%nat ->
  cursor filters (Some (S n)) offset remaining offset processed results =
  results ++ firstn (S n - processed)
               (List.filter (fun x => matchesFilters x filters) remaining).
Proof.
  revert processed results. induction remaining as [|x rest IH]; intros processed results Hle.
  - cbn [cursor List.filter]. now rewrite firstn_nil, app_nil_r.
  - cbn [cursor List.filter]. rewrite Nat.ltb_irrefl. unfold limitReached.
    destruct (matchesFilters x filters) eqn:Hx.
    + destruct (Nat.leb_spec (S n) (S processed)) as [Hge|Hlt].
      * replace (S n - processed)%nat with 1%nat by lia. reflexivity.
      * rewrite IH by lia. rewrite <- app_assoc.
        replace (S n - processed)%nat with (S (S n - S processed)) by lia.
        reflexivity.
    + destruct (Nat.leb_spec (S n) processed) as [Hge|Hlt]; [lia|].
      now rewrite IH by lia.
Qed.

Lemma cursor_collects_all filters limit offset remaining processed results :
  limit = None \/ limit = Some 0%nat ->
  cursor filters limit offset remaining offset processed results =
  results ++ List.filter (fun x => matchesFilters x filters) remaining.
Proof.
  intros Hlimit.
  assert (Hnever : forall p, limitReached limit p = false)
    by (intros p; destruct Hlimit as [->| ->]; reflexivity).
  revert processed results. induction remaining as [|x rest IH]; intros processed results.
  - cbn [cursor List.filter]. now rewrite app_nil_r.
  - cbn [cursor List.filter]. rewrite Nat.ltb_irrefl, Hnever.
    destruct (matchesFilters x filters).
    + rewrite IH, <- app_assoc. reflexivity.
    + apply IH.
Qed.

Lemma cursor_closed filters limit offset remaining :
  cursor filters limit offset remaining 0 0 [] =
  window limit (List.filter (fun x => matchesFilters x filters) (skipn offset remaining)).
Proof.
  rewrite cursor_skips by lia. rewrite Nat.sub_0_r.
  destruct limit as [[|n]|].
  - rewrite cursor_collects_all by auto. reflexivity.
  - rewrite cursor_collects by lia. reflexivity.
  - rewrite cursor_collects_all by auto. reflexivity.
Qed.

Lemma query_run (env : Env) (options : Options) (st : State) :
  openFails env = false -> requestFails env = false ->
  query env options st =
  (Resolved (window (limit options)
               (List.filter (fun x => matchesFilters x (where_ options))
                  (skipn (offset options) (rows (objectStore (table options) st))))),
   setInitialized st).
Proof.
  intros Hopen Hreq. unfold query.
  rewrite (bind_run _ _ _ _ _ (proj1 (ensureInitialized_run env st Hopen))).
  rewrite Hreq. unfold bind, read, ret.
  now rewrite objectStore_setInitialized, cursor_closed.
Qed.




(** *** The objects of a store *)

Lemma in_rows (s : gmap string Item) (x : Item) :
  x ∈ rows s <-> exists y, s !! id x = Some y /\ x = withId (id x) y.
Proof.
  unfold rows. rewrite sort_perm, list_elem_of_fmap. split.
  - intros ([k y] & -> & H%elem_of_map_to_list). exists y. cbn. auto.
  - intros (y & Hl & Hx). exists (id x, y). split; [exact Hx | ].
    now apply elem_of_map_to_list.
Qed.

Lemma rows_length (s : gmap string Item) : length (rows s) = size s.
Proof.
  unfold rows. rewrite sort_length, length_map. apply length_map_to_list.
Qed.

Lemma elem_of_filter_list {A} (f : A -> bool) (l : list A) (x : A) :
  x ∈ List.filter f l <-> x ∈ l /\ f x = true.
Proof. rewrite !list_elem_of_In. apply filter_In. Qed.

(** X24.  [getScansByDateRange(startDate, endDate)] resolves with
    exactly the scans whose timestamp lies between the two dates, both
    included; a scan without timestamp is never among them. *)
Theorem getScansByDateRange_exact (env : Env) (startDate endDate : Z) (st : State) :
  openFails env = false -> requestFails env = false ->
  exists l,
    fst (getScansByDateRange env startDate endDate st) = Resolved l /\
    forall x, x ∈ l <->
      x ∈ rows (scans st) /\
      exists t, timestamp x = Some t /\ startDate <= t <= endDate.
Proof.
  intros Hopen Hreq. eexists. split.
  - unfold getScansByDateRange. rewrite query_run by assumption. reflexivity.
  - intros x. cbn [window limit offset table where_ skipn objectStore].
    rewrite elem_of_filter_list. apply and_iff_compat_l.
    unfold matchesFilters, applyOperators. cbn [forallb].
    destruct (timestamp x) as [t|]; split.
    + intros H. exists t. split; [reflexivity|].
      rewrite !andb_true_r in H. apply andb_true_iff in H as [H1 H2].
      apply Z.leb_le in H1, H2. lia.
    + intros (t' & [= <-] & H1 & H2). rewrite !andb_true_r.
      apply andb_true_iff. split; apply Z.leb_le; assumption.
    + discriminate.
    + intros (t' & [=] & _).
Qed.

Lemma getScansByDateRange_exact_witness :
  openFails Examples.dbEnv = false /\ requestFails Examples.dbEnv = false /\
  exists l,
    fst (getScansByDateRange Examples.dbEnv 0 2000 Examples.threeScans) = Resolved l /\
    forall x, x ∈ l <->
      x ∈ rows (scans Examples.threeScans) /\
      exists t, timestamp x = Some t /\ 0 <= t <= 2000.
Proof.
  split; [reflexivity | split; [reflexivity | ] ].
  exact (getScansByDateRange_exact Examples.dbEnv 0 2000 Examples.threeScans
           eq_refl eq_refl).
Defined.

(** *** Create, read, update, delete *)

Lemma read_run (env : Env) (name : StoreName) (key : string) (st : State) :
  openFails env = false -> requestFails env = false ->
  read_ env name key st =
  (Resolved (withId key <$> objectStore name st !! key), setInitialized st).
Proof.
  intros Hopen Hreq. unfold read_.
  rewrite (bind_run _ _ _ _ _ (proj1 (ensureInitialized_run env st Hopen))).
  rewrite Hreq. unfold bind, read, ret. now rewrite objectStore_setInitialized.
Qed.

Lemma read_fail (env : Env) (name : StoreName) (key : string) (st : State) :
  openFails env = false -> requestFails env = true ->
  read_ env name key st = (Rejected (PlainError "request failed"), setInitialized st).
Proof.
  intros Hopen Hreq. unfold read_.
  rewrite (bind_run _ _ _ _ _ (proj1 (ensureInitialized_run env st Hopen))).
  now rewrite Hreq.
Qed.

Lemma setInitialized_twice (st : State) :
  setInitialized (setInitialized st) = setInitialized st.
Proof. reflexivity. Qed.

Lemma setInitialized_set (name : StoreName) (s : gmap string Item) (st : State) :
  setInitialized (setObjectStore name s st) = setObjectStore name s (setInitialized st).
Proof. destruct name; reflexivity. Qed.

Lemma create_run (env : Env) (name : StoreName) (data : Item) (st : State) :
  openFails env = false -> requestFails env = false ->
  objectStore name st !! newId env = None ->
  create env name data st =
  (Resolved (newId env),
   setObjectStore name (<[newId env := stamped env (newId env) data]> (objectStore name st))
     (setInitialized st)).
Proof.
  intros Hopen Hreq Hfresh. unfold create.
  rewrite (bind_run _ _ _ _ _ (proj1 (ensureInitialized_run env st Hopen))).
  unfold bind, read, update, ret. rewrite objectStore_setInitialized, Hfresh, Hreq.
  reflexivity.
Qed.

Lemma delete_run (env : Env) (name : StoreName) (key : string) (st : State) :
  openFails env = false -> requestFails env = false ->
  delete_ env name key st =
  (Resolved true,
   setObjectStore name (delete key (objectStore name st)) (setInitialized st)).
Proof.
  intros Hopen Hreq. unfold delete_.
  rewrite (bind_run _ _ _ _ _ (proj1 (ensureInitialized_run env st Hopen))).
  rewrite Hreq. unfold bind, read, update, ret. now rewrite objectStore_setInitialized.
Qed.

(** X25.  [create] resolves with the identifier it drew; a [read] of
    that identifier then gives the data back with the identifier as
    [id] and the time of the call as [createdAt] and [updatedAt], and a
    [delete] of it puts the store back as it was; every other object
    of the store and every other store is as before. *)
Theorem create_then_read (env env' : Env) (name : StoreName) (data : Item) (st : State) :
  openFails env = false -> requestFails env = false ->
  requestFails env' = false ->
  objectStore name st !! newId env = None ->
  exists st',
    create env name data st = (Resolved (newId env), st') /\
    fst (read_ env' name (newId env) st') =
      Resolved (Some (stamped env (newId env) data)) /\
    objectStore name (snd (delete_ env' name (newId env) st')) = objectStore name st /\
    (forall key, key <> newId env ->
       objectStore name st' !! key = objectStore name st !! key) /\
    (forall other, other <> name -> objectStore other st' = objectStore other st).
Proof.
  intros Hopen Hreq Hreq' Hfresh. eexists. split; [now apply create_run | ].
  repeat split.
  - unfold read_, ensureInitialized, bind, read, ret.
    rewrite isInitialized_set. cbn [setInitialized isInitialized].
    rewrite Hreq', objectStore_set, lookup_insert_eq. reflexivity.
  - unfold delete_, ensureInitialized, bind, read, update, ret.
    rewrite isInitialized_set. cbn [setInitialized isInitialized].
    rewrite Hreq'. cbn [snd].
    repeat (rewrite ?objectStore_set, ?objectStore_setInitialized).
    first [now apply delete_insert_id | now apply delete_insert].
  - intros key Hkey. rewrite objectStore_set, lookup_insert_ne by congruence.
    apply (f_equal (fun s => s !! key)), objectStore_setInitialized.
  - intros other Hother. rewrite objectStore_set_other by exact Hother.
    apply objectStore_setInitialized.
Qed.

Lemma create_then_read_witness :
  openFails Examples.dbEnv = false /\ requestFails Examples.dbEnv = false /\
  objectStore SCANS Examples.threeScans !! newId Examples.dbEnv = None /\
  exists st',
    create Examples.dbEnv SCANS (Examples.dbItem "gemini" "deep" (Some 5) 1)
      Examples.threeScans = (Resolved (newId Examples.dbEnv), st') /\
    fst (read_ Examples.dbEnv SCANS (newId Examples.dbEnv) st') =
      Resolved (Some (stamped Examples.dbEnv (newId Examples.dbEnv)
                        (Examples.dbItem "gemini" "deep" (Some 5) 1))).
Proof.
  assert (Hfresh : objectStore SCANS Examples.threeScans !! newId Examples.dbEnv = None)
    by (vm_compute; reflexivity).
  split; [reflexivity | split; [reflexivity | split; [exact Hfresh | ] ] ].
  destruct (create_then_read Examples.dbEnv Examples.dbEnv SCANS
              (Examples.dbItem "gemini" "deep" (Some 5) 1) Examples.threeScans
              eq_refl eq_refl eq_refl Hfresh) as (st' & Hcreate & Hread & _).
  exists st'. split; assumption.
Defined.

(** X26.  [delete] resolves with [true] whether or not the key was
    there; afterwards a [read] of the key gives [undefined], and the
    other objects of the store and the other stores are untouched. *)
Theorem delete_then_read (env env' : Env) (name : StoreName) (key : string) (st : State) :
  openFails env = false -> requestFails env = false ->
  requestFails env' = false ->
  exists st',
    delete_ env name key st = (Resolved true, st') /\
    fst (read_ env' name key st') = Resolved None /\
    (forall k, k <> key -> objectStore name st' !! k = objectStore name st !! k) /\
    (forall other, other <> name -> objectStore other st' = objectStore other st).
Proof.
  intros Hopen Hreq Hreq'. eexists. split; [now apply delete_run | ].
  repeat split.
  - unfold read_, ensureInitialized, bind, read, ret.
    rewrite isInitialized_set. cbn [setInitialized isInitialized].
    rewrite Hreq', objectStore_set, lookup_delete_eq. reflexivity.
  - intros k Hk. rewrite objectStore_set, lookup_delete_ne by congruence.
    apply (f_equal (fun s => s !! k)), objectStore_setInitialized.
  - intros other Hother. rewrite objectStore_set_other by exact Hother.
    apply objectStore_setInitialized.
Qed.

Lemma delete_then_read_witness :
  openFails Examples.dbEnv = false /\ requestFails Examples.dbEnv = false /\
  exists st',
    delete_ Examples.dbEnv SCANS "db_9" Examples.threeScans = (Resolved true, st') /\
    fst (read_ Examples.dbEnv SCANS "db_9" st') = Resolved None.
Proof.
  split; [reflexivity | split; [reflexivity | ] ].
  destruct (delete_then_read Examples.dbEnv Examples.dbEnv SCANS "db_9"
              Examples.threeScans eq_refl eq_refl eq_refl) as (st' & Hdelete & Hread & _).
  exists st'. split; assumption.
Defined.

(** X27.  [update] on a key that is not in the store rejects with
    'Item not found'; on a key that is there it stores the object with
    the updates applied, the same [id] and [createdAt], and the time of
    the call as [updatedAt].  When the read inside it fails, the
    promise of [update] neither resolves nor rejects. *)
Theorem update_outcomes (env : Env) (name : StoreName) (key : string)
    (updates : Updates) (st : State) :
  openFails env = false ->
  update_ env name key updates st =
  if requestFails env then (Pending, setInitialized st)
  else
    match objectStore name st !! key with
    | None => (Rejected (PlainError "Item not found"), setInitialized st)
    | Some existing =>
        (Resolved key,
         setObjectStore name
           (<[key := merged env (withId key existing) updates]> (objectStore name st))
           (setInitialized st))
    end.
Proof.
  intros Hopen. unfold update_.
  rewrite (bind_run _ _ _ _ _ (proj1 (ensureInitialized_run env st Hopen))).
  destruct (requestFails env) eqn:Hreq.
  - erewrite bind_wait; [reflexivity | ].
    erewrite tryCatch_fail; [reflexivity | ].
    exact (read_fail env name key (setInitialized st) Hopen Hreq).
  - erewrite bind_run;
      [ | erewrite tryCatch_run;
            [reflexivity | exact (read_run env name key (setInitialized st) Hopen Hreq)] ].
    rewrite objectStore_setInitialized.
    destruct (objectStore name st !! key) as [existing|]; cbn [fmap option_fmap option_map].
    + unfold bind, read, update, ret. rewrite objectStore_setInitialized. reflexivity.
    + reflexivity.
Qed.

Lemma update_outcomes_witness :
  openFails Examples.dbFailing = false /\
  fst (update_ Examples.dbFailing SCANS "db_1" Examples.rename Examples.threeScans)
  = Pending /\
  fst (update_ Examples.dbEnv SCANS "db_9" Examples.rename Examples.threeScans)
  = Rejected (PlainError "Item not found").
Proof.
  split; [reflexivity | split].
  - rewrite (update_outcomes Examples.dbFailing SCANS "db_1" Examples.rename
               Examples.threeScans eq_refl).
    reflexivity.
  - rewrite (update_outcomes Examples.dbEnv SCANS "db_9" Examples.rename
               Examples.threeScans eq_refl).
    vm_compute. reflexivity.
Defined.

(** *** Clean-up *)

Lemma delete_run_initialised (env : Env) (name : StoreName) (key : string) (st : State) :
  requestFails env = false -> isInitialized st = true ->
  delete_ env name key st =
  (Resolved true, setObjectStore name (delete key (objectStore name st)) st).
Proof.
  intros Hreq Hi. unfold delete_, ensureInitialized, bind, read, update, ret.
  now rewrite Hi, Hreq.
Qed.

Lemma setObjectStore_twice (name : StoreName) (s s' : gmap string Item) (st : State) :
  setObjectStore name s' (setObjectStore name s st) = setObjectStore name s' st.
Proof. destruct name; reflexivity. Qed.

Lemma setObjectStore_same (name : StoreName) (st : State) :
  setObjectStore name (objectStore name st) st = st.
Proof. destruct st, name; reflexivity. Qed.

Lemma deleteEach_run (env : Env) (name : StoreName) (old : list Item) (st : State) :
  requestFails env = false -> isInitialized st = true ->
  deleteEach env name old st =
  (Resolved tt,
   setObjectStore name (foldl (fun s x => delete (id x) s) (objectStore name st) old) st).
Proof.
  intros Hreq. revert st. induction old as [|x rest IH]; intros st Hi.
  - cbn [deleteEach foldl]. now rewrite setObjectStore_same.
  - cbn [deleteEach foldl].
    erewrite bind_run; [ | now apply delete_run_initialised ].
    rewrite IH by (now rewrite isInitialized_set).
    now rewrite objectStore_set, setObjectStore_twice.
Qed.

Lemma lookup_foldl_delete (old : list Item) (s : gmap string Item) (k : string) :
  foldl (fun s x => delete (id x) s) s old !! k =
  if bool_decide (k ∈ map id old) then None else s !! k.
Proof.
  revert s. induction old as [|x rest IH]; intros s; [reflexivity | ].
  cbn [foldl map]. rewrite IH.
  destruct (decide (k = id x)) as [->|Hne].
  - rewrite lookup_delete_eq.
    rewrite (bool_decide_eq_true_2 (id x ∈ id x :: map id rest)) by left.
    now destruct (bool_decide _).
  - rewrite lookup_delete_ne by congruence.
    apply (f_equal (fun b : bool => if b then None else s !! k)).
    apply bool_decide_ext. rewrite elem_of_cons. tauto.
Qed.

(** What [cleanupOldData] does to one store. *)
Lemma sweep_store (env : Env) (name : StoreName) (cutoff : Z) (st : State) :
  openFails env = false -> requestFails env = false ->
  exists st',
    (old <- query env {| table := name; where_ := [TimestampWhere [OpLt cutoff]];
                         limit := None; offset := 0 |} ;;
     deleteEach env name old) st = (Resolved tt, st') /\
    isInitialized st' = true /\
    (forall other, other <> name -> objectStore other st' = objectStore other st) /\
    (forall k x, objectStore name st' !! k = Some x <->
       objectStore name st !! k = Some x /\
       forall t, timestamp x = Some t -> cutoff <= t).
Proof.
  intros Hopen Hreq. eexists. split; [ | split; [ | split ] ].
  - erewrite bind_run; [ | now apply query_run ].
    apply deleteEach_run; [exact Hreq | reflexivity].
  - now rewrite isInitialized_set.
  - intros other Hother. rewrite objectStore_set_other by exact Hother.
    apply objectStore_setInitialized.
  - intros k x. rewrite objectStore_set, lookup_foldl_delete, objectStore_setInitialized.
    cbn [window limit offset table where_ skipn].
    set (s := objectStore name st).
    assert (Hold : k ∈ map id (List.filter
                     (fun x => matchesFilters x [TimestampWhere [OpLt cutoff]]) (rows s))
                   <-> exists y t, s !! k = Some y /\ timestamp y = Some t /\ t < cutoff).
    { rewrite list_elem_of_fmap. split.
      - intros (y & -> & Hy). apply elem_of_filter_list in Hy as [Hy Hm].
        apply in_rows in Hy as (z & Hz & Hyz).
        unfold matchesFilters, applyOperators in Hm. cbn [forallb] in Hm.
        rewrite Hyz in Hm. cbn [timestamp withId] in Hm.
        destruct (timestamp z) as [t|] eqn:Ht; [ | discriminate].
        exists z, t. repeat split; [exact Hz | exact Ht | ].
        rewrite !andb_true_r in Hm. now apply Z.ltb_lt in Hm.
      - intros (y & t & Hy & Ht & Hlt). exists (withId k y). split; [reflexivity | ].
        apply elem_of_filter_list. split.
        + apply in_rows. exists y. cbn. auto.
        + unfold matchesFilters, applyOperators. cbn [forallb timestamp withId].
          rewrite Ht, !andb_true_r. now apply Z.ltb_lt. }
    destruct (bool_decide _) eqn:Hdec.
    + apply bool_decide_eq_true_1 in Hdec. apply Hold in Hdec as (y & t & Hy & Ht & Hlt).
      split; [discriminate | ]. intros [Hx Hkeep].
      rewrite Hy in Hx. injection Hx as <-. specialize (Hkeep t Ht). lia.
    + apply bool_decide_eq_false_1 in Hdec. split.
      * intros Hx. split; [exact Hx | ]. intros t Ht.
        destruct (Z.lt_ge_cases t cutoff) as [Hlt|Hge]; [ | exact Hge].
        destruct Hdec. apply Hold. eauto.
      * intros [Hx _]. exact Hx.
Qed.

(** X28.  [cleanupOldData(retentionDays)] removes from the scans and
    from the live data exactly the objects whose timestamp is before
    the cut-off; an object without timestamp stays, and the other
    stores are not touched. *)
Theorem cleanupOldData_removes_exactly_the_old (env : Env) (retentionDays : Z) (st : State) :
  openFails env = false -> requestFails env = false ->
  exists st',
    cleanupOldData env retentionDays st = (Resolved tt, st') /\
    (forall name, name = SCANS \/ name = LIVE_DATA ->
       forall k x, objectStore name st' !! k = Some x <->
         objectStore name st !! k = Some x /\
         forall t, timestamp x = Some t -> now env - retentionDays * 86400000 <= t) /\
    (forall name, name <> SCANS -> name <> LIVE_DATA ->
       objectStore name st' = objectStore name st).
Proof.
  intros Hopen Hreq.
  destruct (sweep_store env SCANS (cutoffDate env retentionDays) st Hopen Hreq)
    as (st1 & Hrun1 & Hi1 & Hother1 & Hkeep1).
  destruct (sweep_store env LIVE_DATA (cutoffDate env retentionDays) st1 Hopen Hreq)
    as (st2 & Hrun2 & Hi2 & Hother2 & Hkeep2).
  assert (Hcut : cutoffDate env retentionDays = now env - retentionDays * 86400000)
    by (unfold cutoffDate; lia).
  exists st2. split; [ | split ].
  - unfold cleanupOldData.
    unfold bind in Hrun1, Hrun2 |- *.
    destruct (query env _ st) as [[l| |] st0]; try discriminate.
    rewrite Hrun1. exact Hrun2.
  - intros name [-> | ->] k x; rewrite <- Hcut.
    + rewrite Hother2 by discriminate. apply Hkeep1.
    + rewrite Hkeep2, Hother1 by discriminate. reflexivity.
  - intros name Hs Hl. rewrite Hother2, Hother1 by assumption. reflexivity.
Qed.

Lemma cleanupOldData_removes_exactly_the_old_witness :
  openFails Examples.dbEnv = false /\ requestFails Examples.dbEnv = false /\
  exists st',
    cleanupOldData Examples.dbEnv 30 Examples.threeScans = (Resolved tt, st') /\
    scans st' !! "db_1" = None /\
    scans st' !! "db_2" = Some (Examples.dbItem "" "live" None 3).
Proof.
  split; [reflexivity | split; [reflexivity | ] ].
  destruct (cleanupOldData_removes_exactly_the_old Examples.dbEnv 30 Examples.threeScans
              eq_refl eq_refl) as (st' & Hrun & Hkeep & _).
  exists st'. split; [exact Hrun | split].
  - apply eq_None_not_Some. intros [x Hx].
    apply (Hkeep SCANS (or_introl eq_refl)) in Hx as [Hx Hnew].
    assert (Hone : scans Examples.threeScans !! "db_1"
                   = Some (Examples.dbItem "chatgpt" "deep" (Some 1000) 12))
      by (vm_compute; reflexivity).
    change (objectStore SCANS Examples.threeScans) with (scans Examples.threeScans) in Hx.
    rewrite Hone in Hx. injection Hx as <-.
    specialize (Hnew 1000 eq_refl). vm_compute in Hnew. now destruct Hnew.
  - apply (Hkeep SCANS (or_introl eq_refl)). split.
    + vm_compute. reflexivity.
    + intros t Ht. discriminate Ht.
Defined.

(** *** Statistics *)

Lemma bump_other (key p : string) (h : gmap string Entry) :
  key <> p -> bump key h !! p = h !! p.
Proof.
  intros Hne. unfold bump.
  destruct (h !! key) as [[n|]|]; rewrite ?lookup_insert_ne by exact Hne; try reflexivity.
  destruct (String.eqb key "__proto__"); [reflexivity | ].
  destruct (inherited key); now rewrite lookup_insert_ne by exact Hne.
Qed.

Lemma inherited_proto (p : string) : inherited p = false -> String.eqb p "__proto__" = false.
Proof.
  intros H. destruct (String.eqb_spec p "__proto__") as [->|]; [ | reflexivity].
  vm_compute in H. discriminate.
Qed.

Lemma histogram_counts (key : Item -> string) (l : list Item) (h : gmap string Entry)
    (p : string) (c : nat) :
  inherited p = false -> h !! p = entryOf c ->
  fold_left (fun h s => bump (key s) h) l h !! p
  = entryOf (c + length (List.filter (fun x => String.eqb (key x) p) l)).
Proof.
  intros Hp. revert h c.
  induction l as [|x rest IH]; intros h c Hc; cbn [fold_left List.filter].
  - cbn. now rewrite Nat.add_0_r.
  - destruct (String.eqb_spec (key x) p) as [->|Hne].
    + cbn [length]. rewrite Nat.add_succ_r. apply (IH _ (S c)).
      unfold bump. rewrite Hc. destruct c as [|c]; cbn [entryOf].
      * rewrite (inherited_proto p Hp), Hp. apply lookup_insert_eq.
      * apply lookup_insert_eq.
    + apply IH. now rewrite bump_other.
Qed.

Lemma histogram_inherited (key : Item -> string) (l : list Item) (h : gmap string Entry)
    (p : string) :
  inherited p = true -> (forall n, h !! p <> Some (Count n)) ->
  forall n, fold_left (fun h s => bump (key s) h) l h !! p <> Some (Count n).
Proof.
  intros Hp. revert h. induction l as [|x rest IH]; intros h Hh; cbn [fold_left]; [exact Hh | ].
  apply IH. intros n. destruct (decide (key x = p)) as [->|Hne].
  - unfold bump. destruct (h !! p) as [[k|]|] eqn:Hl.
    + now destruct (Hh k).
    + now rewrite lookup_insert_eq.
    + destruct (String.eqb p "__proto__"); [now rewrite Hl | ].
      now rewrite Hp, lookup_insert_eq.
  - rewrite bump_other by exact Hne. apply Hh.
Qed.

Lemma getAllScans_run (env : Env) (st : State) :
  openFails env = false -> requestFails env = false ->
  getAllScans env st = (Resolved (rows (scans st)), setInitialized st).
Proof.
  intros Hopen Hreq. unfold getAllScans. rewrite query_run by assumption.
  cbn [window limit offset table where_ objectStore matchesFilters forallb].
  rewrite drop_0. f_equal. f_equal.
  induction (rows (scans st)) as [|x l IH]; cbn [List.filter]; [reflexivity | ].
  now rewrite IH.
Qed.

(** X29.  The statistics count every scan once: [totalScans] is the
    number of scans in the store, and under every name that is not a
    property name of [Object.prototype] the entry of a platform (of a
    scan type) is the number of scans with that platform (that type),
    the scans without one being counted under 'Unknown' ('unknown'),
    and there is no entry without such a scan.  Under a property name
    of [Object.prototype] ('constructor', 'toString', '__proto__', ...)
    the histograms are plain objects that hold no number. *)
Theorem getScanStatistics_counts_every_scan (env : Env) (st : State) :
  openFails env = false -> requestFails env = false ->
  exists stats,
    fst (getScanStatistics env st) = Resolved stats /\
    totalScans stats = size (scans st) /\
    (forall p, inherited p = false ->
       platforms stats !! p =
       entryOf (length (List.filter (fun x => String.eqb (orUnknown (platform x)) p)
                          (rows (scans st))))) /\
    (forall t, inherited t = false ->
       scanTypes stats !! t =
       entryOf (length (List.filter (fun x => String.eqb (orLowerUnknown (scanType x)) t)
                          (rows (scans st))))) /\
    (forall p n, inherited p = true ->
       platforms stats !! p <> Some (Count n) /\ scanTypes stats !! p <> Some (Count n)).
Proof.
  intros Hopen Hreq. eexists. split; [ | split; [ | split; [ | split] ] ].
  - unfold getScanStatistics.
    erewrite bind_run; [ | now apply getAllScans_run ]. reflexivity.
  - cbn. apply rows_length.
  - intros p Hp. cbn. now rewrite (histogram_counts _ _ _ p 0%nat Hp).
  - intros t Ht. cbn. now rewrite (histogram_counts _ _ _ t 0%nat Ht).
  - intros p n Hp. cbn.
    split; apply histogram_inherited; try exact Hp; intros k; now rewrite lookup_empty.
Qed.

Lemma getScanStatistics_counts_every_scan_witness :
  openFails Examples.dbEnv = false /\ requestFails Examples.dbEnv = false /\
  exists stats,
    fst (getScanStatistics Examples.dbEnv Examples.threeScans) = Resolved stats /\
    totalScans stats = 3%nat /\
    platforms stats !! "chatgpt" = Some (Count 2) /\
    platforms stats !! "Unknown" = Some (Count 1) /\
    platforms stats !! "" = None.
Proof.
  split; [reflexivity | split; [reflexivity | ] ].
  destruct (getScanStatistics_counts_every_scan Examples.dbEnv Examples.threeScans
              eq_refl eq_refl) as (stats & Hrun & Htotal & Hplatforms & _).
  exists stats. split; [exact Hrun | split; [ | split; [ | split] ] ].
  - rewrite Htotal. vm_compute. reflexivity.
  - rewrite Hplatforms by reflexivity. vm_compute. reflexivity.
  - rewrite Hplatforms by reflexivity. vm_compute. reflexivity.
  - rewrite Hplatforms by reflexivity. vm_compute. reflexivity.
Defined.

(** *** Bulk insertion *)

Lemma addAll_Some (env : Env) (items : list (string * Item)) (s s' : gmap string Item) :
  addAll env items s = Some s' ->
  (forall k d, (k, d) ∈ items -> s' !! k = Some (stamped env k d)) /\
  (forall k, k ∉ map fst items -> s' !! k = s !! k) /\
  (forall k, k ∈ map fst items -> s !! k = None).
Proof.
  revert s. induction items as [|[k d] rest IH]; intros s; cbn [addAll map fst].
  - intros [= <-]. repeat split.
    + intros k d H. inversion H.
    + intros k H. inversion H.
  - destruct (s !! k) eqn:Hk; [discriminate | ]. intros Hrest.
    destruct (IH _ Hrest) as (Hin & Hout & Hfresh).
    assert (Hnot : k ∉ map fst rest).
    { intros H. apply Hfresh in H. rewrite lookup_insert_eq in H. discriminate. }
    repeat split.
    + intros k' d' H. apply elem_of_cons in H as [[= -> ->] | H]; [ | now apply Hin].
      rewrite Hout by exact Hnot. apply lookup_insert_eq.
    + intros k' H. rewrite not_elem_of_cons in H. destruct H as [Hne H].
      rewrite Hout by exact H. now apply lookup_insert_ne.
    + intros k' H. apply elem_of_cons in H as [-> | H]; [exact Hk | ].
      specialize (Hfresh k' H).
      destruct (decide (k = k')) as [<- | Hne]; [exact Hk | ].
      now rewrite lookup_insert_ne in Hfresh.
Qed.

Lemma addAll_fresh (env : Env) (items : list (string * Item)) (s : gmap string Item) :
  NoDup (map fst items) ->
  (forall k, k ∈ map fst items -> s !! k = None) ->
  is_Some (addAll env items s).
Proof.
  revert s. induction items as [|[k d] rest IH]; intros s Hnd Hfresh; cbn [addAll].
  - eauto.
  - cbn [map fst] in Hnd, Hfresh. apply NoDup_cons in Hnd as [Hk Hnd].
    rewrite (Hfresh k) by left. apply IH; [exact Hnd | ].
    intros k' Hk'. rewrite lookup_insert_ne by (intros ->; contradiction).
    apply Hfresh. now right.
Qed.

(** X30.  [bulkCreate] is all or nothing, and says nothing for an
    empty list: its promise stays pending exactly when there are no
    items; when it resolves, every item is in the store under its
    identifier and the other objects are as before; when it does not,
    the store is as before.  It resolves when the requests succeed and
    the identifiers are distinct and new. *)
Theorem bulkCreate_all_or_nothing (env : Env) (name : StoreName)
    (items : list (string * Item)) (st : State) :
  openFails env = false ->
  exists o st',
    bulkCreate env name items st = (o, st') /\
    (o = Pending <-> items = []) /\
    (forall ids, o = Resolved ids ->
       ids = map fst items /\
       (forall k d, (k, d) ∈ items ->
          objectStore name st' !! k = Some (stamped env k d)) /\
       (forall k, k ∉ map fst items ->
          objectStore name st' !! k = objectStore name st !! k)) /\
    ((forall ids, o <> Resolved ids) -> objectStore name st' = objectStore name st) /\
    (requestFails env = false -> items <> [] -> NoDup (map fst items) ->
     (forall k, k ∈ map fst items -> objectStore name st !! k = None) ->
     o = Resolved (map fst items)).
Proof.
  intros Hopen. unfold bulkCreate.
  rewrite (bind_run _ _ _ _ _ (proj1 (ensureInitialized_run env st Hopen))).
  destruct items as [|item rest].
  - exists Pending, (setInitialized st).
    split; [reflexivity | split; [tauto | split; [discriminate | split] ] ].
    + intros _. apply objectStore_setInitialized.
    + intros _ H. now destruct H.
  - set (items := item :: rest). unfold bind, read.
    rewrite objectStore_setInitialized.
    destruct (requestFails env) eqn:Hreq.
    + eexists _, _. split; [reflexivity | ].
      split; [split; discriminate | split; [discriminate | split] ].
      * intros _. apply objectStore_setInitialized.
      * discriminate.
    + destruct (addAll env items (objectStore name st)) as [s'|] eqn:Hadd.
      * destruct (addAll_Some _ _ _ _ Hadd) as (Hin & Hout & _).
        eexists _, _. split; [reflexivity | ]. cbn [update ret].
        split; [split; discriminate | split; [ | split] ].
        -- intros ids [= <-]. split; [reflexivity | split].
           ++ intros k d H. rewrite objectStore_set. now apply Hin.
           ++ intros k H. rewrite objectStore_set. now apply Hout.
        -- intros H. now destruct (H (map fst items)).
        -- reflexivity.
      * eexists _, _. split; [reflexivity | ].
        split; [split; discriminate | split; [discriminate | split] ].
        -- intros _. apply objectStore_setInitialized.
        -- intros _ _ Hnd Hfresh.
           destruct (addAll_fresh env items _ Hnd Hfresh) as [s' Hs'].
           rewrite Hs' in Hadd. discriminate.
Qed.

Lemma bulkCreate_all_or_nothing_witness :
  openFails Examples.dbEnv = false /\
  fst (bulkCreate Examples.dbEnv SCANS [] Examples.threeScans) = Pending.
Proof.
  split; [reflexivity | ].
  destruct (bulkCreate_all_or_nothing Examples.dbEnv SCANS [] Examples.threeScans eq_refl)
    as (o & st' & Hrun & Hpending & _).
  rewrite Hrun. cbn [fst]. now apply Hpending.
Defined.

End DatabaseProperties.

(* ================================================================= *)
(** ** Writing on the fallback *)

Section FallbackWrites.
Import IndexedDBManager.

(** C10, as stated, fails: on the fallback a storeScan call whose scan
    has neither url nor title is rejected and appends nothing, and on a
    full list a call with a scan older than the 500 entries resolves
    with the scan's id and leaves the list as it was. *)
Lemma fallback_storeScan_not_always_appends :
  isUsingFallback Examples.openFailed = true /\
  storeScan Examples.shortScans (Examples.calm 2000 "scan_new") Examples.emptyScan
    Examples.openFailed
  = (Rejected (PlainError "Scan data must contain url or title"), Examples.openFailed) /\
  isUsingFallback Examples.fullFallback = true /\
  length (chromeScans Examples.fullFallback) = 500%nat /\
  fst (storeScan Examples.shortScans (Examples.calm 1800000000000 "scan_new")
         Examples.oldScan Examples.fullFallback) = Resolved "scan_old" /\
  chromeScans (snd (storeScan Examples.shortScans (Examples.calm 1800000000000 "scan_new")
                      Examples.oldScan Examples.fullFallback))
  = chromeScans Examples.fullFallback.
Proof. repeat split; vm_compute; reflexivity. Qed.

(** C10, amended: in fallback mode a storeScan call whose data passes
    validation, the extension storage answering, runs no duplicate
    check, whatever the list holds: it resolves with the id of the
    sanitised record, and the fallback list becomes the old list with
    that record appended, re-sorted newest first and cut to its first
    500 entries; the primary store is not touched.  So the list is
    sorted newest first afterwards, it and the entries cut are together
    the old entries and the new record, each once, and no entry cut is
    more recent than an entry kept; below 500 entries nothing is cut
    and the list gains exactly the new record, also when an identical
    record is already there. *)
Theorem fallback_storeScan_appends (JSON_length : Scan -> Z) (env : Env)
    (scanData : Scan) (m : Manager) :
  initialized m = true -> useFallback m = true ->
  validateScanData JSON_length scanData = Ok tt ->
  chromeGetFails env = false -> chromeSetFails env = false ->
  let stored := sanitizeScanData env scanData in
  let m' := snd (storeScan JSON_length env scanData m) in
  fst (storeScan JSON_length env scanData m) = Resolved (id stored) /\
  chromeScans m' = JS.slice 0 500 (newestFirst (chromeScans m ++ [stored])) /\
  store m' = store m /\
  descending (chromeScans m') /\
  length (chromeScans m') = Nat.min 500 (S (length (chromeScans m))) /\
  (exists cut,
     chromeScans m' ++ cut ≡ₚ stored :: chromeScans m /\
     (forall kept gone, kept ∈ chromeScans m' -> gone ∈ cut ->
        timestamp gone <= timestamp kept)) /\
  ((length (chromeScans m) < 500)%nat -> chromeScans m' ≡ₚ stored :: chromeScans m).
Proof.
  intros Hi Hf Hv Hg Hs stored m'. subst m'.
  rewrite (storeScan_fallback JSON_length env scanData m Hi Hf Hv Hg Hs).
  cbn [fst snd chromeScans store setChromeScans]. fold stored.
  set (sorted := newestFirst (chromeScans m ++ [stored])).
  assert (Hsorted : descending sorted) by apply newestFirst_descending.
  assert (Hperm : sorted ≡ₚ stored :: chromeScans m).
  { subst sorted. unfold newestFirst. rewrite sort_perm. apply Permutation_app_comm. }
  split; [reflexivity | split; [reflexivity | split; [reflexivity | ] ] ].
  split; [now apply slice_StronglySorted | ].
  split.
  { rewrite slice_from_start, length_firstn, (Permutation_length Hperm).
    reflexivity. }
  split.
  - exists (skipn 500 sorted). rewrite slice_from_start, firstn_skipn.
    split; [exact Hperm | ]. intros kept gone Hk Hgone.
    unfold descending in Hsorted. rewrite <- (firstn_skipn 500 sorted) in Hsorted.
    exact (StronglySorted_app_1_elem_of _ _ _ _ _ Hsorted Hk Hgone).
  - intros Hlt. rewrite slice_all; [exact Hperm | ].
    rewrite (Permutation_length Hperm). cbn [length]. lia.
Qed.

Lemma fallback_storeScan_appends_witness :
  initialized Examples.openFailed = true /\ useFallback Examples.openFailed = true /\
  length (chromeScans
    (snd (storeScan Examples.shortScans (Examples.calm 3000 "scan_b") Examples.firstScan
       (snd (storeScan Examples.shortScans (Examples.calm 2000 "scan_a") Examples.firstScan
               Examples.openFailed))))) = 2%nat.
Proof.
  split; [reflexivity | split; [reflexivity | ]].
  destruct (fallback_storeScan_appends Examples.shortScans (Examples.calm 3000 "scan_b")
              Examples.firstScan
              (snd (storeScan Examples.shortScans (Examples.calm 2000 "scan_a")
                      Examples.firstScan Examples.openFailed))
              eq_refl eq_refl eq_refl eq_refl eq_refl) as (_ & _ & _ & _ & Hlen & _).
  rewrite Hlen. reflexivity.
Defined.

End FallbackWrites.
